(** * TravelPlan itinerary manager: data-access fallback layer and
      derived-view computations, embedded from the TypeScript sources.

    Layout of the development:
    - [Model]     : records of [lib/database.ts], the remote client seen as an
                    oracle, and the state-and-exception monad in which the
                    asynchronous handlers are written;
    - [Database]  : [DatabaseService] and its static seed records;
    - [JsDate], [JsArray], [JsObject] : the parts of the host's [Date],
                    arrays and plain objects that the pages rely on;
    - [Dashboard], [TripDetails], [CalendarView], [PackingList] : the derived
                    view computations of the pages;
    - [CreateTripDialog], [CreateEntryDialog] : schema validation and the
                    submit handlers;
    - [DatabaseAsync] : the calls of [DatabaseService] as tasks that advance
                    turn by turn, for calls that overlap;
    - [Page]      : handlers that also update the state of a component;
    - [DatabaseInit], [DashboardPage], [TripDetailsPage], [PackingListPage],
      [TextParserDialog], [JsUri] : the loaders, the handlers of the packing
                    list and of the text parser, and the map links;
    - the [Notions] modules : the notions in which the specification is
                    phrased, and sample inputs;
    - the [Spec] modules : the properties of the specification. *)

From Stdlib Require Import ZArith List String Ascii Bool Lia DecimalString.
From Stdlib Require DecimalN DecimalPos DecimalFacts.
From Stdlib Require Import Permutation Sorted.
From Stdlib Require Floats Uint63 OrderedTypeEx.
Import ListNotations.
Open Scope string_scope.

Module Model.

(** [interface Trip], [interface TripEntry], [interface PackingItem] of
    lib/database.ts.  An optional field [f?: string] is an [option]. *)
Record Trip := mkTrip {
  trip_id : string;
  trip_userId : string;
  trip_title : string;
  trip_description : option string;
  trip_destination : string;
  trip_startDate : string;
  trip_endDate : string;
  trip_createdAt : string;
  trip_updatedAt : option string
}.

Record TripEntry := mkTripEntry {
  entry_id : string;
  entry_tripId : string;
  entry_userId : string;
  entry_title : string;
  entry_description : option string;
  entry_location : option string;
  entry_address : option string;
  entry_date : string;
  entry_startTime : option string;
  entry_endTime : option string;
  entry_category : string;
  entry_createdAt : string;
  entry_updatedAt : option string
}.

Record PackingItem := mkPackingItem {
  item_id : string;
  item_tripId : string;
  item_userId : string;
  item_itemName : string;
  item_category : option string;
  item_isPacked : bool;
  item_notes : option string;
  item_createdAt : string
}.

(** The object resolved by [blink.auth.me()]; only [id] is read. *)
Record User := mkUser { user_id : string }.

(** Options object of [blink.db.<collection>.list]. *)
Record ListQuery := mkListQuery {
  q_where : list (string * string);
  q_orderBy : list (string * string);
  q_limit : option nat
}.

(** Requests sent to the remote client. *)
Inductive Call :=
| AuthMe
| TripsList (q : ListQuery)
| TripEntriesList (q : ListQuery)
| PackingItemsList (q : ListQuery)
| TripsCreate (t : Trip)
| TripEntriesCreate (e : TripEntry).

(** The remote client is an external collaborator: each request is answered
    as a function of the requests issued before it.  [None] (or [false] for a
    write) stands for a rejected promise; for [auth.me()] it also stands for a
    resolution without a user, on which reading [user.id] throws at once. *)
Record Remote := mkRemote {
  auth_me : list Call -> option User;
  trips_list : list Call -> ListQuery -> option (list Trip);
  tripEntries_list : list Call -> ListQuery -> option (list TripEntry);
  packingItems_list : list Call -> ListQuery -> option (list PackingItem);
  trips_create : list Call -> Trip -> bool;
  tripEntries_create : list Call -> TripEntry -> bool
}.

(** Toast notifications and the other user-interface effects of a dialog. *)
Inductive Variant := VDefault | VDestructive.

Inductive UiEvent :=
| SetLoading (b : bool)
| Toast (title description : string) (variant : Variant)
| FormReset
| OnOpenChange (open : bool)
| OnCreated
| FormErrors (issues : list (string * string)).

(** A console line: [console.log] or [console.error], and the message (the
    logged error object is left out). *)
Inductive Level := Log | Error.

(** Process-wide state: the memoised flag of [DatabaseService]
    ([null] is [None]), the requests issued so far (oldest first), the console
    and the user-interface effects (oldest first). *)
Record World := mkWorld {
  isDatabaseAvailable : option bool;
  requests : list Call;
  console : list (Level * string);
  ui : list UiEvent
}.

Definition initial_world : World := mkWorld None [] [] [].

Inductive exn := RemoteError | TypeError | RangeError.

Inductive result (A : Type) :=
| Ok (a : A)
| Throw (e : exn).
Arguments Ok {A} a.
Arguments Throw {A} e.

(** An [async] function: it transforms the world and either resolves or
    rejects. *)
Definition M (A : Type) : Type := World -> result A * World.

Definition ret {A} (a : A) : M A := fun w => (Ok a, w).

Definition bind {A B} (m : M A) (k : A -> M B) : M B :=
  fun w => match m w with
           | (Ok a, w') => k a w'
           | (Throw e, w') => (Throw e, w')
           end.

Definition throw {A} (e : exn) : M A := fun w => (Throw e, w).

Definition try_catch {A} (body : M A) (handler : exn -> M A) : M A :=
  fun w => match body w with
           | (Ok a, w') => (Ok a, w')
           | (Throw e, w') => handler e w'
           end.

(** [try { body } catch (e) { handler } finally { fin }]: the handlers of this
    program never fail in [finally], so the completion of the [try]/[catch]
    part is the completion of the statement. *)
Definition try_catch_finally {A} (body : M A) (handler : exn -> M A)
           (fin : M unit) : M A :=
  fun w => match try_catch body handler w with
           | (r, w') => match fin w' with
                        | (Ok _, w'') => (r, w'')
                        | (Throw e, w'') => (Throw e, w'')
                        end
           end.

Declare Scope js_scope.
Delimit Scope js_scope with js.
Notation "x <- c ;; k" := (bind c (fun x => k))
  (at level 61, c at next level, right associativity) : js_scope.
Notation "c ;;; k" := (bind c (fun _ => k))
  (at level 61, right associativity) : js_scope.
Open Scope js_scope.

(** The world an asynchronous call leaves behind. *)
Definition after {A} (m : M A) (w : World) : World := snd (m w).

Definition get_flag : M (option bool) :=
  fun w => (Ok (isDatabaseAvailable w), w).

Definition set_flag (b : bool) : M unit :=
  fun w => (Ok tt, mkWorld (Some b) (requests w) (console w) (ui w)).

Definition console_log (msg : string) : M unit :=
  fun w => (Ok tt, mkWorld (isDatabaseAvailable w) (requests w)
                           (console w ++ [(Log, msg)]) (ui w)).

Definition console_error (msg : string) : M unit :=
  fun w => (Ok tt, mkWorld (isDatabaseAvailable w) (requests w)
                           (console w ++ [(Error, msg)]) (ui w)).

Definition emit (e : UiEvent) : M unit :=
  fun w => (Ok tt, mkWorld (isDatabaseAvailable w) (requests w)
                           (console w) (ui w ++ [e])).

Definition record_call (c : Call) (w : World) : World :=
  mkWorld (isDatabaseAvailable w) (requests w ++ [c]) (console w) (ui w).

(** Awaiting a request: it is appended to the history, and the promise
    resolves or rejects as the remote decides. *)
Definition await {A} (c : Call) (answer : list Call -> option A) : M A :=
  fun w => match answer (requests w) with
           | Some a => (Ok a, record_call c w)
           | None => (Throw RemoteError, record_call c w)
           end.

Definition await_write (c : Call) (answer : list Call -> bool) : M unit :=
  fun w => if answer (requests w)
           then (Ok tt, record_call c w)
           else (Throw RemoteError, record_call c w).

Section Client.
Variable R : Remote.

Definition blink_auth_me : M User := await AuthMe (auth_me R).

Definition blink_db_trips_list (q : ListQuery) : M (list Trip) :=
  await (TripsList q) (fun h => trips_list R h q).

Definition blink_db_tripEntries_list (q : ListQuery) : M (list TripEntry) :=
  await (TripEntriesList q) (fun h => tripEntries_list R h q).

Definition blink_db_packingItems_list (q : ListQuery)
  : M (list PackingItem) :=
  await (PackingItemsList q) (fun h => packingItems_list R h q).

Definition blink_db_trips_create (t : Trip) : M unit :=
  await_write (TripsCreate t) (fun h => trips_create R h t).

Definition blink_db_tripEntries_create (e : TripEntry) : M unit :=
  await_write (TripEntriesCreate e) (fun h => tripEntries_create R h e).
End Client.

End Model.

Module Database.
Import Model.

(** [mockTrips], [mockTripEntries], [mockPackingItems]. *)
Definition mockTrips : list Trip :=
  [ mkTrip "1" "mock-user" "Tokyo Adventure"
      (Some "Exploring the vibrant culture and cuisine of Japan")
      "Tokyo, Japan" "2024-03-15" "2024-03-22"
      "2024-01-15T10:00:00Z" (Some "2024-01-15T10:00:00Z");
    mkTrip "2" "mock-user" "European Summer"
      (Some "Multi-city tour across Europe")
      "Paris, Rome, Barcelona" "2024-06-10" "2024-06-25"
      "2024-01-20T14:30:00Z" (Some "2024-01-20T14:30:00Z");
    mkTrip "3" "mock-user" "Bali Retreat"
      (Some "Relaxing getaway in tropical paradise")
      "Bali, Indonesia" "2024-08-05" "2024-08-12"
      "2024-02-01T09:15:00Z" (Some "2024-02-01T09:15:00Z") ].

Definition mockTripEntries : list TripEntry :=
  [ mkTripEntry "1" "1" "mock-user" "Arrival at Narita Airport"
      (Some "Flight arrival and transfer to hotel")
      (Some "Narita International Airport")
      (Some "1-1 Furugome, Narita, Chiba 282-0004, Japan")
      "2024-03-15" (Some "14:30") (Some "16:00") "transport"
      "2024-01-15T10:00:00Z" (Some "2024-01-15T10:00:00Z");
    mkTripEntry "2" "1" "mock-user" "Visit Senso-ji Temple"
      (Some "Explore Tokyo's oldest temple in Asakusa")
      (Some "Senso-ji Temple")
      (Some "2-3-1 Asakusa, Taito City, Tokyo 111-0032, Japan")
      "2024-03-16" (Some "10:00") (Some "12:00") "sightseeing"
      "2024-01-15T10:05:00Z" (Some "2024-01-15T10:05:00Z");
    mkTripEntry "3" "1" "mock-user" "Sushi Dinner at Tsukiji"
      (Some "Fresh sushi at the famous fish market")
      (Some "Tsukiji Outer Market")
      (Some "4 Chome Tsukiji, Chuo City, Tokyo 104-0045, Japan")
      "2024-03-16" (Some "18:00") (Some "20:00") "dining"
      "2024-01-15T10:10:00Z" (Some "2024-01-15T10:10:00Z") ].

Definition mockPackingItems : list PackingItem :=
  [ mkPackingItem "1" "1" "mock-user" "Passport" (Some "documents") true
      (Some "Check expiration date") "2024-01-15T10:00:00Z";
    mkPackingItem "2" "1" "mock-user" "Camera" (Some "electronics") false
      (Some "Don't forget extra batteries") "2024-01-15T10:05:00Z";
    mkPackingItem "3" "1" "mock-user" "Comfortable Walking Shoes"
      (Some "clothing") false None "2024-01-15T10:10:00Z" ].

(** [{ ...trip, userId }] *)
Definition with_userId (userId : string) (trip : Trip) : Trip :=
  mkTrip (trip_id trip) userId (trip_title trip) (trip_description trip)
         (trip_destination trip) (trip_startDate trip) (trip_endDate trip)
         (trip_createdAt trip) (trip_updatedAt trip).

Definition probe_query (userId : string) : ListQuery :=
  mkListQuery [("userId", userId)] [] (Some 1%nat).

Definition trips_query (userId : string) : ListQuery :=
  mkListQuery [("userId", userId)] [("createdAt", "desc")] None.

Definition tripEntries_query (tripId userId : string) : ListQuery :=
  mkListQuery [("tripId", tripId); ("userId", userId)]
              [("date", "asc"); ("startTime", "asc")] None.

Definition packingItems_query (tripId userId : string) : ListQuery :=
  mkListQuery [("tripId", tripId); ("userId", userId)]
              [("category", "asc"); ("itemName", "asc")] None.

(** What the three readers serve when they do not return a live result. *)
Definition fallback_trips (userId : string) : list Trip :=
  map (fun trip => with_userId userId trip) mockTrips.

Definition fallback_tripEntries (tripId : string) : list TripEntry :=
  filter (fun entry => String.eqb (entry_tripId entry) tripId) mockTripEntries.

Definition fallback_packingItems (tripId : string) : list PackingItem :=
  filter (fun item => String.eqb (item_tripId item) tripId) mockPackingItems.

Section Service.
Variable R : Remote.

(** [DatabaseService.checkDatabaseAvailability] *)
Definition checkDatabaseAvailability : M bool :=
  flag <- get_flag ;;
  match flag with
  | Some b => ret b
  | None =>
      try_catch
        (user <- blink_auth_me R ;;
         blink_db_trips_list R (probe_query (user_id user)) ;;;
         set_flag true ;;;
         ret true)
        (fun _ =>
           console_log "Database not available, using mock data:" ;;;
           set_flag false ;;;
           ret false)
  end.

(** The guarded live query shared by the three readers:
    [if (isAvailable) { try { return await q } catch { console.error } }].
    [Some l] is the early [return]; [None] falls through to the seed data. *)
Definition live {A} (isAvailable : bool) (query : M A) : M (option A) :=
  if isAvailable then
    try_catch (l <- query ;; ret (Some l))
              (fun _ =>
                 console_error
                   "Database query failed, falling back to mock data:" ;;;
                 ret None)
  else ret None.

(** [DatabaseService.getTrips] *)
Definition getTrips (userId : string) : M (list Trip) :=
  isAvailable <- checkDatabaseAvailability ;;
  r <- live isAvailable (blink_db_trips_list R (trips_query userId)) ;;
  match r with
  | Some l => ret l
  | None => ret (map (fun trip => with_userId userId trip) mockTrips)
  end.

(** [DatabaseService.getTripEntries] *)
Definition getTripEntries (tripId userId : string) : M (list TripEntry) :=
  isAvailable <- checkDatabaseAvailability ;;
  r <- live isAvailable
            (blink_db_tripEntries_list R (tripEntries_query tripId userId)) ;;
  match r with
  | Some l => ret l
  | None =>
      ret (filter (fun entry => String.eqb (entry_tripId entry) tripId)
                  mockTripEntries)
  end.

(** [DatabaseService.getPackingItems] *)
Definition getPackingItems (tripId userId : string) : M (list PackingItem) :=
  isAvailable <- checkDatabaseAvailability ;;
  r <- live isAvailable
            (blink_db_packingItems_list R
               (packingItems_query tripId userId)) ;;
  match r with
  | Some l => ret l
  | None =>
      ret (filter (fun item => String.eqb (item_tripId item) tripId)
                  mockPackingItems)
  end.

(** Any call a page can make on [DatabaseService]. *)
Inductive Op :=
| OpCheck
| OpGetTrips (userId : string)
| OpGetTripEntries (tripId userId : string)
| OpGetPackingItems (tripId userId : string).

Definition step (op : Op) (w : World) : World :=
  match op with
  | OpCheck => after checkDatabaseAvailability w
  | OpGetTrips u => after (getTrips u) w
  | OpGetTripEntries t u => after (getTripEntries t u) w
  | OpGetPackingItems t u => after (getPackingItems t u) w
  end.

(** Calls made one after the other, each awaited before the next is made.
    Calls that overlap are in [DatabaseAsync]. *)
Definition run (ops : list Op) (w : World) : World :=
  fold_left (fun w op => step op w) ops w.
End Service.

End Database.

(** * The host's [Date], as far as the program uses it.

    A [Date] is its time value: milliseconds since the epoch, or [None] for
    the invalid date (time value NaN).  Strings are byte strings. *)
Module JsDate.
Import Model.
Open Scope Z_scope.

Definition JsDate := option Z.

Definition msPerDay : Z := 86400000.

(** Days from 1970-01-01 of a proleptic Gregorian date. *)
Definition days_from_civil (y m d : Z) : Z :=
  let y' := if m <=? 2 then y - 1 else y in
  let era := y' / 400 in
  let yoe := y' - era * 400 in
  let mp := if 2 <? m then m - 3 else m + 9 in
  let doy := (153 * mp + 2) / 5 + d - 1 in
  let doe := yoe * 365 + yoe / 4 - yoe / 100 + doy in
  era * 146097 + doe - 719468.

(** The inverse: year, month and day of a day number. *)
Definition civil_from_days (z : Z) : Z * Z * Z :=
  let z' := z + 719468 in
  let era := z' / 146097 in
  let doe := z' - era * 146097 in
  let yoe := (doe - doe / 1460 + doe / 36524 - doe / 146096) / 365 in
  let doy := doe - (365 * yoe + yoe / 4 - yoe / 100) in
  let mp := (5 * doy + 2) / 153 in
  let d := doy - (153 * mp + 2) / 5 + 1 in
  let m := if mp <? 10 then mp + 3 else mp - 9 in
  let y := yoe + era * 400 in
  (if m <=? 2 then y + 1 else y, m, d).

Definition is_leap (y : Z) : bool :=
  ((y mod 4 =? 0) && negb (y mod 100 =? 0)) || (y mod 400 =? 0).

Definition days_in_month (y m : Z) : Z :=
  if m =? 2 then (if is_leap y then 29 else 28)
  else if (m =? 4) || (m =? 6) || (m =? 9) || (m =? 11) then 30
  else 31.

Definition digit_of (c : ascii) : option Z :=
  let n := Z.of_nat (nat_of_ascii c) in
  if (48 <=? n) && (n <=? 57) then Some (n - 48) else None.

Fixpoint number_of (acc : Z) (s : string) : option Z :=
  match s with
  | EmptyString => Some acc
  | String c s' =>
      match digit_of c with
      | Some d => number_of (10 * acc + d) s'
      | None => None
      end
  end.

(** The date-only form [YYYY-MM-DD] of the date-time string format, with a
    month and a day that exist: it denotes midnight UTC of that day. *)
Definition parse_iso_date (s : string) : option Z :=
  if (String.length s =? 10)%nat
     && String.eqb (substring 4 1 s) "-"
     && String.eqb (substring 7 1 s) "-"
  then
    match number_of 0 (substring 0 4 s),
          number_of 0 (substring 5 2 s),
          number_of 0 (substring 8 2 s) with
    | Some y, Some m, Some d =>
        if (1 <=? m) && (m <=? 12) && (1 <=? d) && (d <=? days_in_month y m)
        then Some (days_from_civil y m d * msPerDay)
        else None
    | _, _, _ => None
    end
  else None.

Section Host.
(** What the host makes of every other string (the other ISO forms and the
    implementation-defined fallback formats). *)
Variable host_parse : string -> JsDate.

(** [new Date(s)] *)
Definition new_Date (s : string) : JsDate :=
  match parse_iso_date s with
  | Some t => Some t
  | None => host_parse s
  end.
End Host.

(** Relational operators on dates compare the time values; a comparison with
    NaN is false. *)
Definition date_lt (a b : JsDate) : bool :=
  match a, b with Some x, Some y => x <? y | _, _ => false end.

Definition date_le (a b : JsDate) : bool :=
  match a, b with Some x, Some y => x <=? y | _, _ => false end.

Definition date_ge (a b : JsDate) : bool := date_le b a.

Definition decimal (n : Z) : string :=
  DecimalString.NilZero.string_of_uint (N.to_uint (Z.to_N n)).

(** The decimal form of an integral Number, as a template literal prints it. *)
Definition Number_toString (n : Z) : string :=
  if n <? 0 then "-" ++ decimal (- n) else decimal n.

Fixpoint zeros (n : nat) : string :=
  match n with O => "" | S k => String "0" (zeros k) end.

(** [n] in decimal, left-padded with zeros to [width] digits. *)
Definition pad (width : nat) (n : Z) : string :=
  let s := decimal n in
  zeros (width - String.length s) ++ s.

(** [Date.prototype.toISOString]: [YYYY-MM-DDTHH:mm:ss.sssZ], with the
    expanded six-digit signed year outside 0..9999; a [RangeError] on the
    invalid date. *)
Definition toISOString (d : JsDate) : result string :=
  match d with
  | None => Throw RangeError
  | Some t =>
      let day := t / msPerDay in
      let ms := t mod msPerDay in
      let '(y, m, dd) := civil_from_days day in
      let year :=
        if (0 <=? y) && (y <=? 9999) then pad 4 y
        else if y <? 0 then "-" ++ pad 6 (- y) else "+" ++ pad 6 y in
      Ok (year ++ "-" ++ pad 2 m ++ "-" ++ pad 2 dd ++ "T"
          ++ pad 2 (ms / 3600000) ++ ":" ++ pad 2 (ms / 60000 mod 60) ++ ":"
          ++ pad 2 (ms / 1000 mod 60) ++ "." ++ pad 3 (ms mod 1000) ++ "Z")
  end.

(** [s.split('T')[0]]: the part of [s] before its first ['T']. *)
Fixpoint before_T (s : string) : string :=
  match s with
  | EmptyString => ""
  | String c s' => if Ascii.eqb c "T" then "" else String c (before_T s')
  end.

End JsDate.

(** * pages/Dashboard.tsx *)
Module Dashboard.
Import Model JsDate.

Section Host.
Variable host_parse : string -> JsDate.

(** [getTripStatus]; [clock] is the time value [new Date()] reads. *)
Definition getTripStatus (clock : Z) (startDate endDate : string) : string :=
  let today : JsDate := Some clock in
  let start := new_Date host_parse startDate in
  let end_ := new_Date host_parse endDate in
  if date_lt today start then "upcoming"
  else if date_ge today start && date_le today end_ then "active"
  else "completed".
End Host.

End Dashboard.

(** * The host's arrays and plain objects, as far as the program uses them. *)
Module JsArray.
Open Scope Z_scope.

Section Sort.
Context {A : Type}.
(** A compare function: negative, zero or positive. *)
Variable comparefn : A -> A -> Z.

Fixpoint insert (x : A) (l : list A) : list A :=
  match l with
  | [] => [x]
  | y :: l' => if comparefn x y <=? 0 then x :: y :: l' else y :: insert x l'
  end.

(** [Array.prototype.sort(comparefn)].  The sort is stable, so for a
    consistent compare function its result is determined: the elements in
    ascending order, equal ones in their original order.  Insertion from the
    right computes exactly that order. *)
Definition sort (l : list A) : list A := fold_right insert [] l.
End Sort.

(** The sign of a [comparison], as a compare function returns it. *)
Definition sign (c : comparison) : Z :=
  match c with Lt => -1 | Eq => 0 | Gt => 1 end.

(** [Array.prototype.sort()] on strings: ascending code units. *)
Definition sort_strings (l : list string) : list string :=
  sort (fun a b => sign (String.compare a b)) l.

End JsArray.

Module JsObject.
Import Model JsDate.
Open Scope Z_scope.

(** An object created by [{}]: its own string-keyed properties in creation
    order; its prototype is [Object.prototype]. *)
Definition obj (A : Type) : Type := list (string * A).

(** The property names every such object inherits. *)
Definition Object_prototype_names : list string :=
  [ "constructor"; "__defineGetter__"; "__defineSetter__"; "hasOwnProperty";
    "__lookupGetter__"; "__lookupSetter__"; "isPrototypeOf";
    "propertyIsEnumerable"; "toString"; "valueOf"; "__proto__";
    "toLocaleString" ].

Definition inherited (k : string) : bool :=
  existsb (String.eqb k) Object_prototype_names.

(** An array index: the canonical decimal form of an integer below 2^32 - 1. *)
Definition array_index (k : string) : option Z :=
  match number_of 0 k with
  | Some n => if String.eqb (decimal n) k && (n <? 4294967295)
              then Some n else None
  | None => None
  end.

Fixpoint own {A} (k : string) (o : obj A) : option A :=
  match o with
  | [] => None
  | (k', v) :: o' => if String.eqb k' k then Some v else own k o'
  end.

(** What [o[k]] evaluates to. *)
Inductive lookup (A : Type) :=
| Own (a : A)       (* an own property *)
| Inherited         (* a member of Object.prototype: truthy, not an array *)
| Undefined.
Arguments Own {A} a.
Arguments Inherited {A}.
Arguments Undefined {A}.

Definition get {A} (k : string) (o : obj A) : lookup A :=
  match own k o with
  | Some a => Own a
  | None => if inherited k then Inherited else Undefined
  end.

(** [o[k] = v] for a [k] that is not yet an own property. *)
Definition define {A} (k : string) (v : A) (o : obj A) : obj A :=
  (o ++ [(k, v)])%list.

(** The value of the own property [k] replaced in place. *)
Fixpoint update {A} (k : string) (v : A) (o : obj A) : obj A :=
  match o with
  | [] => []
  | (k', v') :: o' =>
      if String.eqb k' k then (k', v) :: o' else (k', v') :: update k v o'
  end.

Definition index_keys {A} (o : obj A) : list (Z * string) :=
  flat_map (fun kv => match array_index (fst kv) with
                      | Some n => [(n, fst kv)]
                      | None => []
                      end) o.

Definition string_keys {A} (o : obj A) : list string :=
  flat_map (fun kv => match array_index (fst kv) with
                      | Some _ => []
                      | None => [fst kv]
                      end) o.

(** [Object.keys(o)]: array indices in ascending numeric order, then the other
    keys in creation order. *)
Definition Object_keys {A} (o : obj A) : list string :=
  (map snd (JsArray.sort (fun a b => fst a - fst b) (index_keys o))
   ++ string_keys o)%list.

(** [Object.entries(o)] *)
Definition Object_entries {A} (o : obj A) : list (string * A) :=
  flat_map (fun k => match own k o with
                     | Some v => [(k, v)]
                     | None => []
                     end) (Object_keys o).

End JsObject.

(** [a.startTime || '']: the empty string is the only falsy string. *)
Definition or_empty (s : option string) : string :=
  match s with
  | Some t => t
  | None => ""
  end.

(** * pages/TripDetails.tsx *)
Module TripDetails.
Import Model JsObject.

(** The callback of [entries.reduce] in [groupEntriesByDate]. *)
Definition group_step (groups : obj (list TripEntry)) (entry : TripEntry)
  : result (obj (list TripEntry)) :=
  let date := entry_date entry in
  (* if (!groups[date]) groups[date] = [] *)
  let groups1 := match get date groups with
                 | Undefined => define date [] groups
                 | _ => groups
                 end in
  (* groups[date].push(entry) *)
  match get date groups1 with
  | Own arr => Ok (update date (arr ++ [entry])%list groups1)
  | _ => Throw TypeError
  end.

(** [groupEntriesByDate] *)
Definition groupEntriesByDate (entries : list TripEntry)
  : result (obj (list TripEntry)) :=
  fold_left (fun acc entry => match acc with
                              | Ok groups => group_step groups entry
                              | Throw e => Throw e
                              end)
            entries (Ok []).

Section Host.
(** [String.prototype.localeCompare] of the host. *)
Variable localeCompare : string -> string -> Z.

Definition by_startTime (a b : TripEntry) : Z :=
  localeCompare (or_empty (entry_startTime a)) (or_empty (entry_startTime b)).

(** The cards under one date heading of the timeline:
    [groupedEntries[date].sort(...)]. *)
Definition timeline_group (group : list TripEntry) : list TripEntry :=
  JsArray.sort by_startTime group.

(** The timeline: the date headings from
    [Object.keys(groupedEntries).sort()], each with its cards. *)
Definition timeline (groupedEntries : obj (list TripEntry))
  : list (string * list TripEntry) :=
  flat_map (fun date => match own date groupedEntries with
                        | Some group => [(date, timeline_group group)]
                        | None => []
                        end)
           (JsArray.sort_strings (Object_keys groupedEntries)).
End Host.

End TripDetails.

(** * pages/CalendarView.tsx *)
Module CalendarView.

(** The page's own [interface TripEntry]. *)
Record TripEntry := mkTripEntry {
  id : string;
  tripId : string;
  tripTitle : string;
  title : string;
  description : option string;
  location : option string;
  date : string;
  startTime : option string;
  endTime : option string;
  category : string
}.

Section Host.
Variable localeCompare : string -> string -> Z.

(** [getEntriesForDate], given [format(date, 'yyyy-MM-dd')]. *)
Definition getEntriesForDate (entries : list TripEntry) (dateString : string)
  : list TripEntry :=
  filter (fun entry => String.eqb (date entry) dateString) entries.

Definition by_startTime (a b : TripEntry) : Z :=
  localeCompare (or_empty (startTime a)) (or_empty (startTime b)).

(** The cards of the selected date: [selectedDateEntries.sort(...)]. *)
Definition selected_date_cards (entries : list TripEntry)
           (dateString : string) : list TripEntry :=
  JsArray.sort by_startTime (getEntriesForDate entries dateString).
End Host.

End CalendarView.

(** * pages/PackingList.tsx *)
Module PackingList.
Open Scope Z_scope.

(** The page's own [interface PackingItem]. *)
Record PackingItem := mkPackingItem {
  id : string;
  itemName : string;
  category : string;
  isPacked : bool;
  quantity : Z;
  notes : option string
}.

(** A Number is an IEEE 754 binary64 value. *)
Definition Number := PrimFloat.float.

(** The Number of an array length. *)
Definition Number_of_length (n : nat) : Number :=
  PrimFloat.of_uint63 (Uint63.of_Z (Z.of_nat n)).

(** [Math.round] on a finite Number: the integer nearest to it, a tie going
    up.  The result is integral and is given as that integer.  NaN and the
    infinities, which [Math.round] returns unchanged, cannot be the quotient of
    two lengths with a non-zero divisor; they are sent to 0 here. *)
Definition Math_round (x : Number) : Z :=
  match FloatOps.Prim2SF x with
  | SpecFloat.S754_finite s m e =>
      let v := if s then - Z.pos m else Z.pos m in
      if 0 <=? e then v * 2 ^ e
      else (2 * v + 2 ^ (- e)) / 2 ^ (1 - e)
  | _ => 0
  end.

(** [getPackingProgress], on the page's [items]. *)
Definition getPackingProgress (items : list PackingItem) : Z :=
  if (List.length items =? 0)%nat then 0
  else
    let packedItems := List.length (filter (fun item => isPacked item) items) in
    Math_round (PrimFloat.mul
                  (PrimFloat.div (Number_of_length packedItems)
                                 (Number_of_length (List.length items)))
                  (Number_of_length 100)).

End PackingList.

(** * Form validation (zod schemas behind react-hook-form's resolver). *)
Module Form.
Import Model JsDate.

(** An issue: the path of the field and the message. *)
Definition issue : Type := string * string.

Inductive parsed (A : Type) :=
| Valid (data : A)
| Invalid (issues : list issue).
Arguments Valid {A} data.
Arguments Invalid {A} issues.

(** [z.string().min(1, msg)] *)
Definition string_min1 (path msg : string) (s : string) : list issue :=
  if (String.length s <? 1)%nat then [(path, msg)] else [].

(** [z.date({ required_error })] on a field that is undefined ([None]), an
    invalid date or a date: a value that is not a valid date aborts the
    object, so that no refinement runs. *)
Definition z_date (path required_error : string) (v : option JsDate)
  : list issue :=
  match v with
  | None => [(path, required_error)]
  | Some None => [(path, "Invalid date")]
  | Some (Some _) => []
  end.

(** A completion that is not awaited: a value or an exception. *)
Definition lift {A} (r : result A) : M A := fun w => (r, w).

(** [onCreated?.()]: the prop may be absent; when present it is invoked, and
    returns or throws.  What the parent page does in it is not part of the
    dialog. *)
Definition call_optional (callback : option (result unit)) : M unit :=
  match callback with
  | Some completion => emit OnCreated ;;; lift completion
  | None => ret tt
  end.

(** What the handlers read from the clock and the random source, in order. *)
Record Entropy := mkEntropy {
  Date_now : Z;                (* Date.now() *)
  Math_random_36 : string;     (* Math.random().toString(36) *)
  createdAt_clock : Z;         (* new Date(), for createdAt *)
  updatedAt_clock : Z          (* new Date(), for updatedAt *)
}.

(** [`${prefix}_${Date.now()}_${Math.random().toString(36).substr(2, 9)}`] *)
Definition fresh_id (prefix : string) (en : Entropy) : string :=
  prefix ++ "_" ++ Number_toString (Date_now en) ++ "_"
  ++ substring 2 9 (Math_random_36 en).

(** [d.toISOString().split('T')[0]] *)
Definition iso_day (d : JsDate) : result string :=
  match toISOString d with
  | Ok s => Ok (before_T s)
  | Throw e => Throw e
  end.

End Form.

(** * components/trips/CreateTripDialog.tsx *)
Module CreateTripDialog.
Import Model JsDate Form.

(** The values the form holds when it is submitted. *)
Record TripFormValues := mkTripFormValues {
  v_title : string;
  v_description : option string;
  v_destination : string;
  v_startDate : option JsDate;
  v_endDate : option JsDate
}.

(** [type TripFormData = z.infer<typeof tripSchema>] *)
Record TripFormData := mkTripFormData {
  title : string;
  description : option string;
  destination : string;
  startDate : JsDate;
  endDate : JsDate
}.

(** [tripSchema]: the object schema, then the refinement
    [data.endDate >= data.startDate] on path [endDate]. *)
Definition tripSchema (v : TripFormValues) : parsed TripFormData :=
  let strings :=
    (string_min1 "title" "Title is required" (v_title v)
     ++ string_min1 "destination" "Destination is required"
          (v_destination v))%list in
  match v_startDate v, v_endDate v with
  | Some (Some s), Some (Some e) =>
      let data := mkTripFormData (v_title v) (v_description v)
                                 (v_destination v) (Some s) (Some e) in
      let refinement :=
        if date_ge (endDate data) (startDate data) then []
        else [("endDate", "End date must be after start date")] in
      match (strings ++ refinement)%list with
      | [] => Valid data
      | issues => Invalid issues
      end
  | sd, ed =>
      Invalid (strings
               ++ z_date "startDate" "Start date is required" sd
               ++ z_date "endDate" "End date is required" ed)%list
  end.

(** The object literal [tripData]; its properties are evaluated in order, and
    [toISOString] throws on an invalid date. *)
Definition tripData_of (en : Entropy) (user : User) (data : TripFormData)
  : result Trip :=
  match iso_day (startDate data) with
  | Throw e => Throw e
  | Ok startDay =>
      match iso_day (endDate data) with
      | Throw e => Throw e
      | Ok endDay =>
          match toISOString (Some (createdAt_clock en)),
                toISOString (Some (updatedAt_clock en)) with
          | Ok createdAt, Ok updatedAt =>
              Ok (mkTrip (fresh_id "trip" en) (user_id user) (title data)
                         (Some (or_empty (description data)))
                         (destination data)
                         startDay endDay createdAt (Some updatedAt))
          | Throw e, _ => Throw e
          | _, Throw e => Throw e
          end
      end
  end.

Section Dialog.
Variable R : Remote.
Variable en : Entropy.
Variable onTripCreated : option (result unit).

(** [onSubmit] *)
Definition onSubmit (data : TripFormData) : M unit :=
  try_catch_finally
    (emit (SetLoading true) ;;;
     user <- blink_auth_me R ;;
     tripData <- lift (tripData_of en user data) ;;
     try_catch
       (blink_db_trips_create R tripData ;;;
        emit (Toast "Trip created successfully!"
                    ("Your trip to " ++ destination data
                     ++ " has been created.") VDefault))
       (fun _ =>
          console_log "Database not available, trip created locally:" ;;;
          emit (Toast "Trip created!"
                      ("Your trip to " ++ destination data
                       ++ " has been created (database not available).")
                      VDefault)) ;;;
     emit FormReset ;;;
     emit (OnOpenChange false) ;;;
     call_optional onTripCreated)
    (fun _ =>
       console_error "Failed to create trip:" ;;;
       emit (Toast "Error" "Failed to create trip. Please try again."
                   VDestructive))
    (emit (SetLoading false)).

(** [form.handleSubmit(onSubmit)] with [zodResolver(tripSchema)]: the
    handler runs on the parsed data when the schema accepts the values;
    otherwise the issues become the form's errors. *)
Definition handleSubmit (v : TripFormValues) : M unit :=
  match tripSchema v with
  | Valid data => onSubmit data
  | Invalid issues => emit (FormErrors issues)
  end.
End Dialog.

End CreateTripDialog.

(** * components/trips/CreateEntryDialog.tsx *)
Module CreateEntryDialog.
Import Model JsDate Form.

Record EntryFormValues := mkEntryFormValues {
  v_title : string;
  v_description : option string;
  v_location : option string;
  v_address : option string;
  v_date : option JsDate;
  v_startTime : option string;
  v_endTime : option string;
  v_category : string
}.

(** [type EntryFormData = z.infer<typeof entrySchema>] *)
Record EntryFormData := mkEntryFormData {
  title : string;
  description : option string;
  location : option string;
  address : option string;
  date : JsDate;
  startTime : option string;
  endTime : option string;
  category : string
}.

(** [entrySchema] *)
Definition entrySchema (v : EntryFormValues) : parsed EntryFormData :=
  let issues :=
    (string_min1 "title" "Title is required" (v_title v)
     ++ z_date "date" "Date is required" (v_date v)
     ++ string_min1 "category" "Category is required" (v_category v))%list in
  match v_date v, issues with
  | Some (Some t), [] =>
      Valid (mkEntryFormData (v_title v) (v_description v) (v_location v)
                             (v_address v) (Some t) (v_startTime v)
                             (v_endTime v) (v_category v))
  | _, _ => Invalid issues
  end.

(** The object literal [entryData]. *)
Definition entryData_of (en : Entropy) (tripId : string) (user : User)
           (data : EntryFormData) : result TripEntry :=
  match iso_day (date data) with
  | Throw e => Throw e
  | Ok day =>
      match toISOString (Some (createdAt_clock en)),
            toISOString (Some (updatedAt_clock en)) with
      | Ok createdAt, Ok updatedAt =>
          Ok (mkTripEntry (fresh_id "entry" en) tripId (user_id user)
                          (title data)
                          (Some (or_empty (description data)))
                          (Some (or_empty (location data)))
                          (Some (or_empty (address data)))
                          day
                          (Some (or_empty (startTime data)))
                          (Some (or_empty (endTime data)))
                          (category data) createdAt (Some updatedAt))
      | Throw e, _ => Throw e
      | _, Throw e => Throw e
      end
  end.

Section Dialog.
Variable R : Remote.
Variable en : Entropy.
Variable tripId : string.
Variable onEntryCreated : option (result unit).

(** [onSubmit] *)
Definition onSubmit (data : EntryFormData) : M unit :=
  try_catch_finally
    (emit (SetLoading true) ;;;
     user <- blink_auth_me R ;;
     entryData <- lift (entryData_of en tripId user data) ;;
     try_catch
       (blink_db_tripEntries_create R entryData ;;;
        emit (Toast "Entry added successfully!"
                    (title data ++ " has been added to your itinerary.")
                    VDefault))
       (fun _ =>
          console_log "Database not available, entry created locally:" ;;;
          emit (Toast "Entry added!"
                      (title data
                       ++ " has been added (database not available).")
                      VDefault)) ;;;
     emit FormReset ;;;
     emit (OnOpenChange false) ;;;
     call_optional onEntryCreated)
    (fun _ =>
       console_error "Failed to create entry:" ;;;
       emit (Toast "Error" "Failed to create entry. Please try again."
                   VDestructive))
    (emit (SetLoading false)).

(** [form.handleSubmit(onSubmit)] with [zodResolver(entrySchema)]. *)
Definition handleSubmit (v : EntryFormValues) : M unit :=
  match entrySchema v with
  | Valid data => onSubmit data
  | Invalid issues => emit (FormErrors issues)
  end.
End Dialog.

End CreateEntryDialog.

(** * Handlers of a page: the component's state beside the world *)
Module Page.
Import Model.

(** A handler of a component whose state is [S]: it updates the state and
    the world, and completes with a value or an exception.  The state set
    before an exception is thrown is kept, as React keeps it. *)
Definition H (S A : Type) : Type := S -> World -> result A * S * World.

Definition hret {S A} (a : A) : H S A := fun s w => (Ok a, s, w).

Definition hbind {S A B} (m : H S A) (k : A -> H S B) : H S B :=
  fun s w => match m s w with
             | (Ok a, s', w') => k a s' w'
             | (Throw e, s', w') => (Throw e, s', w')
             end.

(** [setX(...)]: a state update. *)
Definition set {S} (f : S -> S) : H S unit := fun s w => (Ok tt, f s, w).

(** A call that does not touch the component's state. *)
Definition call {S A} (m : M A) : H S A :=
  fun s w => match m w with (r, w') => (r, s, w') end.

(** [try { body } catch (e) { handler } finally { fin }], for handlers whose
    [finally] block only updates the state. *)
Definition htry {S A} (body : H S A) (handler : exn -> H S A)
           (fin : S -> S) : H S A :=
  fun s w => match body s w with
             | (Ok a, s', w') => (Ok a, fin s', w')
             | (Throw e, s', w') =>
                 match handler e s' w' with
                 | (r, s'', w'') => (r, fin s'', w'')
                 end
             end.

Declare Scope page_scope.
Delimit Scope page_scope with page.
Notation "x <~ c ;; k" := (hbind c (fun x => k))
  (at level 61, c at next level, right associativity) : page_scope.
Notation "c ;;~ k" := (hbind c (fun _ => k))
  (at level 61, right associativity) : page_scope.

(** The state and the world a handler leaves behind. *)
Definition state_after {S A} (h : H S A) (s : S) (w : World) : S :=
  snd (fst (h s w)).

Definition world_after {S A} (h : H S A) (s : S) (w : World) : World :=
  snd (h s w).

Definition completion {S A} (h : H S A) (s : S) (w : World) : result A :=
  fst (fst (h s w)).

(** [a || b] on optional strings: the first that is present and not empty. *)
Definition or_else (a : option string) (b : string) : string :=
  match a with
  | Some s => if String.eqb s "" then b else s
  | None => b
  end.

(** [array.find(pred)] *)
Definition Array_find {A} (pred : A -> bool) (l : list A) : option A :=
  List.find pred l.

End Page.

(** * lib/database.ts: calls of the service that overlap

    An [async] function runs without interruption up to its next [await] and
    is resumed, in a later turn of the event loop, once the awaited promise
    has settled; between two turns any other suspended call may run.  A call
    of the service is therefore a task that advances turn by turn.  The
    order of the turns is the order in which the promises settle, which the
    program does not control: every order is considered.  A request is
    answered by the remote as a function of the requests sent before it, as
    in [Model]; the answer is kept by the task until its turn comes. *)
Module DatabaseAsync.
Import Model Database.
Local Open Scope list_scope.

(** What a call of the service resolves with. *)
Inductive Value :=
| VBool (b : bool)
| VTrips (l : list Trip)
| VTripEntries (l : list TripEntry)
| VPackingItems (l : list PackingItem).

(** Where a call is suspended. *)
Inductive Task :=
| AwaitAuth (op : Op) (answer : option User)
    (* in [checkDatabaseAvailability], at [await blink.auth.me()] *)
| AwaitProbe (op : Op) (answer : option (list Trip))
    (* in [checkDatabaseAvailability], at [await blink.db.trips.list(...)] *)
| AwaitCheck (op : Op) (isAvailable : bool)
    (* a reader at [await this.checkDatabaseAvailability()], the check
       having resolved with [isAvailable] *)
| AwaitQuery (op : Op) (answer : option Value)
    (* a reader at [return await blink.db.<collection>.list(...)] *)
| Resolved (op : Op) (v : Value).

(** The seed data a reader falls back to. *)
Definition seed (op : Op) : Value :=
  match op with
  | OpCheck => VBool false
  | OpGetTrips userId =>
      VTrips (map (fun trip => with_userId userId trip) mockTrips)
  | OpGetTripEntries tripId _ =>
      VTripEntries (filter (fun entry => String.eqb (entry_tripId entry) tripId)
                           mockTripEntries)
  | OpGetPackingItems tripId _ =>
      VPackingItems (filter (fun item => String.eqb (item_tripId item) tripId)
                            mockPackingItems)
  end.

(** The live query of a reader. *)
Definition live_call (op : Op) : option Call :=
  match op with
  | OpCheck => None
  | OpGetTrips userId => Some (TripsList (trips_query userId))
  | OpGetTripEntries tripId userId =>
      Some (TripEntriesList (tripEntries_query tripId userId))
  | OpGetPackingItems tripId userId =>
      Some (PackingItemsList (packingItems_query tripId userId))
  end.

Section Service.
Variable R : Remote.

Definition live_answer (op : Op) (h : list Call) : option Value :=
  match op with
  | OpCheck => None
  | OpGetTrips userId => option_map VTrips (trips_list R h (trips_query userId))
  | OpGetTripEntries tripId userId =>
      option_map VTripEntries
                 (tripEntries_list R h (tripEntries_query tripId userId))
  | OpGetPackingItems tripId userId =>
      option_map VPackingItems
                 (packingItems_list R h (packingItems_query tripId userId))
  end.

(** [checkDatabaseAvailability] has resolved with [b]: a call of the check
    itself is resolved; a reader is still at its [await] of the check. *)
Definition checked (op : Op) (b : bool) : Task :=
  match op with
  | OpCheck => Resolved op (VBool b)
  | _ => AwaitCheck op b
  end.

(** The [catch] block of [checkDatabaseAvailability]. *)
Definition probe_failed (op : Op) (w : World) : Task * World :=
  (checked op false,
   mkWorld (Some false) (requests w)
           (console w ++ [(Log, "Database not available, using mock data:")])
           (ui w)).

(** The call itself: the part that runs before the caller gets the promise.
    The flag is read at once; if it is unset, [blink.auth.me()] is called
    before the first suspension. *)
Definition start (op : Op) (w : World) : Task * World :=
  match isDatabaseAvailable w with
  | Some b => (checked op b, w)
  | None => (AwaitAuth op (auth_me R (requests w)), record_call AuthMe w)
  end.

(** One turn of a suspended call: from the [await] at which it is suspended
    to the next one, or to its end. *)
Definition resume (t : Task) (w : World) : Task * World :=
  match t with
  | AwaitAuth op (Some user) =>
      (AwaitProbe op (trips_list R (requests w) (probe_query (user_id user))),
       record_call (TripsList (probe_query (user_id user))) w)
  | AwaitAuth op None => probe_failed op w
  | AwaitProbe op (Some _) =>
      (checked op true,
       mkWorld (Some true) (requests w) (console w) (ui w))
  | AwaitProbe op None => probe_failed op w
  | AwaitCheck op true =>
      match live_call op with
      | Some c => (AwaitQuery op (live_answer op (requests w)), record_call c w)
      | None => (Resolved op (VBool true), w)
      end
  | AwaitCheck op false => (Resolved op (seed op), w)
  | AwaitQuery op (Some v) => (Resolved op v, w)
  | AwaitQuery op None =>
      (Resolved op (seed op),
       mkWorld (isDatabaseAvailable w) (requests w)
               (console w
                ++ [(Error,
                     "Database query failed, falling back to mock data:")])
               (ui w))
  | Resolved _ _ => (t, w)
  end.

(** The calls in flight and the world. *)
Definition Config : Type := list Task * World.

(** What happens in a turn: a page calls the service, or the promise on
    which the [i]-th call is suspended has settled and the call runs on. *)
Inductive Event :=
| Invoke (op : Op)
| Settle (i : nat).

Fixpoint replace_nth {A} (i : nat) (a : A) (l : list A) : list A :=
  match l, i with
  | [], _ => []
  | _ :: l', O => a :: l'
  | x :: l', S j => x :: replace_nth j a l'
  end.

Definition turn (ev : Event) (cfg : Config) : Config :=
  match ev with
  | Invoke op =>
      let '(t, w') := start op (snd cfg) in (fst cfg ++ [t], w')
  | Settle i =>
      match nth_error (fst cfg) i with
      | Some t =>
          let '(t', w') := resume t (snd cfg) in
          (replace_nth i t' (fst cfg), w')
      | None => cfg
      end
  end.

Definition exec (schedule : list Event) (cfg : Config) : Config :=
  fold_left (fun c ev => turn ev c) schedule cfg.


End Service.

End DatabaseAsync.

(** * lib/database.ts: [initializeDatabase] *)
Module DatabaseInit.
Import Model Database.

Section Client.
Variable R : Remote.

(** [initializeDatabase] *)
Definition initializeDatabase : M bool :=
  try_catch
    (user <- blink_auth_me R ;;
     blink_db_trips_list R (probe_query (user_id user)) ;;;
     console_log "Database is available and working" ;;;
     ret true)
    (fun _ =>
       console_log "Database not available or tables not created:" ;;;
       console_log "Using mock data fallback" ;;;
       ret false).
End Client.

End DatabaseInit.

(** * pages/Dashboard.tsx: the loader *)
Module DashboardPage.
Import Model Database Page.
Local Open Scope page_scope.

Record State := mkState {
  trips : list Trip;
  loading : bool;
  showCreateTrip : bool;
  showTextParser : bool
}.


Definition setLoading (b : bool) (s : State) : State :=
  mkState (trips s) b (showCreateTrip s) (showTextParser s).

Section Client.
Variable R : Remote.

End Client.

End DashboardPage.

(** * The host's [encodeURIComponent].

    A string is the sequence of the bytes of its UTF-8 form, so that the
    escape of a character is the escape of each of its bytes.  (A string with
    a lone surrogate, on which the host throws, has no such form.) *)
Module JsUri.
Open Scope N_scope.

Definition hex_digit (n : N) : ascii :=
  ascii_of_N (if n <? 10 then 48 + n else 55 + n).

(** The characters left as they are: letters, digits and [- _ . ! ~ * ' ( )]. *)
Definition unreserved (c : ascii) : bool :=
  let n := N_of_ascii c in
  ((65 <=? n) && (n <=? 90)) || ((97 <=? n) && (n <=? 122))
  || ((48 <=? n) && (n <=? 57))
  || (n =? 45) || (n =? 95) || (n =? 46) || (n =? 33) || (n =? 126)
  || (n =? 42) || (n =? 39) || (n =? 40) || (n =? 41).

Fixpoint encodeURIComponent (s : string) : string :=
  match s with
  | EmptyString => EmptyString
  | String c s' =>
      if unreserved c then String c (encodeURIComponent s')
      else String "%"
             (String (hex_digit (N_of_ascii c / 16))
                (String (hex_digit (N_of_ascii c mod 16))
                   (encodeURIComponent s')))
  end.

End JsUri.

(** * pages/TripDetails.tsx: the loader and the map links *)
Module TripDetailsPage.
Import Model Database Page JsUri.
Local Open Scope page_scope.

Record State := mkState {
  trip : option Trip;
  entries : list TripEntry;
  loading : bool;
  showCreateEntry : bool
}.

Definition setTrip (t : option Trip) (s : State) : State :=
  mkState t (entries s) (loading s) (showCreateEntry s).

Definition setEntries (l : list TripEntry) (s : State) : State :=
  mkState (trip s) l (loading s) (showCreateEntry s).

Definition setLoading (b : bool) (s : State) : State :=
  mkState (trip s) (entries s) b (showCreateEntry s).

Section Client.
Variable R : Remote.

(** [loadTripDetails], for the route parameter [id]. *)
Definition loadTripDetails (id : string) : H State unit :=
  htry
    (set (setLoading true) ;;~
     user <~ call (blink_auth_me R) ;;
     allTrips <~ call (getTrips R (user_id user)) ;;
     match Array_find (fun t => String.eqb (trip_id t) id) allTrips with
     | Some foundTrip =>
         set (setTrip (Some foundTrip)) ;;~
         tripEntries <~ call (getTripEntries R id (user_id user)) ;;
         set (setEntries tripEntries)
     | None =>
         set (setTrip None) ;;~
         set (setEntries [])
     end)
    (fun _ =>
       call (console_error "Failed to load trip details:") ;;~
       set (setTrip None) ;;~
       set (setEntries []))
    (setLoading false).
End Client.

(** [getGoogleMapsUrl] *)
Definition getGoogleMapsUrl (address location : option string) : string :=
  let query := encodeURIComponent (or_else address (or_else location "")) in
  "https://www.google.com/maps/search/?api=1&query=" ++ query.

(** [getDirectionsUrl] *)
Definition getDirectionsUrl (fromAddress toAddress : string) : string :=
  let origin := encodeURIComponent fromAddress in
  let destination := encodeURIComponent toAddress in
  "https://www.google.com/maps/dir/?api=1&origin=" ++ origin
  ++ "&destination=" ++ destination.

Section Host.
Variable localeCompare : string -> string -> Z.

(** The compare function of the list view: by date, then by start time. *)
Definition by_date_then_startTime (a b : TripEntry) : Z :=
  let dateCompare := localeCompare (entry_date a) (entry_date b) in
  if negb (dateCompare =? 0)%Z then dateCompare
  else localeCompare (or_empty (entry_startTime a))
                     (or_empty (entry_startTime b)).

(** The cards of the list view: [entries.sort(...)]. *)
Definition list_view (entries : list TripEntry) : list TripEntry :=
  JsArray.sort by_date_then_startTime entries.
End Host.

End TripDetailsPage.

(** * pages/PackingList.tsx: the loader and the item handlers *)
Module PackingListPage.
Import Model Database Page PackingList.
Local Open Scope page_scope.

Record State := mkState {
  trip : option Trip;
  items : list PackingItem;
  loading : bool;
  newItemName : string;
  selectedCategory : string;
  showAISuggestions : bool;
  aiLoading : bool
}.

Definition initial_state : State :=
  mkState None [] true "" "general" false false.

Definition setTrip (t : option Trip) (s : State) : State :=
  mkState t (items s) (loading s) (newItemName s) (selectedCategory s)
          (showAISuggestions s) (aiLoading s).

(** [setItems(prev => f(prev))] *)
Definition setItems (f : list PackingItem -> list PackingItem) (s : State)
  : State :=
  mkState (trip s) (f (items s)) (loading s) (newItemName s)
          (selectedCategory s) (showAISuggestions s) (aiLoading s).

Definition setLoading (b : bool) (s : State) : State :=
  mkState (trip s) (items s) b (newItemName s) (selectedCategory s)
          (showAISuggestions s) (aiLoading s).

Definition setNewItemName (n : string) (s : State) : State :=
  mkState (trip s) (items s) (loading s) n (selectedCategory s)
          (showAISuggestions s) (aiLoading s).

(** The [id]s of [categories], in order. *)
Definition categories : list string :=
  ["clothing"; "electronics"; "toiletries"; "travel"; "general"].

(** [Number(b)] on a boolean. *)
Definition Number_of_bool (b : bool) : Z := if b then 1%Z else 0%Z.

(** The conversion of a stored item to the page's item in
    [loadPackingList]. *)
Definition format_item (item : Model.PackingItem) : PackingItem :=
  mkPackingItem (item_id item) (item_itemName item)
                (or_else (item_category item) "general")
                (0 <? Number_of_bool (item_isPacked item))%Z
                1%Z
                (item_notes item).

Section Client.
Variable R : Remote.

(** [loadPackingList], for the route parameter [tripId]. *)
Definition loadPackingList (tripId : string) : H State unit :=
  htry
    (set (setLoading true) ;;~
     user <~ call (blink_auth_me R) ;;
     allTrips <~ call (getTrips R (user_id user)) ;;
     match Array_find (fun t => String.eqb (trip_id t) tripId) allTrips with
     | Some foundTrip =>
         set (setTrip (Some foundTrip)) ;;~
         packingItems <~ call (getPackingItems R tripId (user_id user)) ;;
         set (setItems (fun _ => map format_item packingItems))
     | None =>
         set (setTrip None) ;;~
         set (setItems (fun _ => []))
     end)
    (fun _ =>
       call (console_error "Failed to load packing list:") ;;~
       set (setTrip None) ;;~
       set (setItems (fun _ => [])))
    (setLoading false).
End Client.

Section Host.
(** [String.prototype.trim] and [String.prototype.toLowerCase] of the
    host. *)
Variable trim : string -> string.
Variable toLowerCase : string -> string.

(** [addItem]; [now] is what [Date.now()] reads. *)
Definition addItem (now : Z) : H State unit :=
  fun s w =>
    if String.eqb (trim (newItemName s)) "" then (Ok tt, s, w)
    else
      let newItem :=
        mkPackingItem (JsDate.Number_toString now) (trim (newItemName s))
                      (selectedCategory s) false 1%Z None in
      (set (setItems (fun prev => (prev ++ [newItem])%list)) ;;~
       set (setNewItemName "") ;;~
       call (emit (Toast "Item added"
                         (itemName newItem
                          ++ " has been added to your packing list.")
                         VDefault))) s w.

(** The items [generateAISuggestions] derives from the suggestions of the
    generated object; [priority] and [isAISuggestion] are properties the
    page's interface does not declare. *)
Record Suggestion := mkSuggestion {
  s_itemName : string;
  s_category : string;
  s_quantity : Z;
  s_notes : option string;
  s_priority : string
}.

Record SuggestedItem := mkSuggestedItem {
  base : PackingItem;
  priority : string;
  isAISuggestion : bool
}.

(** [`ai-${Date.now()}-${Math.random()}`], from the clock and the printed
    random number read for the [k]-th kept suggestion. *)
Definition ai_id (now : nat -> Z) (random : nat -> string) (k : nat)
  : string :=
  "ai-" ++ JsDate.Number_toString (now k) ++ "-" ++ random k.

Fixpoint map_indexed {A B} (f : nat -> A -> B) (k : nat) (l : list A)
  : list B :=
  match l with
  | [] => []
  | a :: l' => f k a :: map_indexed f (S k) l'
  end.

(** [newSuggestions]: the suggestions whose lower-cased name is not the
    lower-cased name of an item of the page, as items. *)
Definition newSuggestions (now : nat -> Z) (random : nat -> string)
           (items : list PackingItem) (suggestions : list Suggestion)
  : list SuggestedItem :=
  let existingItemNames := map (fun item => toLowerCase (itemName item)) items in
  map_indexed
    (fun k suggestion =>
       mkSuggestedItem
         (mkPackingItem (ai_id now random k) (s_itemName suggestion)
                        (s_category suggestion) false (s_quantity suggestion)
                        (s_notes suggestion))
         (s_priority suggestion) true)
    0%nat
    (filter (fun suggestion =>
               negb (existsb (String.eqb (toLowerCase (s_itemName suggestion)))
                             existingItemNames))
            suggestions).
End Host.

(** [togglePacked] *)
Definition togglePacked (itemId : string) : H State unit :=
  set (setItems (fun prev =>
         map (fun item =>
                if String.eqb (id item) itemId
                then mkPackingItem (id item) (itemName item) (category item)
                                   (negb (isPacked item)) (quantity item)
                                   (notes item)
                else item) prev)).

(** [removeItem] *)
Definition removeItem (itemId : string) : H State unit :=
  set (setItems (fun prev =>
         filter (fun item => negb (String.eqb (id item) itemId)) prev)) ;;~
  call (emit (Toast "Item removed"
                    "Item has been removed from your packing list."
                    VDefault)).

(** [getItemsByCategory] *)
Definition getItemsByCategory (items : list PackingItem) (categoryId : string)
  : list PackingItem :=
  filter (fun item => String.eqb (category item) categoryId) items.

(** The category tabs: one per category that has items, in the order of
    [categories]. *)
Definition category_tabs (items : list PackingItem)
  : list (string * list PackingItem) :=
  flat_map (fun categoryId =>
              let categoryItems := getItemsByCategory items categoryId in
              if (0 <? List.length categoryItems)%nat
              then [(categoryId, categoryItems)] else [])
           categories.

End PackingListPage.

(** * components/trips/TextParserDialog.tsx *)
Module TextParserDialog.
Import Model Page Form.
Local Open Scope page_scope.

Record ParsedEntry := mkParsedEntry {
  pe_title : string;
  pe_date : string;
  pe_time : option string;
  pe_location : option string;
  pe_description : option string;
  pe_category : string
}.

Record ParsedTrip := mkParsedTrip {
  pt_title : string;
  pt_destination : string;
  pt_startDate : string;
  pt_endDate : string;
  pt_entries : list ParsedEntry
}.

Record State := mkState {
  text : string;
  loading : bool;
  parsedTrip : option ParsedTrip
}.

Definition setText (t : string) (s : State) : State :=
  mkState t (loading s) (parsedTrip s).

Definition setLoading (b : bool) (s : State) : State :=
  mkState (text s) b (parsedTrip s).

Definition setParsedTrip (p : option ParsedTrip) (s : State) : State :=
  mkState (text s) (loading s) p.

(** The double-quote character of a template literal. *)
Definition double_quote : string := String (ascii_of_nat 34) EmptyString.

Section Dialog.
Variable R : Remote.
Variable trim : string -> string.
(** [blink.ai.generateObject], as a function of the text that the prompt
    embeds: the generated object, or [None] for a rejected promise. *)
Variable ai_generateObject : string -> option ParsedTrip.
Variable onTripCreated : option (result unit).

(** [handleParse] *)
Definition handleParse : H State unit :=
  fun s w =>
    if String.eqb (trim (text s)) "" then
      call (emit (Toast "Error"
                        "Please enter some travel information to parse."
                        VDestructive)) s w
    else
      htry
        (set (setLoading true) ;;~
         object <~ call (lift (match ai_generateObject (text s) with
                               | Some o => Ok o
                               | None => Throw RemoteError
                               end)) ;;
         set (setParsedTrip (Some object)))
        (fun _ =>
           call (console_error "Failed to parse text:") ;;~
           call (emit (Toast "Error"
                             "Failed to parse travel information. Please try again."
                             VDestructive)))
        (setLoading false) s w.

(** [handleCreateTrip] *)
Definition handleCreateTrip : H State unit :=
  fun s w =>
    match parsedTrip s with
    | None => (Ok tt, s, w)
    | Some parsed =>
        htry
          (set (setLoading true) ;;~
           user <~ call (blink_auth_me R) ;;
           call (console_log "Creating parsed trip:") ;;~
           call (emit (Toast "Trip created successfully!"
                             ("Your trip " ++ double_quote ++ pt_title parsed
                              ++ double_quote ++ " has been created with "
                              ++ JsDate.Number_toString
                                   (Z.of_nat (List.length (pt_entries parsed)))
                              ++ " entries.")
                             VDefault)) ;;~
           set (setText "") ;;~
           set (setParsedTrip None) ;;~
           call (emit (OnOpenChange false)) ;;~
           call (call_optional onTripCreated))
          (fun _ =>
             call (console_error "Failed to create trip:") ;;~
             call (emit (Toast "Error"
                               "Failed to create trip. Please try again."
                               VDestructive)))
          (setLoading false) s w
    end.
End Dialog.

End TextParserDialog.

(** * The notions of the specification and the sample inputs of the
      properties below *)
Module DatabaseNotions.
Import Model Database.

(** A remote that rejects every request, and a world in which the probe has
    already failed; used to exhibit concrete runs. *)
Definition remote_down : Remote :=
  mkRemote (fun _ => None) (fun _ _ => None) (fun _ _ => None)
           (fun _ _ => None) (fun _ _ => false) (fun _ _ => false).

Definition unavailable_world : World := mkWorld (Some false) [] [] [].

(** A remote that answers every request, with no stored record. *)
Definition remote_up : Remote :=
  mkRemote (fun _ => Some (mkUser "alice")) (fun _ _ => Some [])
           (fun _ _ => Some []) (fun _ _ => Some [])
           (fun _ _ => true) (fun _ _ => true).

(** A remote whose probe succeeds and whose later queries all fail. *)
Definition remote_flaky : Remote :=
  mkRemote (fun _ => Some (mkUser "alice"))
           (fun h _ => match h with [AuthMe] => Some [] | _ => None end)
           (fun _ _ => None) (fun _ _ => None)
           (fun _ _ => false) (fun _ _ => false).

(** The world reached from the initial one by the first availability check,
    against a remote whose probe succeeds. *)
Definition probed_world : World :=
  after (checkDatabaseAvailability remote_flaky) initial_world.

End DatabaseNotions.

Module PackingNotions.
Import PackingList.
Open Scope Z_scope.

(** The specification's [round(100 * packed / total)], on exact rationals:
    the nearest integer, a tie going up as [Math.round] does. *)
Definition round_percent (packed total : nat) : Z :=
  (200 * Z.of_nat packed + Z.of_nat total) / (2 * Z.of_nat total).

(** [100 * packed / total] lies exactly halfway between two integers. *)
Definition is_tie (packed total : nat) : bool :=
  (200 * Z.of_nat packed) mod (2 * Z.of_nat total) =? Z.of_nat total.

Definition packed_count (items : list PackingItem) : nat :=
  List.length (filter (fun item => isPacked item) items).

(** What [getPackingProgress] computes from the two lengths. *)
Definition progress_of (packed total : nat) : Z :=
  Math_round (PrimFloat.mul
                (PrimFloat.div (Number_of_length packed)
                               (Number_of_length total))
                (Number_of_length 100)).

(** [k] packed items followed by [n - k] unpacked ones. *)
Definition sample (k n : nat) : list PackingItem :=
  (repeat (mkPackingItem "p" "Passport" "general" true 1 None) k
   ++ repeat (mkPackingItem "c" "Camera" "general" false 1 None) (n - k))%list.

(** Agreement of the code with the exact rounding for [packed] of [total]:
    equal away from ties, equal or one less at a tie. *)
Definition agrees (packed total : nat) : bool :=
  if is_tie packed total
  then (progress_of packed total =? round_percent packed total)
       || (progress_of packed total =? round_percent packed total - 1)
  else progress_of packed total =? round_percent packed total.

Definition agrees_exactly (packed total : nat) : bool :=
  progress_of packed total =? round_percent packed total.

Definition all_pairs (f : nat -> nat -> bool) (bound : nat) : bool :=
  forallb (fun n => forallb (fun p => f p n) (seq 0 (S n))) (seq 1 bound).

End PackingNotions.

Module GroupingNotions.
Import Model JsDate JsObject TripDetails.
Local Open Scope list_scope.

(** The distinct elements of a list, in the order of their first
    occurrence. *)
Fixpoint first_occurrences (l : list string) : list string :=
  match l with
  | [] => []
  | d :: l' =>
      d :: filter (fun x => negb (String.eqb x d)) (first_occurrences l')
  end.

(** The entries of one date, in input order. *)
Definition on_date (d : string) (entries : list TripEntry) : list TripEntry :=
  filter (fun e => String.eqb (entry_date e) d) entries.

(** The grouping the specification describes: one group per distinct date, in
    order of first occurrence, holding the entries of that date in input
    order. *)
Definition grouped (entries : list TripEntry) : obj (list TripEntry) :=
  map (fun d => (d, on_date d entries))
      (first_occurrences (map entry_date entries)).

(** A key that is neither an array index nor a name found on
    [Object.prototype]. *)
Definition plain_key (k : string) : bool :=
  negb (inherited k)
  && match array_index k with Some _ => false | None => true end.

Definition entry_on (id date : string) : TripEntry :=
  mkTripEntry id "1" "alice" "Museum" None None None date None None
              "activity" "2024-01-15T10:00:00Z" None.

(** The object whose keys are [ks], in that order, each with the value [f]
    gives it. *)
Definition tabulate {A} (f : string -> A) (ks : list string) : obj A :=
  map (fun k => (k, f k)) ks.

End GroupingNotions.

Module TimelineNotions.
Import Model JsDate JsArray JsObject.
Local Open Scope list_scope.

Definition is_digit (c : ascii) : bool :=
  match digit_of c with Some _ => true | None => false end.

(** A start time as the forms and the seed data have it: empty, or [HH:MM]. *)
Definition time_of_day (s : string) : bool :=
  match s with
  | EmptyString => true
  | String h1 (String h2 (String c (String m1 (String m2 EmptyString)))) =>
      is_digit h1 && is_digit h2 && Ascii.eqb c ":"
      && is_digit m1 && is_digit m2
  | _ => false
  end.

(** A collation that orders code units: a sample of a host. *)
Definition code_unit_collation (a b : string) : Z := sign (String.compare a b).

(** Three entries of one day, out of order, one of them without a time. *)
Definition card (id : string) (time : option string) : TripEntry :=
  mkTripEntry id "1" "alice" id None None None "2024-03-16" time None
              "activity" "2024-01-15T10:00:00Z" None.



(** A collation in which punctuation precedes the digits and the digits
    precede the letters, as in the default order of the Unicode collation
    algorithm, by which hosts implement [localeCompare]: the weight of a
    character, and the comparison of two strings weight by weight. *)
Definition collation_weight (c : ascii) : N :=
  let n := N_of_ascii c in
  if is_digit c then (256 + n)%N
  else if ((65 <=? n) && (n <=? 90) || (97 <=? n) && (n <=? 122))%N
       then (512 + n)%N
       else n.

Fixpoint collate (a b : string) : comparison :=
  match a, b with
  | EmptyString, EmptyString => Eq
  | EmptyString, String _ _ => Lt
  | String _ _, EmptyString => Gt
  | String c a', String d b' =>
      match N.compare (collation_weight c) (collation_weight d) with
      | Eq => collate a' b'
      | ne => ne
      end
  end.

Definition punctuation_first_collation (a b : string) : Z :=
  sign (collate a b).


End TimelineNotions.

Module DialogNotions.
Import Model JsDate Form.
Local Open Scope list_scope.
Local Open Scope Z_scope.

(** A remote on which the user is signed in and every write is rejected. *)
Definition remote_readonly : Remote :=
  mkRemote (fun _ => Some (mkUser "alice")) (fun _ _ => Some [])
           (fun _ _ => Some []) (fun _ _ => Some [])
           (fun _ _ => false) (fun _ _ => false).

Definition sample_entropy : Entropy :=
  mkEntropy 1718000000000 "0.4fzyo82mvyr" 1718000000001 1718000000002.

(** A form whose end date, 2024-06-05, precedes its start date,
    2024-06-10. *)
Definition backwards_trip : CreateTripDialog.TripFormValues :=
  CreateTripDialog.mkTripFormValues
    "Rome" (Some "") "Rome, Italy"
    (Some (parse_iso_date "2024-06-10")) (Some (parse_iso_date "2024-06-05")).

Definition rome_trip : CreateTripDialog.TripFormValues :=
  CreateTripDialog.mkTripFormValues
    "Rome" (Some "") "Rome, Italy"
    (Some (parse_iso_date "2024-06-10")) (Some (parse_iso_date "2024-06-15")).

Definition colosseum : CreateEntryDialog.EntryFormValues :=
  CreateEntryDialog.mkEntryFormValues
    "Colosseum" (Some "") (Some "") (Some "")
    (Some (parse_iso_date "2024-06-11")) (Some "09:30") (Some "") "activity".

Definition rome_data : CreateTripDialog.TripFormData :=
  CreateTripDialog.mkTripFormData
    "Rome" (Some "") "Rome, Italy"
    (parse_iso_date "2024-06-10") (parse_iso_date "2024-06-15").

Definition colosseum_data : CreateEntryDialog.EntryFormData :=
  CreateEntryDialog.mkEntryFormData
    "Colosseum" (Some "") (Some "") (Some "")
    (parse_iso_date "2024-06-11") (Some "09:30") (Some "") "activity".

End DialogNotions.

(** * Notions and sample inputs for the properties of the handlers *)
Module ServiceNotions.
Import Model Database.
Local Open Scope list_scope.

(** The requests by which the service probes the remote: [auth.me()] and the
    bounded list query. *)
Definition is_auth (c : Call) : bool :=
  match c with AuthMe => true | _ => false end.

Definition is_probe_query (c : Call) : bool :=
  match c with
  | TripsList q => match q_limit q with Some _ => true | None => false end
  | _ => false
  end.

Definition count (p : Call -> bool) (l : list Call) : nat :=
  List.length (filter p l).

(** The user for whom the probe succeeds, when it does: [auth.me()] resolves
    and then the bounded list query resolves. *)
Definition probe_succeeds (R : Remote) (h : list Call) : option User :=
  match auth_me R h with
  | Some user =>
      match trips_list R (h ++ [AuthMe]) (probe_query (user_id user)) with
      | Some _ => Some user
      | None => None
      end
  | None => None
  end.


End ServiceNotions.

Module AsyncNotions.
Import Model Database DatabaseAsync ServiceNotions.
Local Open Scope list_scope.

(** A call that is still inside [checkDatabaseAvailability], past the test
    of the flag: it will assign the flag when its probe settles. *)
Definition probing (t : Task) : bool :=
  match t with
  | AwaitAuth _ _ | AwaitProbe _ _ => true
  | _ => false
  end.

Definition awaiting_auth (t : Task) : bool :=
  match t with AwaitAuth _ _ => true | _ => false end.

Definition resolved (t : Task) : bool :=
  match t with Resolved _ _ => true | _ => false end.




(** A remote on which the first [auth.me()] is rejected and every later
    request is answered. *)
Definition remote_hiccup : Remote :=
  mkRemote (fun h => match h with [] => None | _ => Some (mkUser "alice") end)
           (fun _ _ => Some []) (fun _ _ => Some []) (fun _ _ => Some [])
           (fun _ _ => true) (fun _ _ => true).

(** Two calls made in the same turn; the first one's [auth.me()] is rejected
    and then the second one's probe succeeds. *)
Definition overlap : list Event :=
  [Invoke (OpGetTrips "alice"); Invoke (OpGetTripEntries "1" "alice");
   Settle 0; Settle 1; Settle 1].

End AsyncNotions.

Module UriNotions.
Import JsUri.
Open Scope N_scope.

(** The value of a hexadecimal digit. *)
Definition hex_value (c : ascii) : option N :=
  let n := N_of_ascii c in
  if (48 <=? n) && (n <=? 57) then Some (n - 48)
  else if (65 <=? n) && (n <=? 70) then Some (n - 55)
  else if (97 <=? n) && (n <=? 102) then Some (n - 87)
  else None.

(** Reading the escapes back: [%XY] is the byte with the hexadecimal form
    [XY]; every other character stands for itself. *)
Fixpoint percent_decode (s : string) : string :=
  match s with
  | EmptyString => EmptyString
  | String c s' =>
      if Ascii.eqb c "%" then
        match s' with
        | String h (String l rest) =>
            match hex_value h, hex_value l with
            | Some a, Some b =>
                String (ascii_of_N (16 * a + b)) (percent_decode rest)
            | _, _ => String c (percent_decode s')
            end
        | _ => String c (percent_decode s')
        end
      else String c (percent_decode s')
  end.

(** The characters of an escaped string: the unreserved ones and [%]. *)
Definition url_safe (c : ascii) : bool := unreserved c || Ascii.eqb c "%".

Fixpoint all_chars (p : ascii -> bool) (s : string) : bool :=
  match s with
  | EmptyString => true
  | String c s' => p c && all_chars p s'
  end.

End UriNotions.

Module SubmitNotions.
Import Model.

(** A remote on which nobody is signed in; everything else would succeed. *)
Definition remote_signed_out : Remote :=
  mkRemote (fun _ => None) (fun _ _ => Some []) (fun _ _ => Some [])
           (fun _ _ => Some []) (fun _ _ => true) (fun _ _ => true).

Definition is_write (c : Call) : bool :=
  match c with
  | TripsCreate _ | TripEntriesCreate _ => true
  | _ => false
  end.

End SubmitNotions.

Module ParserNotions.
Import Model TextParserDialog.

(** A trip as the parser returns it, with two entries. *)
Definition parsed_lisbon : ParsedTrip :=
  mkParsedTrip "Lisbon Weekend" "Lisbon, Portugal" "2024-09-13" "2024-09-15"
    [ mkParsedEntry "Flight to Lisbon" "2024-09-13" (Some "08:15") None None
                    "transportation";
      mkParsedEntry "Dinner in Alfama" "2024-09-13" (Some "20:00")
                    (Some "Alfama") None "dining" ].

Definition reviewed : State :=
  mkState "Flight to Lisbon on Sept 13" false (Some parsed_lisbon).

End ParserNotions.

Module ViewNotions.
Import Model.

(** Ascending by date and, within a date, by start time, both in code-unit
    order; a missing start time counts as the empty string. *)
Definition date_time_le (a b : TripEntry) : Prop :=
  match String.compare (entry_date a) (entry_date b) with
  | Lt => True
  | Eq => String.leb (or_empty (entry_startTime a))
                     (or_empty (entry_startTime b)) = true
  | Gt => False
  end.

(** The entries of one date and one start time. *)
Definition same_slot (d t : string) (e : TripEntry) : bool :=
  String.eqb (entry_date e) d && String.eqb (or_empty (entry_startTime e)) t.

Definition same_time (t : string) (e : TripEntry) : bool :=
  String.eqb (or_empty (entry_startTime e)) t.

End ViewNotions.

Module DateNotions.
Import JsDate.
Open Scope Z_scope.

(** The instants whose year (UTC) is written with four digits: from
    0000-01-01T00:00:00.000Z to 9999-12-31T23:59:59.999Z. *)
Definition four_digit_year (t : Z) : Prop :=
  -62167219200000 <= t < 253402300800000.

(** The midnight (UTC) that starts the day of an instant. *)
Definition start_of_day (t : Z) : Z := t / msPerDay * msPerDay.

End DateNotions.

(** * Properties of the data-access fallback layer *)
Module DatabaseSpec.
Import Model Database.
Import DatabaseNotions.
Local Open Scope list_scope.

Section Facts.
Variable R : Remote.

Lemma check_cached (w : World) (b : bool) :
  isDatabaseAvailable w = Some b ->
  checkDatabaseAvailability R w = (Ok b, w).
Proof.
  intros H. unfold checkDatabaseAvailability, bind, get_flag.
  rewrite H. reflexivity.
Qed.

(** The probe always resolves, and leaves the flag set to its answer. *)
Lemma check_resolves (w : World) :
  exists b w', checkDatabaseAvailability R w = (Ok b, w')
               /\ isDatabaseAvailable w' = Some b.
Proof.
  destruct (isDatabaseAvailable w) as [b|] eqn:H.
  - exists b, w. split; [now apply check_cached | exact H].
  - unfold checkDatabaseAvailability, bind, get_flag, try_catch,
      blink_auth_me, blink_db_trips_list, await, set_flag, console_log, ret.
    rewrite H.
    destruct (auth_me R (requests w)) as [u|]; cbn.
    + destruct (trips_list R (requests w ++ [AuthMe])
                  (probe_query (user_id u))); cbn; eauto.
    + eauto.
Qed.

Lemma getTrips_unavailable (w : World) (userId : string) :
  isDatabaseAvailable w = Some false ->
  getTrips R userId w = (Ok (fallback_trips userId), w).
Proof.
  intros H. unfold getTrips, bind. rewrite (check_cached w false H).
  reflexivity.
Qed.

Lemma getTripEntries_unavailable (w : World) (tripId userId : string) :
  isDatabaseAvailable w = Some false ->
  getTripEntries R tripId userId w = (Ok (fallback_tripEntries tripId), w).
Proof.
  intros H. unfold getTripEntries, bind. rewrite (check_cached w false H).
  reflexivity.
Qed.

Lemma getPackingItems_unavailable (w : World) (tripId userId : string) :
  isDatabaseAvailable w = Some false ->
  getPackingItems R tripId userId w
  = (Ok (fallback_packingItems tripId), w).
Proof.
  intros H. unfold getPackingItems, bind. rewrite (check_cached w false H).
  reflexivity.
Qed.

(** The guarded live query resolves, keeps the flag, and answers [Some l]
    exactly when the query resolved with [l]. *)
Lemma live_await {A} (c : Call) (answer : list Call -> option A)
      (b : bool) (w : World) :
  exists w', live b (await c answer) w
             = (Ok (if b then answer (requests w) else None), w')
             /\ isDatabaseAvailable w' = isDatabaseAvailable w
             /\ requests w' = if b then requests w ++ [c] else requests w.
Proof.
  unfold live, try_catch, bind, await, console_error, ret.
  destruct b; [|eauto].
  destruct (answer (requests w)); cbn; eauto.
Qed.

Lemma fallback_trips_userId (userId : string) :
  Forall (fun t => trip_userId t = userId) (fallback_trips userId).
Proof.
  unfold fallback_trips. apply Forall_forall. intros t Ht.
  apply in_map_iff in Ht. destruct Ht as [t0 [<- _]]. reflexivity.
Qed.

(** Each reader resolves and keeps a flag that is already set. *)
Lemma step_keeps_flag (op : Op) (w : World) (b : bool) :
  isDatabaseAvailable w = Some b ->
  isDatabaseAvailable (step R op w) = Some b.
Proof.
  intros H. destruct op; unfold step, after.
  - rewrite (check_cached w b H). exact H.
  - unfold getTrips, bind. rewrite (check_cached w b H).
    unfold blink_db_trips_list.
    destruct (live_await (TripsList (trips_query userId))
                (fun h => trips_list R h (trips_query userId)) b w)
      as [w' [-> [Hw' _]]].
    destruct (if b then _ else _); cbn; congruence.
  - unfold getTripEntries, bind. rewrite (check_cached w b H).
    unfold blink_db_tripEntries_list.
    destruct (live_await (TripEntriesList (tripEntries_query tripId userId))
                (fun h => tripEntries_list R h
                            (tripEntries_query tripId userId)) b w)
      as [w' [-> [Hw' _]]].
    destruct (if b then _ else _); cbn; congruence.
  - unfold getPackingItems, bind. rewrite (check_cached w b H).
    unfold blink_db_packingItems_list.
    destruct (live_await
                (PackingItemsList (packingItems_query tripId userId))
                (fun h => packingItems_list R h
                            (packingItems_query tripId userId)) b w)
      as [w' [-> [Hw' _]]].
    destruct (if b then _ else _); cbn; congruence.
Qed.

Lemma run_keeps_flag (ops : list Op) (w : World) (b : bool) :
  isDatabaseAvailable w = Some b ->
  isDatabaseAvailable (run R ops w) = Some b.
Proof.
  revert w. induction ops as [|op ops IH]; intros w H; cbn.
  - exact H.
  - apply IH. now apply step_keeps_flag.
Qed.
End Facts.

Lemma mockTripEntries_owner :
  Forall (fun e => entry_userId e = "mock-user") mockTripEntries.
Proof. repeat constructor. Qed.

Lemma mockPackingItems_owner :
  Forall (fun i => item_userId i = "mock-user") mockPackingItems.
Proof. repeat constructor. Qed.

Lemma Forall_filter {A} (P : A -> Prop) (f : A -> bool) (l : list A) :
  Forall P l -> Forall P (filter f l).
Proof.
  rewrite !Forall_forall. intros H x Hx. apply filter_In in Hx. now apply H.
Qed.

(** C1, as the code has it: while the database is marked unavailable,
    [getTrips(userId)] returns the seed trips with [userId] overwritten by the
    argument, whereas [getTripEntries] and [getPackingItems] return the seed
    records of the trip unmodified, so that their [userId] remains the seed's
    ["mock-user"]. *)
Theorem C1_fallback_owner (R : Remote) (w : World) (tripId userId : string) :
  isDatabaseAvailable w = Some false ->
  (exists trips,
      getTrips R userId w = (Ok trips, w)
      /\ Forall (fun t => trip_userId t = userId) trips)
  /\ (exists entries,
         getTripEntries R tripId userId w = (Ok entries, w)
         /\ entries = filter (fun e => String.eqb (entry_tripId e) tripId)
                             mockTripEntries
         /\ Forall (fun e => entry_userId e = "mock-user") entries)
  /\ (exists items,
         getPackingItems R tripId userId w = (Ok items, w)
         /\ items = filter (fun i => String.eqb (item_tripId i) tripId)
                           mockPackingItems
         /\ Forall (fun i => item_userId i = "mock-user") items).
Proof.
  intros H. repeat split.
  - exists (fallback_trips userId). split.
    + now apply getTrips_unavailable.
    + apply fallback_trips_userId.
  - exists (fallback_tripEntries tripId). repeat split.
    + now apply getTripEntries_unavailable.
    + apply Forall_filter, mockTripEntries_owner.
  - exists (fallback_packingItems tripId). repeat split.
    + now apply getPackingItems_unavailable.
    + apply Forall_filter, mockPackingItems_owner.
Qed.

Lemma C1_fallback_owner_witness :
  isDatabaseAvailable unavailable_world = Some false
  /\ (exists trips,
         getTrips remote_down "alice" unavailable_world
         = (Ok trips, unavailable_world)
         /\ Forall (fun t => trip_userId t = "alice") trips)
  /\ (exists entries,
         getTripEntries remote_down "1" "alice" unavailable_world
         = (Ok entries, unavailable_world)
         /\ entries = filter (fun e => String.eqb (entry_tripId e) "1")
                             mockTripEntries
         /\ Forall (fun e => entry_userId e = "mock-user") entries)
  /\ (exists items,
         getPackingItems remote_down "1" "alice" unavailable_world
         = (Ok items, unavailable_world)
         /\ items = filter (fun i => String.eqb (item_tripId i) "1")
                           mockPackingItems
         /\ Forall (fun i => item_userId i = "mock-user") items).
Proof.
  split; [reflexivity|].
  apply (C1_fallback_owner remote_down unavailable_world "1" "alice").
  reflexivity.
Defined.

(** C1 fails as stated: with the database marked unavailable,
    [getTripEntries("1", "alice")] and [getPackingItems("1", "alice")] return
    records whose [userId] is ["mock-user"], not ["alice"]. *)
Lemma C1_counterexample :
  exists entries e items i,
    getTripEntries remote_down "1" "alice" unavailable_world
    = (Ok entries, unavailable_world)
    /\ In e entries /\ entry_userId e = "mock-user"
    /\ entry_userId e <> "alice"
    /\ getPackingItems remote_down "1" "alice" unavailable_world
       = (Ok items, unavailable_world)
    /\ In i items /\ item_userId i = "mock-user"
    /\ item_userId i <> "alice".
Proof.
  eexists. exists (hd (mkTripEntry "" "" "" "" None None None "" None None
                                   "" "" None) mockTripEntries).
  eexists. exists (hd (mkPackingItem "" "" "" "" None false None "")
                      mockPackingItems).
  cbn. repeat split; try (left; reflexivity); discriminate.
Qed.

(** C2: once the availability flag is set it never changes.  After any
    sequence of calls the flag has the same value; the availability check
    returns it without issuing a request; with the flag false every reader
    returns the fallback data, again without a request; with the flag true a
    reader sends its own query and nothing else, returns the static data for
    that call when the query rejects and the live list when it resolves, and
    leaves the flag true. *)
Theorem C2_flag_is_sticky (R : Remote) (w : World) (b : bool) :
  isDatabaseAvailable w = Some b ->
  forall ops : list Op,
    let w' := run R ops w in
    isDatabaseAvailable w' = Some b
    /\ checkDatabaseAvailability R w' = (Ok b, w')
    /\ (b = false ->
        forall tripId userId,
          getTrips R userId w' = (Ok (fallback_trips userId), w')
          /\ getTripEntries R tripId userId w'
             = (Ok (fallback_tripEntries tripId), w')
          /\ getPackingItems R tripId userId w'
             = (Ok (fallback_packingItems tripId), w'))
    /\ (b = true ->
        forall tripId userId,
          (exists w'',
              getTrips R userId w'
              = (Ok match trips_list R (requests w') (trips_query userId) with
                    | Some l => l
                    | None => fallback_trips userId
                    end, w'')
              /\ isDatabaseAvailable w'' = Some true
              /\ requests w''
                 = requests w' ++ [TripsList (trips_query userId)])
          /\ (exists w'',
                 getTripEntries R tripId userId w'
                 = (Ok match tripEntries_list R (requests w')
                               (tripEntries_query tripId userId) with
                       | Some l => l
                       | None => fallback_tripEntries tripId
                       end, w'')
                 /\ isDatabaseAvailable w'' = Some true
                 /\ requests w''
                    = requests w'
                      ++ [TripEntriesList (tripEntries_query tripId userId)])
          /\ (exists w'',
                 getPackingItems R tripId userId w'
                 = (Ok match packingItems_list R (requests w')
                               (packingItems_query tripId userId) with
                       | Some l => l
                       | None => fallback_packingItems tripId
                       end, w'')
                 /\ isDatabaseAvailable w'' = Some true
                 /\ requests w''
                    = requests w'
                      ++ [PackingItemsList
                            (packingItems_query tripId userId)])).
Proof.
  intros H ops w'.
  assert (Hw' : isDatabaseAvailable w' = Some b) by now apply run_keeps_flag.
  split; [exact Hw'|]. split; [now apply check_cached|]. split.
  - intros ->. intros tripId userId.
    rewrite getTrips_unavailable, getTripEntries_unavailable,
      getPackingItems_unavailable by exact Hw'.
    auto.
  - intros ->. intros tripId userId. repeat split.
    + unfold getTrips, bind. rewrite (check_cached R w' true Hw').
      unfold blink_db_trips_list.
      destruct (live_await (TripsList (trips_query userId))
                  (fun h => trips_list R h (trips_query userId)) true w')
        as [w'' [-> [Hw'' Hreq]]].
      exists w''. destruct (trips_list R (requests w') (trips_query userId));
        (split; [reflexivity | split; [congruence | exact Hreq]]).
    + unfold getTripEntries, bind. rewrite (check_cached R w' true Hw').
      unfold blink_db_tripEntries_list.
      destruct (live_await (TripEntriesList (tripEntries_query tripId userId))
                  (fun h => tripEntries_list R h
                              (tripEntries_query tripId userId)) true w')
        as [w'' [-> [Hw'' Hreq]]].
      exists w''.
      destruct (tripEntries_list R (requests w')
                  (tripEntries_query tripId userId));
        (split; [reflexivity | split; [congruence | exact Hreq]]).
    + unfold getPackingItems, bind. rewrite (check_cached R w' true Hw').
      unfold blink_db_packingItems_list.
      destruct (live_await
                  (PackingItemsList (packingItems_query tripId userId))
                  (fun h => packingItems_list R h
                              (packingItems_query tripId userId)) true w')
        as [w'' [-> [Hw'' Hreq]]].
      exists w''.
      destruct (packingItems_list R (requests w')
                  (packingItems_query tripId userId));
        (split; [reflexivity | split; [congruence | exact Hreq]]).
Qed.

Lemma C2_flag_is_sticky_witness :
  isDatabaseAvailable probed_world = Some true
  /\ isDatabaseAvailable
       (run remote_flaky [OpGetTrips "alice"; OpGetTripEntries "1" "alice"]
            probed_world) = Some true
  /\ checkDatabaseAvailability remote_flaky
       (run remote_flaky [OpGetTrips "alice"; OpGetTripEntries "1" "alice"]
            probed_world)
     = (Ok true,
        run remote_flaky [OpGetTrips "alice"; OpGetTripEntries "1" "alice"]
            probed_world).
Proof.
  split; [reflexivity|].
  destruct (C2_flag_is_sticky remote_flaky probed_world true eq_refl
              [OpGetTrips "alice"; OpGetTripEntries "1" "alice"])
    as [Hflag [Hcheck _]].
  split; [exact Hflag | exact Hcheck].
Defined.

(** C3: [getTrips] never rejects.  For every remote, world and user id it
    resolves, and its result is either the list with which the live query
    resolved, as it is, or the whole seed list re-tagged with the user id. *)
Theorem C3_getTrips_resolves (R : Remote) (userId : string) (w : World) :
  exists l w',
    getTrips R userId w = (Ok l, w')
    /\ (trips_list R (requests (after (checkDatabaseAvailability R) w))
                   (trips_query userId) = Some l
        \/ l = map (with_userId userId) mockTrips).
Proof.
  destruct (check_resolves R w) as [b [w1 [Hc _]]].
  unfold after, getTrips, bind. rewrite Hc. cbn [snd].
  unfold blink_db_trips_list.
  destruct (live_await (TripsList (trips_query userId))
              (fun h => trips_list R h (trips_query userId)) b w1)
    as [w2 [-> _]].
  destruct b.
  - destruct (trips_list R (requests w1) (trips_query userId)) as [l|].
    + exists l, w2. split; [reflexivity | now left].
    + eexists; exists w2. split; [reflexivity | now right].
  - eexists; exists w2. split; [reflexivity | now right].
Qed.

(** C10: while the database is marked unavailable, [getTripEntries] and
    [getPackingItems] do not depend on the user id: for two user ids the calls
    coincide, and each returns the seed records of the trip, unmodified. *)
Theorem C10_fallback_ignores_user (R : Remote) (w : World)
        (tripId u1 u2 : string) :
  isDatabaseAvailable w = Some false ->
  getTripEntries R tripId u1 w = getTripEntries R tripId u2 w
  /\ getTripEntries R tripId u1 w
     = (Ok (filter (fun e => String.eqb (entry_tripId e) tripId)
                   mockTripEntries), w)
  /\ getPackingItems R tripId u1 w = getPackingItems R tripId u2 w
  /\ getPackingItems R tripId u1 w
     = (Ok (filter (fun i => String.eqb (item_tripId i) tripId)
                   mockPackingItems), w).
Proof.
  intros H.
  rewrite !(getTripEntries_unavailable R w tripId _ H).
  rewrite !(getPackingItems_unavailable R w tripId _ H).
  repeat split.
Qed.

Lemma C10_fallback_ignores_user_witness :
  isDatabaseAvailable unavailable_world = Some false
  /\ getTripEntries remote_up "1" "alice" unavailable_world
     = getTripEntries remote_up "1" "bob" unavailable_world
  /\ getPackingItems remote_up "1" "alice" unavailable_world
     = getPackingItems remote_up "1" "bob" unavailable_world.
Proof.
  split; [reflexivity|].
  destruct (C10_fallback_ignores_user remote_up unavailable_world
              "1" "alice" "bob" eq_refl) as [He [_ [Hi _]]].
  split; [exact He | exact Hi].
Defined.

End DatabaseSpec.

(** * Properties of the dashboard's trip status *)
Module DashboardSpec.
Import Model JsDate Dashboard.
Open Scope Z_scope.

Lemma new_Date_iso (host_parse : string -> JsDate) (s : string) (t : Z) :
  parse_iso_date s = Some t -> new_Date host_parse s = Some t.
Proof. intros H. unfold new_Date. now rewrite H. Qed.

(** The status as a function of the instant read from the clock and of the
    midnights (UTC) that the two date strings denote. *)
Lemma getTripStatus_iso (host_parse : string -> JsDate)
      (clock s e : Z) (startDate endDate : string) :
  parse_iso_date startDate = Some s ->
  parse_iso_date endDate = Some e ->
  getTripStatus host_parse clock startDate endDate
  = if clock <? s then "upcoming"
    else if clock <=? e then "active"
    else "completed".
Proof.
  intros Hs He. unfold getTripStatus.
  rewrite (new_Date_iso _ _ _ Hs), (new_Date_iso _ _ _ He).
  unfold date_ge, date_le, date_lt.
  destruct (clock <? s) eqn:Hlt; [reflexivity|].
  apply Z.ltb_ge in Hlt. apply Z.leb_le in Hlt. rewrite Hlt. reflexivity.
Qed.

(** The three dated examples, at whatever instant of the day (UTC) the clock
    is read: 2024-03-10 is upcoming, 2024-03-18 active, 2024-04-01
    completed, for the trip from 2024-03-15 to 2024-03-22. *)
Lemma getTripStatus_examples (host_parse : string -> JsDate) (ms : Z) :
  0 <= ms < msPerDay ->
  getTripStatus host_parse (days_from_civil 2024 3 10 * msPerDay + ms)
                "2024-03-15" "2024-03-22" = "upcoming"
  /\ getTripStatus host_parse (days_from_civil 2024 3 18 * msPerDay + ms)
                   "2024-03-15" "2024-03-22" = "active"
  /\ getTripStatus host_parse (days_from_civil 2024 4 1 * msPerDay + ms)
                   "2024-03-15" "2024-03-22" = "completed".
Proof.
  intros Hms.
  rewrite !(getTripStatus_iso host_parse _ 1710460800000 1711065600000)
    by reflexivity.
  change (days_from_civil 2024 3 10) with 19792.
  change (days_from_civil 2024 3 18) with 19800.
  change (days_from_civil 2024 4 1) with 19814.
  unfold msPerDay in *.
  repeat split.
  - destruct (Z.ltb_spec (19792 * 86400000 + ms) 1710460800000);
      [reflexivity | lia].
  - destruct (Z.ltb_spec (19800 * 86400000 + ms) 1710460800000); [lia|].
    destruct (Z.leb_spec (19800 * 86400000 + ms) 1711065600000);
      [reflexivity | lia].
  - destruct (Z.ltb_spec (19814 * 86400000 + ms) 1710460800000); [lia|].
    destruct (Z.leb_spec (19814 * 86400000 + ms) 1711065600000);
      [lia | reflexivity].
Qed.

(** The status is decided by the instant at which the clock is read: it is
    ["upcoming"] before the midnight (UTC) that starts the start date,
    ["active"] from then up to and including the midnight that starts the end
    date, and ["completed"] after it. *)
Theorem getTripStatus_by_instant (host_parse : string -> JsDate)
        (clock s e : Z) (startDate endDate : string) :
  parse_iso_date startDate = Some s ->
  parse_iso_date endDate = Some e ->
  (clock < s ->
   getTripStatus host_parse clock startDate endDate = "upcoming")
  /\ (s <= clock <= e ->
      getTripStatus host_parse clock startDate endDate = "active")
  /\ (s <= clock -> e < clock ->
      getTripStatus host_parse clock startDate endDate = "completed").
Proof.
  intros Hs He. rewrite (getTripStatus_iso host_parse clock s e _ _ Hs He).
  repeat split.
  - intros H. apply Z.ltb_lt in H. now rewrite H.
  - intros [H1 H2]. apply Z.ltb_ge in H1. apply Z.leb_le in H2.
    now rewrite H1, H2.
  - intros H1 H2. apply Z.ltb_ge in H1. apply Z.leb_gt in H2.
    now rewrite H1, H2.
Qed.

Lemma getTripStatus_by_instant_witness :
  parse_iso_date "2024-03-15" = Some 1710460800000
  /\ parse_iso_date "2024-03-22" = Some 1711065600000
  /\ getTripStatus (fun _ => None) 1710806400000 "2024-03-15" "2024-03-22"
     = "active".
Proof.
  split; [reflexivity|]. split; [reflexivity|].
  apply (getTripStatus_by_instant (fun _ => None) 1710806400000
           1710460800000 1711065600000 "2024-03-15" "2024-03-22"
           eq_refl eq_refl).
  lia.
Defined.

Lemma getTripStatus_examples_witness :
  0 <= 43200000 < msPerDay
  /\ getTripStatus (fun _ => None)
                   (days_from_civil 2024 3 18 * msPerDay + 43200000)
                   "2024-03-15" "2024-03-22" = "active".
Proof.
  split; [unfold msPerDay; lia|].
  apply (getTripStatus_examples (fun _ => None) 43200000).
  unfold msPerDay; lia.
Defined.

(** C4 at its failing input: the clock reads 2024-03-22T12:00:00.000Z, noon
    of the end date of the trip from 2024-03-15 to 2024-03-22, and
    [getTripStatus] answers ["completed"]: the end date is compared as its
    midnight, so that the trip is active on its last day at that first
    instant only. *)
Theorem C4_completed_during_end_date :
  toISOString (Some 1711108800000) = Ok "2024-03-22T12:00:00.000Z"
  /\ (forall host_parse,
         getTripStatus host_parse 1711108800000 "2024-03-15" "2024-03-22"
         = "completed")
  /\ (forall host_parse,
         getTripStatus host_parse 1711065600000 "2024-03-15" "2024-03-22"
         = "active").
Proof.
  split; [vm_compute; reflexivity|].
  split; intros host_parse;
    rewrite (getTripStatus_iso host_parse _ 1710460800000
               1711065600000) by reflexivity;
    reflexivity.
Qed.

End DashboardSpec.

(** * Properties of the packing progress *)
Module PackingListSpec.
Import PackingList.
Open Scope Z_scope.
Import PackingNotions.

Lemma all_pairs_spec (f : nat -> nat -> bool) (bound p n : nat) :
  all_pairs f bound = true ->
  (p <= n)%nat -> (1 <= n <= bound)%nat -> f p n = true.
Proof.
  unfold all_pairs. intros H Hp Hn.
  rewrite forallb_forall in H.
  specialize (H n). rewrite forallb_forall in H.
  apply H; apply in_seq; lia.
Qed.

Lemma agrees_upto_200 : all_pairs agrees 200 = true.
Proof. vm_compute. reflexivity. Qed.

Lemma agrees_exactly_upto_39 : all_pairs agrees_exactly 39 = true.
Proof. vm_compute. reflexivity. Qed.

Lemma getPackingProgress_nonempty (items : list PackingItem) :
  items <> [] ->
  getPackingProgress items = progress_of (packed_count items)
                                         (List.length items).
Proof.
  intros H. unfold getPackingProgress.
  destruct items as [|i items]; [congruence | reflexivity].
Qed.

Lemma packed_count_le (items : list PackingItem) :
  (packed_count items <= List.length items)%nat.
Proof. apply filter_length_le. Qed.

(** C5, as the code has it: the percentage is 0 for the empty list;
    otherwise it is [Math.round] of the binary64 product
    [(packed / total) * 100].  For a list of fewer than 40 items that is
    [round(100 * packed / total)]; for a list of up to 200 items it is that
    value whenever [100 * packed / total] is not exactly halfway between two
    integers, and that value or one less when it is. *)
Theorem C5_packing_progress (items : list PackingItem) :
  (items = [] -> getPackingProgress items = 0)
  /\ (items <> [] ->
      getPackingProgress items
      = Math_round (PrimFloat.mul
                      (PrimFloat.div
                         (Number_of_length (packed_count items))
                         (Number_of_length (List.length items)))
                      (Number_of_length 100)))
  /\ (items <> [] -> (List.length items < 40)%nat ->
      getPackingProgress items
      = round_percent (packed_count items) (List.length items))
  /\ (items <> [] -> (List.length items <= 200)%nat ->
      round_percent (packed_count items) (List.length items) - 1
      <= getPackingProgress items
      <= round_percent (packed_count items) (List.length items)
      /\ (is_tie (packed_count items) (List.length items) = false ->
          getPackingProgress items
          = round_percent (packed_count items) (List.length items))).
Proof.
  split; [intros ->; reflexivity|].
  assert (Hlen : items <> [] -> (1 <= List.length items)%nat).
  { destruct items; [congruence | cbn; lia]. }
  pose proof (packed_count_le items) as Hle.
  split; [apply getPackingProgress_nonempty|].
  split.
  - intros Hne Hlt. rewrite (getPackingProgress_nonempty items Hne).
    apply Z.eqb_eq.
    apply (all_pairs_spec agrees_exactly 39 _ _ agrees_exactly_upto_39 Hle).
    specialize (Hlen Hne). lia.
  - intros Hne Hbound. rewrite (getPackingProgress_nonempty items Hne).
    assert (H : agrees (packed_count items) (List.length items) = true).
    { apply (all_pairs_spec agrees 200 _ _ agrees_upto_200 Hle).
      specialize (Hlen Hne). lia. }
    unfold agrees in H.
    destruct (is_tie (packed_count items) (List.length items)).
    + apply orb_true_iff in H. rewrite !Z.eqb_eq in H.
      split; [lia | discriminate].
    + apply Z.eqb_eq in H. split; [lia | intros _; exact H].
Qed.

Lemma C5_packing_progress_witness :
  sample 1 3 <> []
  /\ (List.length (sample 1 3) < 40)%nat
  /\ getPackingProgress (sample 1 3) = 33
  /\ getPackingProgress (sample 1 3)
     = round_percent (packed_count (sample 1 3)) (List.length (sample 1 3)).
Proof.
  split; [discriminate|]. split; [cbn; lia|]. split; [reflexivity|].
  apply (proj1 (proj2 (proj2 (C5_packing_progress (sample 1 3)))));
    [discriminate | cbn; lia].
Defined.

(** C5 fails as stated: with 23 of 40 items packed, [100 * 23 / 40] is 57.5
    and rounds to 58, but the quotient [23 / 40] is not a binary64 number, the
    product with 100 falls just below 57.5, and [getPackingProgress]
    returns 57. *)
Lemma C5_counterexample :
  List.length (sample 23 40) = 40%nat
  /\ packed_count (sample 23 40) = 23%nat
  /\ getPackingProgress (sample 23 40) = 57
  /\ round_percent 23 40 = 58.
Proof. vm_compute. repeat split. Qed.

End PackingListSpec.

(** * Properties of grouping entries by date *)
Module GroupingSpec.
Import Model JsDate JsObject TripDetails.
Local Open Scope list_scope.
Import GroupingNotions.

(** ** Lists of keys *)

Lemma in_first_occurrences (l : list string) (d : string) :
  In d (first_occurrences l) <-> In d l.
Proof.
  induction l as [|x l IH]; cbn; [tauto|].
  rewrite filter_In, IH, negb_true_iff, String.eqb_neq.
  destruct (string_dec x d) as [->|Hne]; [tauto|].
  split; [tauto|]. intros [H|H]; [tauto|]. right. split; [exact H|].
  congruence.
Qed.

Lemma NoDup_filter {A} (f : A -> bool) (l : list A) :
  NoDup l -> NoDup (filter f l).
Proof.
  induction 1 as [|x l Hx Hl IH]; cbn; [constructor|].
  destruct (f x); [constructor|]; auto.
  rewrite filter_In. tauto.
Qed.

Lemma NoDup_first_occurrences (l : list string) :
  NoDup (first_occurrences l).
Proof.
  induction l as [|x l IH]; cbn; constructor.
  - rewrite filter_In, String.eqb_refl. cbn. intros [_ H]. discriminate.
  - now apply NoDup_filter.
Qed.

Lemma first_occurrences_snoc (l : list string) (d : string) :
  first_occurrences (l ++ [d])
  = if in_dec string_dec d l then first_occurrences l
    else first_occurrences l ++ [d].
Proof.
  induction l as [|x l IH]; cbn [app first_occurrences].
  - reflexivity.
  - rewrite IH.
    destruct (string_dec x d) as [->|Hne].
    + destruct (in_dec string_dec d (d :: l)) as [_|Hn];
        [|exfalso; apply Hn; now left].
      destruct (in_dec string_dec d l); [reflexivity|].
      rewrite filter_app. cbn. rewrite String.eqb_refl. cbn.
      now rewrite app_nil_r.
    + assert (Hd : negb (String.eqb d x) = true).
      { apply negb_true_iff, String.eqb_neq. congruence. }
      destruct (in_dec string_dec d l) as [Hin|Hnin];
        destruct (in_dec string_dec d (x :: l)) as [Hin'|Hnin'];
        try reflexivity.
      * exfalso. apply Hnin'. now right.
      * exfalso. destruct Hin' as [->|Hin']; [now apply Hne | now apply Hnin].
      * rewrite filter_app. cbn. rewrite Hd. reflexivity.
Qed.

(** ** Objects built from a list of distinct keys *)

Section Tabulate.
Context {A : Type}.
Variable f : string -> A.

Lemma own_tabulate_in (ks : list string) (d : string) :
  In d ks -> own d (tabulate f ks) = Some (f d).
Proof.
  induction ks as [|k ks IH]; cbn; [tauto|].
  destruct (String.eqb_spec k d) as [->|Hne]; [reflexivity|].
  intros [H|H]; [congruence | now apply IH].
Qed.

Lemma own_tabulate_notin (ks : list string) (d : string) :
  ~ In d ks -> own d (tabulate f ks) = None.
Proof.
  induction ks as [|k ks IH]; cbn; [reflexivity|].
  intros H. destruct (String.eqb_spec k d) as [->|Hne]; [tauto|].
  apply IH. tauto.
Qed.

Lemma own_app (o1 o2 : obj A) (d : string) :
  own d (o1 ++ o2) = match own d o1 with
                     | Some v => Some v
                     | None => own d o2
                     end.
Proof.
  induction o1 as [|[k v] o1 IH]; cbn; [reflexivity|].
  destruct (String.eqb k d); [reflexivity | exact IH].
Qed.

Lemma update_app_notin (o1 o2 : obj A) (d : string) (v : A) :
  own d o1 = None -> update d v (o1 ++ o2) = (o1 ++ update d v o2)%list.
Proof.
  induction o1 as [|[k x] o1 IH]; cbn; [reflexivity|].
  destruct (String.eqb k d); [discriminate|].
  intros H. now rewrite IH.
Qed.
End Tabulate.

Lemma update_tabulate {A} (f g : string -> A) (ks : list string)
      (d : string) (v : A) :
  NoDup ks ->
  g d = v -> (forall k, k <> d -> g k = f k) ->
  update d v (tabulate f ks) = tabulate g ks.
Proof.
  intros Hnd Hd Hother. induction Hnd as [|k ks Hk Hks IH]; cbn;
    [reflexivity|].
  destruct (String.eqb_spec k d) as [->|Hne].
  - rewrite Hd. f_equal. apply map_ext_in. intros k Hin.
    rewrite Hother; [reflexivity|]. congruence.
  - rewrite (Hother k Hne). f_equal. exact IH.
Qed.

Lemma index_keys_plain {A} (o : obj A) :
  Forall (fun kv => array_index (fst kv) = None) o ->
  index_keys o = [] /\ string_keys o = map fst o.
Proof.
  unfold index_keys, string_keys.
  induction 1 as [|[k v] o Hk Ho [IH1 IH2]]; cbn [flat_map map fst];
    [split; reflexivity|].
  cbn [fst] in Hk. rewrite Hk, IH1, IH2. split; reflexivity.
Qed.

Lemma Object_keys_plain {A} (o : obj A) :
  Forall (fun kv => array_index (fst kv) = None) o ->
  Object_keys o = map fst o.
Proof.
  intros H. unfold Object_keys.
  destruct (index_keys_plain o H) as [-> ->]. reflexivity.
Qed.

Lemma map_fst_tabulate {A} (f : string -> A) (ks : list string) :
  map fst (tabulate f ks) = ks.
Proof.
  unfold tabulate. rewrite map_map. cbn. apply map_id.
Qed.

Lemma entries_tabulate {A} (f : string -> A) (ks sub : list string) :
  (forall k, In k sub -> In k ks) ->
  flat_map (fun k => match own k (tabulate f ks) with
                     | Some v => [(k, v)]
                     | None => []
                     end) sub
  = tabulate f sub.
Proof.
  induction sub as [|k sub IH]; intros Hsub; cbn; [reflexivity|].
  rewrite (own_tabulate_in f ks k) by (apply Hsub; now left).
  cbn. f_equal. apply IH. intros k' Hk'. apply Hsub. now right.
Qed.

(** ** The entries of each date *)

Lemma on_date_snoc (d : string) (l : list TripEntry) (e : TripEntry) :
  on_date d (l ++ [e])
  = (on_date d l ++ if String.eqb (entry_date e) d then [e] else [])%list.
Proof. unfold on_date. rewrite filter_app. reflexivity. Qed.

Lemma on_date_absent (d : string) (l : list TripEntry) :
  ~ In d (map entry_date l) -> on_date d l = [].
Proof.
  induction l as [|e l IH]; cbn; [reflexivity|].
  intros H. destruct (String.eqb_spec (entry_date e) d) as [Heq|Hne];
    [tauto|].
  apply IH. tauto.
Qed.

Lemma on_date_dates (d : string) (l : list TripEntry) (e : TripEntry) :
  In e (on_date d l) -> entry_date e = d /\ In e l.
Proof.
  unfold on_date. rewrite filter_In, String.eqb_eq. tauto.
Qed.

(** ** One step of the reduction *)

Lemma group_step_grouped (l : list TripEntry) (e : TripEntry) :
  inherited (entry_date e) = false ->
  group_step (grouped l) e = Ok (grouped (l ++ [e])).
Proof.
  intros Hproto. unfold group_step, grouped.
  rewrite map_app. cbn [map]. rewrite first_occurrences_snoc.
  pose proof (NoDup_first_occurrences (map entry_date l)) as Hnd.
  pose proof (in_first_occurrences (map entry_date l) (entry_date e)) as Hks.
  remember (entry_date e) as d eqn:Hd.
  remember (first_occurrences (map entry_date l)) as ks eqn:Eks.
  clear Eks. rename Hproto into Hproto'.
  change (map (fun k => (k, on_date k l)) ks)
    with (tabulate (fun k => on_date k l) ks).
  destruct (in_dec string_dec d (map entry_date l)) as [Hin|Hnin].
  - apply Hks in Hin.
    assert (Hget : get d (tabulate (fun k => on_date k l) ks)
                   = Own (on_date d l)).
    { unfold get. now rewrite (own_tabulate_in _ ks d Hin). }
    rewrite Hget, Hget. f_equal.
    apply update_tabulate; [exact Hnd | |].
    + rewrite on_date_snoc, <- Hd. now rewrite String.eqb_refl.
    + intros k Hk. rewrite on_date_snoc, <- Hd.
      destruct (String.eqb_spec d k) as [Heq|_];
        [congruence | apply app_nil_r].
  - assert (Hout : ~ In d ks) by (intros H; now apply Hnin, Hks).
    assert (Hown : own d (tabulate (fun k => on_date k l) ks) = None)
      by now apply own_tabulate_notin.
    assert (Hget : get d (tabulate (fun k => on_date k l) ks) = Undefined).
    { unfold get. now rewrite Hown, Hproto'. }
    rewrite Hget.
    assert (Hget' : get d (define d [] (tabulate (fun k => on_date k l) ks))
                    = Own []).
    { unfold get, define. rewrite own_app, Hown. cbn [own].
      now rewrite String.eqb_refl. }
    rewrite Hget'. f_equal. unfold define.
    rewrite (update_app_notin _ _ d _ Hown).
    cbn [update]. rewrite String.eqb_refl.
    unfold tabulate. rewrite map_app. cbn [map app].
    f_equal.
    + apply map_ext_in. intros k Hk. rewrite on_date_snoc, <- Hd.
      destruct (String.eqb_spec d k) as [Heq|_];
        [congruence | now rewrite app_nil_r].
    + rewrite on_date_snoc, <- Hd, String.eqb_refl.
      now rewrite (on_date_absent d l Hnin).
Qed.

Lemma groupEntriesByDate_snoc (l : list TripEntry) (e : TripEntry) :
  groupEntriesByDate (l ++ [e])
  = match groupEntriesByDate l with
    | Ok groups => group_step groups e
    | Throw x => Throw x
    end.
Proof. unfold groupEntriesByDate. now rewrite fold_left_app. Qed.

(** The reduction computes the specified grouping, provided no date is a name
    found on [Object.prototype]. *)
Lemma groupEntriesByDate_grouped (entries : list TripEntry) :
  Forall (fun e => inherited (entry_date e) = false) entries ->
  groupEntriesByDate entries = Ok (grouped entries).
Proof.
  induction entries as [|e l IH] using rev_ind; intros H.
  - reflexivity.
  - apply Forall_app in H. destruct H as [Hl He].
    rewrite groupEntriesByDate_snoc, (IH Hl).
    apply group_step_grouped. now inversion He.
Qed.

(** ** Every entry lands in exactly one group *)

Lemma partition_by_date (d : string) (l : list TripEntry) :
  Permutation
    (on_date d l ++ filter (fun e => negb (String.eqb (entry_date e) d)) l) l.
Proof.
  induction l as [|e l IH]; cbn; [constructor|].
  destruct (String.eqb (entry_date e) d); cbn.
  - now constructor.
  - apply Permutation_sym, Permutation_cons_app, Permutation_sym, IH.
Qed.

Lemma on_date_other (d k : string) (l : list TripEntry) :
  k <> d ->
  on_date k (filter (fun e => negb (String.eqb (entry_date e) d)) l)
  = on_date k l.
Proof.
  intros Hne. unfold on_date.
  induction l as [|e l IH]; cbn [filter]; [reflexivity|].
  destruct (String.eqb_spec (entry_date e) d) as [Hd|Hd]; cbn [negb filter].
  - destruct (String.eqb_spec (entry_date e) k) as [Hk|_];
      [congruence | exact IH].
  - now rewrite IH.
Qed.

Lemma groups_cover (ks : list string) :
  NoDup ks ->
  forall l : list TripEntry,
    (forall e, In e l -> In (entry_date e) ks) ->
    Permutation (List.concat (map (fun k => on_date k l) ks)) l.
Proof.
  induction 1 as [|d ks Hd Hks IH]; intros l Hcover.
  - destruct l as [|e l]; [constructor|].
    destruct (Hcover e (or_introl eq_refl)).
  - cbn [map List.concat].
    eapply Permutation_trans; [|apply (partition_by_date d l)].
    apply Permutation_app_head.
    set (rest := filter (fun e => negb (String.eqb (entry_date e) d)) l).
    rewrite (map_ext_in (fun k => on_date k l) (fun k => on_date k rest)).
    + apply IH. intros e He. apply filter_In in He. destruct He as [He Hne].
      apply negb_true_iff, String.eqb_neq in Hne.
      destruct (Hcover e He) as [Heq|Hin]; [congruence | exact Hin].
    + intros k Hk. symmetry. apply on_date_other. congruence.
Qed.

(** ** Dates in the form the application writes *)

Lemma inherited_length (k : string) :
  inherited k = true -> String.length k <> 10%nat.
Proof.
  unfold inherited. rewrite existsb_exists. intros [name [Hin Heq]].
  apply String.eqb_eq in Heq. subst name.
  repeat (destruct Hin as [<-|Hin]; [discriminate|]). destruct Hin.
Qed.

Lemma number_of_dash (acc : Z) (c0 c1 c2 c3 : ascii) (rest : string) :
  number_of acc (String c0 (String c1 (String c2 (String c3
                   (String "-" rest))))) = None.
Proof.
  cbn. destruct (digit_of c0); [|reflexivity].
  destruct (digit_of c1); [|reflexivity].
  destruct (digit_of c2); [|reflexivity].
  destruct (digit_of c3); reflexivity.
Qed.

(** Every date-only string [YYYY-MM-DD] is a plain key. *)
Lemma iso_date_plain_key (d : string) :
  parse_iso_date d <> None -> plain_key d = true.
Proof.
  unfold parse_iso_date.
  destruct (String.length d =? 10)%nat eqn:Hlen; [|cbn; congruence].
  destruct (String.eqb (substring 4 1 d) "-") eqn:Hdash; [|cbn; congruence].
  intros _. apply Nat.eqb_eq in Hlen. apply String.eqb_eq in Hdash.
  unfold plain_key. apply andb_true_iff. split.
  - apply negb_true_iff. destruct (inherited d) eqn:Hi; [|reflexivity].
    now apply inherited_length in Hi.
  - destruct d as [|c0 [|c1 [|c2 [|c3 [|c4 rest]]]]]; try discriminate.
    cbn in Hdash. destruct rest; injection Hdash as ->;
      unfold array_index; now rewrite number_of_dash.
Qed.

Lemma iso_date_plain_key_witness :
  parse_iso_date "2024-03-15" <> None /\ plain_key "2024-03-15" = true.
Proof.
  split; [discriminate|]. apply (iso_date_plain_key "2024-03-15").
  discriminate.
Defined.

(** C6, as the code has it: for every list of entries whose dates are plain
    keys (neither an array index nor a name found on [Object.prototype], as
    every [YYYY-MM-DD] string is), grouping succeeds; the keys are the
    distinct dates in order of first occurrence; the group of a date is the
    list of the input entries of that date, in input order; and the groups
    together hold every input entry exactly once. *)
Theorem C6_grouping (entries : list TripEntry) :
  Forall (fun e => plain_key (entry_date e) = true) entries ->
  exists groups,
    groupEntriesByDate entries = Ok groups
    /\ Object_keys groups = first_occurrences (map entry_date entries)
    /\ NoDup (Object_keys groups)
    /\ (forall d, In d (Object_keys groups) ->
                  own d groups = Some (on_date d entries))
    /\ (forall d g e, own d groups = Some g -> In e g -> entry_date e = d)
    /\ Permutation (List.concat (map snd (Object_entries groups))) entries.
Proof.
  intros Hplain.
  assert (Hproto : Forall (fun e => inherited (entry_date e) = false) entries).
  { eapply Forall_impl; [|exact Hplain]. cbn. intros e He.
    apply andb_true_iff in He. now apply negb_true_iff. }
  set (ks := first_occurrences (map entry_date entries)).
  assert (Hkeys : Object_keys (grouped entries) = ks).
  { rewrite Object_keys_plain; [apply map_fst_tabulate|].
    apply Forall_forall. intros [k g] Hin. cbn [fst].
    apply in_map_iff in Hin. destruct Hin as [k' [Hk' Hin]].
    injection Hk' as -> _.
    apply in_first_occurrences, in_map_iff in Hin.
    destruct Hin as [e [<- He]].
    rewrite Forall_forall in Hplain. specialize (Hplain e He).
    apply andb_true_iff in Hplain.
    destruct (array_index (entry_date e));
      [now destruct Hplain | reflexivity]. }
  exists (grouped entries).
  split; [now apply groupEntriesByDate_grouped|].
  split; [exact Hkeys|]. rewrite Hkeys.
  split; [apply NoDup_first_occurrences|].
  split; [|split].
  - intros d Hd. apply (own_tabulate_in (fun k => on_date k entries) ks d Hd).
  - intros d g e Hown Hin.
    destruct (in_dec string_dec d ks) as [Hd|Hd].
    + change (grouped entries)
        with (tabulate (fun k => on_date k entries) ks) in Hown.
      rewrite (own_tabulate_in (fun k => on_date k entries) ks d Hd) in Hown.
      injection Hown as <-. now apply on_date_dates in Hin.
    + change (grouped entries)
        with (tabulate (fun k => on_date k entries) ks) in Hown.
      rewrite (own_tabulate_notin (fun k => on_date k entries) ks d Hd)
        in Hown.
      discriminate.
  - unfold Object_entries. rewrite Hkeys.
    change (grouped entries)
      with (tabulate (fun k => on_date k entries) ks).
    rewrite (entries_tabulate (fun k => on_date k entries) ks ks)
      by (intros k Hk; exact Hk).
    unfold tabulate. rewrite map_map. cbn [snd].
    apply groups_cover; [apply NoDup_first_occurrences|].
    intros e He. apply in_first_occurrences, in_map, He.
Qed.

Lemma C6_grouping_witness :
  Forall (fun e => plain_key (entry_date e) = true) Database.mockTripEntries
  /\ exists groups,
      groupEntriesByDate Database.mockTripEntries = Ok groups
      /\ Object_keys groups = ["2024-03-15"; "2024-03-16"]
      /\ own "2024-03-16" groups
         = Some (on_date "2024-03-16" Database.mockTripEntries).
Proof.
  assert (H : Forall (fun e => plain_key (entry_date e) = true)
                     Database.mockTripEntries)
    by (repeat constructor).
  split; [exact H|].
  destruct (C6_grouping Database.mockTripEntries H)
    as [groups [Hg [Hkeys [_ [Hown _]]]]].
  exists groups. split; [exact Hg|]. split; [exact Hkeys|].
  apply Hown. rewrite Hkeys. right. left. reflexivity.
Defined.

(** C6 fails as stated.  With the dates ["2"] and ["1"], in that order, the
    keys are enumerated as ["1"], ["2"]: array indices come first, in
    ascending order, whatever the order of insertion.  With the date
    ["toString"], [groups[date]] is the inherited method, no group is
    created, and [push] raises a [TypeError]: there is no mapping at all. *)
Lemma C6_counterexample :
  (exists groups,
      groupEntriesByDate [entry_on "a" "2"; entry_on "b" "1"] = Ok groups
      /\ Object_keys groups = ["1"; "2"]
      /\ first_occurrences
           (map entry_date [entry_on "a" "2"; entry_on "b" "1"])
         = ["2"; "1"])
  /\ groupEntriesByDate [entry_on "c" "toString"] = Throw TypeError.
Proof.
  split; [|reflexivity].
  eexists. split; [reflexivity|]. split; reflexivity.
Qed.

End GroupingSpec.

(** * Properties of the host's stable sort *)
Module SortSpec.
Import JsArray.
Local Open Scope list_scope.
Local Open Scope Z_scope.

Section Facts.
Context {A : Type}.
Variable comparefn : A -> A -> Z.

Lemma insert_perm (x : A) (l : list A) :
  Permutation (x :: l) (insert comparefn x l).
Proof.
  induction l as [|y l IH]; cbn; [reflexivity|].
  destruct (comparefn x y <=? 0); [reflexivity|].
  rewrite perm_swap. now constructor.
Qed.

Lemma sort_perm (l : list A) : Permutation l (sort comparefn l).
Proof.
  induction l as [|x l IH]; cbn; [constructor|].
  rewrite <- insert_perm. now constructor.
Qed.

(** On a domain [P] where the compare function decides a total, transitive
    order [le], the result is sorted by [le]. *)
Variable P : A -> Prop.
Variable le : A -> A -> Prop.
Hypothesis compare_le :
  forall x y, P x -> P y -> (comparefn x y <=? 0) = true <-> le x y.
Hypothesis le_total : forall x y, P x -> P y -> le x y \/ le y x.
Hypothesis le_trans : forall x y z, le x y -> le y z -> le x z.

Lemma insert_sorted (x : A) (l : list A) :
  P x -> Forall P l -> StronglySorted le l ->
  StronglySorted le (insert comparefn x l).
Proof.
  intros Hx Hl Hs. induction Hs as [|y l Hs IH Hy]; cbn.
  - repeat constructor.
  - inversion Hl as [|? ? Py Pl]; subst.
    destruct (comparefn x y <=? 0) eqn:Hc.
    + apply compare_le in Hc; [|assumption..].
      constructor; [now constructor|].
      constructor; [exact Hc|].
      eapply Forall_impl; [|exact Hy]. intros z Hz. now apply le_trans with y.
    + constructor; [now apply IH|].
      eapply Permutation_Forall; [apply insert_perm|].
      constructor; [|exact Hy].
      destruct (le_total x y Hx Py) as [Hxy|Hyx]; [|exact Hyx].
      apply compare_le in Hxy; [congruence | assumption..].
Qed.

Lemma sort_sorted (l : list A) :
  Forall P l -> StronglySorted le (sort comparefn l).
Proof.
  induction 1 as [|x l Hx Hl IH]; cbn; [constructor|].
  apply insert_sorted; [exact Hx | | exact IH].
  eapply Permutation_Forall; [apply sort_perm | exact Hl].
Qed.
End Facts.

(** ** Code-unit order on strings *)

Lemma leb_trans (a b c : string) :
  String.leb a b = true -> String.leb b c = true -> String.leb a c = true.
Proof.
  unfold String.leb.
  destruct (String.compare a b) eqn:Hab; [| |discriminate]; intros _.
  - apply String.compare_eq_iff in Hab. now subst.
  - destruct (String.compare b c) eqn:Hbc; [| |discriminate]; intros _.
    + apply String.compare_eq_iff in Hbc. subst. now rewrite Hab.
    + apply OrderedTypeEx.String_as_OT.cmp_lt in Hab, Hbc.
      pose proof (OrderedTypeEx.String_as_OT.lt_trans _ _ _ Hab Hbc) as Hac.
      apply OrderedTypeEx.String_as_OT.cmp_lt in Hac.
      unfold OrderedTypeEx.String_as_OT.cmp in Hac. now rewrite Hac.
Qed.


Lemma empty_first (s : string) : s <> "" -> String.ltb "" s = true.
Proof. destruct s; [congruence | reflexivity]. Qed.


End SortSpec.

(** * Properties of the order of the cards within a date *)
Module TimelineSpec.
Import Model JsDate JsArray JsObject SortSpec.
Local Open Scope list_scope.
Import TimelineNotions.


Section Host.
Variable localeCompare : string -> string -> Z.

(** On time-of-day strings the host's collation orders as the code units do. *)
Hypothesis localeCompare_times :
  forall a b, time_of_day a = true -> time_of_day b = true ->
              (localeCompare a b ?= 0)%Z = String.compare a b.



End Host.

Lemma code_unit_collation_agrees (a b : string) :
  (code_unit_collation a b ?= 0)%Z = String.compare a b.
Proof. unfold code_unit_collation. now destruct (String.compare a b). Qed.


Lemma weight_digits (c d : ascii) :
  is_digit c = true -> is_digit d = true ->
  N.compare (collation_weight c) (collation_weight d) = Ascii.compare c d.
Proof.
  intros Hc Hd. unfold collation_weight. cbv zeta. rewrite Hc, Hd.
  unfold Ascii.compare.
  destruct (N.compare_spec (N_of_ascii c) (N_of_ascii d)) as [He|Hl|Hg].
  - rewrite He. apply N.compare_refl.
  - apply N.compare_lt_iff. lia.
  - apply N.compare_gt_iff. lia.
Qed.

(** On time-of-day strings this collation orders as the code units do. *)
Lemma punctuation_first_times (a b : string) :
  time_of_day a = true -> time_of_day b = true ->
  (punctuation_first_collation a b ?= 0)%Z = String.compare a b.
Proof.
  intros Ha Hb.
  assert (Hsign : forall c, (sign c ?= 0)%Z = c) by (now intros []).
  unfold punctuation_first_collation. rewrite Hsign.
  destruct a as [|a1 [|a2 [|a3 [|a4 [|a5 [|]]]]]]; try discriminate;
    destruct b as [|b1 [|b2 [|b3 [|b4 [|b5 [|]]]]]]; try discriminate;
    try reflexivity.
  cbn [time_of_day] in Ha, Hb.
  repeat (apply andb_true_iff in Ha; destruct Ha as [Ha ?]).
  repeat (apply andb_true_iff in Hb; destruct Hb as [Hb ?]).
  repeat match goal with
         | H : Ascii.eqb _ _ = true |- _ => apply Ascii.eqb_eq in H; subst
         end.
  cbn [collate String.compare].
  change (N.compare (collation_weight ":") (collation_weight ":")) with Eq.
  change (Ascii.compare ":" ":") with Eq.
  cbv iota. rewrite !weight_digits by assumption.
  reflexivity.
Qed.


End TimelineSpec.

(** * Properties of the create dialogs *)
Module DialogSpec.
Import Model JsDate Form.
Local Open Scope list_scope.
Local Open Scope Z_scope.
Import DialogNotions.

Lemma toISOString_valid (t : Z) : exists s, toISOString (Some t) = Ok s.
Proof.
  unfold toISOString. destruct (civil_from_days (t / msPerDay)) as [[y m] d].
  eauto.
Qed.

Lemma iso_day_valid (t : Z) : exists s, iso_day (Some t) = Ok s.
Proof.
  unfold iso_day. destruct (toISOString_valid t) as [s ->]. eauto.
Qed.

(** What the trip schema accepts. *)
Lemma tripSchema_valid (v : CreateTripDialog.TripFormValues)
      (data : CreateTripDialog.TripFormData) :
  CreateTripDialog.tripSchema v = Valid data ->
  exists s e,
    CreateTripDialog.v_startDate v = Some (Some s)
    /\ CreateTripDialog.v_endDate v = Some (Some e)
    /\ CreateTripDialog.startDate data = Some s
    /\ CreateTripDialog.endDate data = Some e
    /\ s <= e
    /\ CreateTripDialog.destination data = CreateTripDialog.v_destination v.
Proof.
  unfold CreateTripDialog.tripSchema.
  destruct (CreateTripDialog.v_startDate v) as [[s|]|]; try discriminate;
    destruct (CreateTripDialog.v_endDate v) as [[e|]|]; try discriminate.
  cbn [CreateTripDialog.endDate CreateTripDialog.startDate date_ge date_le].
  cbv zeta.
  destruct (s <=? e) eqn:Hle.
  - match goal with
    | |- context [match ?l with [] => _ | _ :: _ => _ end] => destruct l
    end; [|discriminate].
    intros [= <-]. exists s, e. apply Z.leb_le in Hle. cbn. auto 10.
  - match goal with
    | |- context [match ?l with [] => _ | _ :: _ => _ end] =>
        destruct l eqn:Happ
    end; [|discriminate].
    apply app_eq_nil in Happ. destruct Happ as [_ Happ]. discriminate.
Qed.

Lemma entrySchema_valid (v : CreateEntryDialog.EntryFormValues)
      (data : CreateEntryDialog.EntryFormData) :
  CreateEntryDialog.entrySchema v = Valid data ->
  exists t, CreateEntryDialog.date data = Some t
            /\ CreateEntryDialog.title data = CreateEntryDialog.v_title v.
Proof.
  unfold CreateEntryDialog.entrySchema.
  cbv zeta.
  destruct (CreateEntryDialog.v_date v) as [[t|]|] eqn:Hd; cbn [z_date];
    [|discriminate..].
  match goal with
  | |- context [match ?l with [] => _ | _ :: _ => _ end] => destruct l
  end; [|discriminate].
  intros [= <-]. exists t. cbn. auto.
Qed.

(** C8: a trip form whose end date is strictly earlier than its start date is
    rejected by the schema, with the issue on [endDate]; submitting it shows
    the issues and sends no request at all, so no [db.trips.create].  The
    submit handler runs only on values the schema accepts, and those have an
    end date not earlier than the start date. *)
Theorem C8_end_before_start_rejected
        (R : Remote) (en : Entropy) (onTripCreated : option (result unit))
        (v : CreateTripDialog.TripFormValues) (s e : Z) (w : World) :
  CreateTripDialog.v_startDate v = Some (Some s) ->
  CreateTripDialog.v_endDate v = Some (Some e) ->
  e < s ->
  (exists issues,
      CreateTripDialog.tripSchema v = Invalid issues
      /\ In ("endDate", "End date must be after start date") issues
      /\ after (CreateTripDialog.handleSubmit R en onTripCreated v) w
         = mkWorld (isDatabaseAvailable w) (requests w) (console w)
                   (ui w ++ [FormErrors issues]))
  /\ requests (after (CreateTripDialog.handleSubmit R en onTripCreated v) w)
     = requests w
  /\ (forall v' data,
         CreateTripDialog.tripSchema v' = Valid data ->
         CreateTripDialog.handleSubmit R en onTripCreated v'
         = CreateTripDialog.onSubmit R en onTripCreated data
         /\ exists s' e',
             CreateTripDialog.v_startDate v' = Some (Some s')
             /\ CreateTripDialog.v_endDate v' = Some (Some e')
             /\ s' <= e').
Proof.
  intros Hs He Hlt.
  assert (Hrej : exists issues,
             CreateTripDialog.tripSchema v = Invalid issues
             /\ In ("endDate", "End date must be after start date") issues).
  { unfold CreateTripDialog.tripSchema. rewrite Hs, He. cbv zeta.
    cbn [CreateTripDialog.endDate CreateTripDialog.startDate date_ge date_le].
    destruct (Z.leb_spec s e) as [Hle|_]; [lia|].
    match goal with
    | |- context [match ?l with [] => _ | _ :: _ => _ end] =>
        destruct l eqn:Happ
    end.
    - apply app_eq_nil in Happ. destruct Happ as [_ Happ]. discriminate.
    - eexists. split; [reflexivity|]. rewrite <- Happ.
      apply in_or_app. right. now left. }
  destruct Hrej as [issues [Hinv Hin]].
  assert (Hafter : after (CreateTripDialog.handleSubmit R en onTripCreated v) w
                   = mkWorld (isDatabaseAvailable w) (requests w) (console w)
                             (ui w ++ [FormErrors issues])).
  { unfold CreateTripDialog.handleSubmit. rewrite Hinv. reflexivity. }
  split; [exists issues; auto|].
  split; [now rewrite Hafter|].
  intros v' data Hvalid. split.
  - unfold CreateTripDialog.handleSubmit. now rewrite Hvalid.
  - destruct (tripSchema_valid v' data Hvalid)
      as [s' [e' [H1 [H2 [_ [_ [H3 _]]]]]]].
    exists s', e'. auto.
Qed.

Lemma C8_end_before_start_rejected_witness :
  CreateTripDialog.v_startDate backwards_trip = Some (Some 1717977600000)
  /\ CreateTripDialog.v_endDate backwards_trip = Some (Some 1717545600000)
  /\ 1717545600000 < 1717977600000
  /\ requests (after (CreateTripDialog.handleSubmit
                        remote_readonly sample_entropy None backwards_trip)
                     initial_world) = [].
Proof.
  split; [reflexivity|]. split; [reflexivity|]. split; [lia|].
  apply (C8_end_before_start_rejected remote_readonly sample_entropy None
           backwards_trip 1717977600000 1717545600000 initial_world);
    [reflexivity | reflexivity | lia].
Defined.

(** C9: for validated values and a signed-in user, the write is attempted
    and, whether it is rejected or not, the handler shows a notification of
    the default (non-destructive) variant, resets the form and closes the
    dialog; only the title and the description of the notification tell the
    two outcomes apart.  The same holds for the entry dialog. *)
Theorem C9_failed_write_reports_success
        (R : Remote) (en : Entropy)
        (onTripCreated onEntryCreated : option (result unit))
        (tripId : string)
        (tv : CreateTripDialog.TripFormValues)
        (tdata : CreateTripDialog.TripFormData)
        (ev : CreateEntryDialog.EntryFormValues)
        (edata : CreateEntryDialog.EntryFormData)
        (user : User) (w : World) :
  CreateTripDialog.tripSchema tv = Valid tdata ->
  CreateEntryDialog.entrySchema ev = Valid edata ->
  auth_me R (requests w) = Some user ->
  (exists tripData rest,
      CreateTripDialog.tripData_of en user tdata = Ok tripData
      /\ requests (after (CreateTripDialog.onSubmit R en onTripCreated tdata)
                         w)
         = requests w ++ [AuthMe; TripsCreate tripData]
      /\ ui (after (CreateTripDialog.onSubmit R en onTripCreated tdata) w)
         = ui w
           ++ [ SetLoading true;
                if trips_create R (requests w ++ [AuthMe]) tripData
                then Toast "Trip created successfully!"
                           ("Your trip to "
                            ++ CreateTripDialog.destination tdata
                            ++ " has been created.")%string VDefault
                else Toast "Trip created!"
                           ("Your trip to "
                            ++ CreateTripDialog.destination tdata
                            ++ " has been created (database not available).")%string
                           VDefault;
                FormReset; OnOpenChange false ]
           ++ rest)
  /\ (exists entryData rest,
         CreateEntryDialog.entryData_of en tripId user edata = Ok entryData
         /\ requests (after (CreateEntryDialog.onSubmit
                               R en tripId onEntryCreated edata) w)
            = requests w ++ [AuthMe; TripEntriesCreate entryData]
         /\ ui (after (CreateEntryDialog.onSubmit
                         R en tripId onEntryCreated edata) w)
            = ui w
              ++ [ SetLoading true;
                   if tripEntries_create R (requests w ++ [AuthMe]) entryData
                   then Toast "Entry added successfully!"
                              (CreateEntryDialog.title edata
                               ++ " has been added to your itinerary.")%string
                              VDefault
                   else Toast "Entry added!"
                              (CreateEntryDialog.title edata
                               ++ " has been added (database not available).")%string
                              VDefault;
                   FormReset; OnOpenChange false ]
              ++ rest).
Proof.
  intros Htrip Hentry Hauth. split.
  - destruct (tripSchema_valid tv tdata Htrip)
      as [s [e [_ [_ [Hs [He _]]]]]].
    assert (Htd : exists tripData,
               CreateTripDialog.tripData_of en user tdata = Ok tripData).
    { unfold CreateTripDialog.tripData_of. rewrite Hs, He.
      destruct (iso_day_valid s) as [sd ->].
      destruct (iso_day_valid e) as [ed ->].
      destruct (toISOString_valid (createdAt_clock en)) as [c ->].
      destruct (toISOString_valid (updatedAt_clock en)) as [u ->].
      eauto. }
    destruct Htd as [tripData Htd]. exists tripData.
    unfold CreateTripDialog.onSubmit, try_catch_finally, try_catch, bind,
      blink_auth_me, await, lift, after, blink_db_trips_create, await_write,
      call_optional, emit, console_log, console_error, record_call, ret.
    cbn [requests ui console isDatabaseAvailable]. rewrite Hauth, Htd.
    cbn [requests ui console isDatabaseAvailable].
    destruct (trips_create R (requests w ++ [AuthMe]) tripData);
      destruct onTripCreated as [[[]|x]|];
      cbn [requests ui console isDatabaseAvailable snd fst bind emit lift];
      eexists; (split; [reflexivity|]);
      (split; [now rewrite <- app_assoc|]);
      rewrite <- ?app_assoc; cbn [app]; reflexivity.
  - destruct (entrySchema_valid ev edata Hentry) as [t [Ht _]].
    assert (Htd : exists entryData,
               CreateEntryDialog.entryData_of en tripId user edata
               = Ok entryData).
    { unfold CreateEntryDialog.entryData_of. rewrite Ht.
      destruct (iso_day_valid t) as [d ->].
      destruct (toISOString_valid (createdAt_clock en)) as [c ->].
      destruct (toISOString_valid (updatedAt_clock en)) as [u ->].
      eauto. }
    destruct Htd as [entryData Htd]. exists entryData.
    unfold CreateEntryDialog.onSubmit, try_catch_finally, try_catch, bind,
      blink_auth_me, await, lift, after, blink_db_tripEntries_create,
      await_write, call_optional, emit, console_log, console_error,
      record_call, ret.
    cbn [requests ui console isDatabaseAvailable]. rewrite Hauth, Htd.
    cbn [requests ui console isDatabaseAvailable].
    destruct (tripEntries_create R (requests w ++ [AuthMe]) entryData);
      destruct onEntryCreated as [[[]|x]|];
      cbn [requests ui console isDatabaseAvailable snd fst bind emit lift];
      eexists; (split; [reflexivity|]);
      (split; [now rewrite <- app_assoc|]);
      rewrite <- ?app_assoc; cbn [app]; reflexivity.
Qed.

Lemma C9_failed_write_reports_success_witness :
  CreateTripDialog.tripSchema rome_trip = Valid rome_data
  /\ CreateEntryDialog.entrySchema colosseum = Valid colosseum_data
  /\ auth_me remote_readonly (requests initial_world) = Some (mkUser "alice")
  /\ (exists rest,
         ui (after (CreateTripDialog.onSubmit
                      remote_readonly sample_entropy None rome_data)
                   initial_world)
         = [ SetLoading true;
             Toast "Trip created!"
                   "Your trip to Rome, Italy has been created (database not available)."
                   VDefault;
             FormReset; OnOpenChange false ] ++ rest)
  /\ (exists rest,
         ui (after (CreateEntryDialog.onSubmit
                      remote_readonly sample_entropy "1" None colosseum_data)
                   initial_world)
         = [ SetLoading true;
             Toast "Entry added!"
                   "Colosseum has been added (database not available)."
                   VDefault;
             FormReset; OnOpenChange false ] ++ rest).
Proof.
  split; [reflexivity|]. split; [reflexivity|]. split; [reflexivity|].
  destruct (C9_failed_write_reports_success
              remote_readonly sample_entropy None None "1"
              rome_trip rome_data colosseum colosseum_data
              (mkUser "alice") initial_world eq_refl eq_refl eq_refl)
    as [[tripData [rest1 [_ [_ Hui1]]]] [entryData [rest2 [_ [_ Hui2]]]]].
  split; [exists rest1; exact Hui1 | exists rest2; exact Hui2].
Defined.

End DialogSpec.

(** * Further properties of the data-access layer *)
Module ServiceSpec.
Import Model Database DatabaseInit DatabaseNotions DatabaseSpec ServiceNotions.
Local Open Scope list_scope.

Lemma count_app (p : Call -> bool) (l1 l2 : list Call) :
  count p (l1 ++ l2) = (count p l1 + count p l2)%nat.
Proof. unfold count. now rewrite filter_app, length_app. Qed.

Section Facts.
Variable R : Remote.



End Facts.


(** The flag and the result of a first call. *)
Lemma getTrips_first_call_flag (R : Remote) (w : World) (userId : string) :
  isDatabaseAvailable w = None ->
  isDatabaseAvailable (after (getTrips R userId) w)
  = Some (match probe_succeeds R (requests w) with
          | Some _ => true
          | None => false
          end)
  /\ fst (getTrips R userId w)
     = Ok (match probe_succeeds R (requests w) with
           | Some user =>
               match trips_list R
                       (requests w
                        ++ [AuthMe; TripsList (probe_query (user_id user))])
                       (trips_query userId) with
               | Some l => l
               | None => fallback_trips userId
               end
           | None => fallback_trips userId
           end).
Proof.
  intros H.
  unfold after, getTrips, checkDatabaseAvailability, live, blink_auth_me,
    blink_db_trips_list, await, get_flag, set_flag, console_log,
    console_error, try_catch, bind, ret, record_call, probe_succeeds.
  rewrite H. cbn [requests isDatabaseAvailable].
  destruct (auth_me R (requests w)) as [user|]; [|split; reflexivity].
  cbn [requests isDatabaseAvailable bind].
  destruct (trips_list R (requests w ++ [AuthMe]) (probe_query (user_id user)));
    [|split; reflexivity].
  cbn [requests isDatabaseAvailable]. rewrite <- app_assoc. cbn [app].
  destruct (trips_list R
              (requests w ++ [AuthMe; TripsList (probe_query (user_id user))])
              (trips_query userId)); split; reflexivity.
Qed.

(** The first call of [getTrips], with the flag unset: the flag becomes true
    exactly when the probe succeeds; the result is the live list when the
    probe and then the query succeed, and the re-tagged seed list in every
    other case. *)
Theorem getTrips_first_call (R : Remote) (w : World) (userId : string) :
  isDatabaseAvailable w = None ->
  isDatabaseAvailable (after (getTrips R userId) w)
  = Some (match probe_succeeds R (requests w) with
          | Some _ => true
          | None => false
          end)
  /\ fst (getTrips R userId w)
     = Ok (match probe_succeeds R (requests w) with
           | Some user =>
               match trips_list R
                       (requests w
                        ++ [AuthMe; TripsList (probe_query (user_id user))])
                       (trips_query userId) with
               | Some l => l
               | None => fallback_trips userId
               end
           | None => fallback_trips userId
           end).
Proof. exact (getTrips_first_call_flag R w userId). Qed.

Lemma getTrips_first_call_witness :
  isDatabaseAvailable initial_world = None
  /\ isDatabaseAvailable (after (getTrips remote_flaky "alice") initial_world)
     = Some true
  /\ fst (getTrips remote_flaky "alice" initial_world)
     = Ok (fallback_trips "alice").
Proof.
  split; [reflexivity|].
  exact (getTrips_first_call remote_flaky initial_world "alice" eq_refl).
Defined.

(** [initializeDatabase] always resolves; it resolves with [true] exactly
    when the probe succeeds; and it leaves the memoised flag of the service
    as it was, so that it spares the service nothing. *)
Theorem initializeDatabase_resolves (R : Remote) (w : World) :
  exists w',
    initializeDatabase R w
    = (Ok (match probe_succeeds R (requests w) with
           | Some _ => true
           | None => false
           end), w')
    /\ isDatabaseAvailable w' = isDatabaseAvailable w
    /\ ui w' = ui w.
Proof.
  unfold initializeDatabase, blink_auth_me, blink_db_trips_list, await,
    console_log, try_catch, bind, ret, record_call, probe_succeeds.
  destruct (auth_me R (requests w)) as [user|]; [|eauto].
  cbn [requests isDatabaseAvailable].
  destruct (trips_list R (requests w ++ [AuthMe]) (probe_query (user_id user)));
    eauto.
Qed.

End ServiceSpec.

(** * Properties of the service when calls overlap *)
Module AsyncSpec.
Import Model Database DatabaseAsync DatabaseNotions ServiceNotions.
Import AsyncNotions.
Local Open Scope list_scope.



Lemma replace_nth_length {A} (i : nat) (a : A) (l : list A) :
  List.length (replace_nth i a l) = List.length l.
Proof.
  revert i. induction l as [|x l IH]; intros [|i]; cbn; auto.
Qed.

Section Facts.
Variable R : Remote.

(** ** A call that is awaited at once is a call of [Database] *)






(** ** What one turn sends *)


Lemma checked_not_probing (op : Op) (b : bool) :
  probing (checked op b) = false /\ awaiting_auth (checked op b) = false.
Proof. destruct op; split; reflexivity. Qed.

Lemma live_call_no_probe (op : Op) (c : Call) :
  live_call op = Some c -> is_auth c = false /\ is_probe_query c = false.
Proof. destruct op; intros [= <-]; split; reflexivity. Qed.

(** A resumed call: what it sends, and whether it was and is at
    [auth.me()]. *)
Lemma resume_effect (t : Task) (w : World) :
  exists added,
    requests (snd (resume R t w)) = requests w ++ added
    /\ count is_auth added = 0%nat
    /\ (count is_probe_query added
        + (if awaiting_auth (fst (resume R t w)) then 1 else 0)
        <= if awaiting_auth t then 1 else 0)%nat
    /\ (probing t = false ->
        probing (fst (resume R t w)) = false
        /\ isDatabaseAvailable (snd (resume R t w)) = isDatabaseAvailable w
        /\ count is_probe_query added = 0%nat).
Proof.
  assert (Hc : forall op b, probing (checked op b) = false
                            /\ awaiting_auth (checked op b) = false)
    by (intros [] ?; split; reflexivity).
  destruct t as [op [user|]|op [l|]|op [|]|op [v|]|op v];
    cbn [resume probe_failed fst snd requests isDatabaseAvailable
           awaiting_auth probing record_call].
  - eexists [_]. split; [reflexivity|]. split; [reflexivity|].
    split; [cbn; lia | discriminate].
  - exists []. rewrite app_nil_r. destruct (Hc op false) as [_ ->].
    split; [reflexivity|]. split; [reflexivity|].
    split; [cbn; lia | discriminate].
  - exists []. rewrite app_nil_r. destruct (Hc op true) as [_ ->].
    split; [reflexivity|]. split; [reflexivity|].
    split; [cbn; lia | discriminate].
  - exists []. rewrite app_nil_r. destruct (Hc op false) as [_ ->].
    split; [reflexivity|]. split; [reflexivity|].
    split; [cbn; lia | discriminate].
  - destruct (live_call op) as [c|] eqn:Hl;
      cbn [fst snd requests isDatabaseAvailable awaiting_auth probing
             record_call].
    + destruct (live_call_no_probe op c Hl) as [Ha Hp].
      exists [c]. unfold count. cbn [filter]. rewrite Ha, Hp.
      repeat split; cbn; lia.
    + exists []. rewrite app_nil_r. repeat split; cbn; lia.
  - exists []. rewrite app_nil_r. repeat split; cbn; lia.
  - exists []. rewrite app_nil_r. repeat split; cbn; lia.
  - exists []. rewrite app_nil_r. repeat split; cbn; lia.
  - exists []. rewrite app_nil_r. repeat split; cbn; lia.
Qed.



(** ** Once the flag is set and no probe is in flight *)

Lemma turn_settled (ev : Event) (pool : list Task) (w : World) (b : bool) :
  isDatabaseAvailable w = Some b ->
  Forall (fun t => probing t = false) pool ->
  isDatabaseAvailable (snd (turn R ev (pool, w))) = Some b
  /\ Forall (fun t => probing t = false) (fst (turn R ev (pool, w)))
  /\ exists added,
      requests (snd (turn R ev (pool, w))) = requests w ++ added
      /\ count is_auth added = 0%nat
      /\ count is_probe_query added = 0%nat.
Proof.
  intros Hf Hpool. destruct ev as [op|i]; cbn [turn fst snd].
  - unfold start. rewrite Hf. cbn [fst snd].
    split; [exact Hf|]. split.
    + apply Forall_app. split; [exact Hpool|].
      constructor; [apply checked_not_probing | constructor].
    + exists []. now rewrite app_nil_r.
  - destruct (nth_error pool i) as [t|] eqn:Hi.
    + assert (Ht : probing t = false).
      { rewrite Forall_forall in Hpool. eapply Hpool, nth_error_In, Hi. }
      destruct (resume_effect t w) as [added [Hr [Ha [_ Hs]]]].
      destruct (Hs Ht) as [Ht' [Hf' Hp]].
      destruct (resume R t w) as [t' w']. cbn [fst snd] in *.
      split; [congruence|]. split.
      * clear Hi. revert i. induction Hpool as [|x l Hx Hl IH]; intros i;
          destruct i; cbn; constructor; auto.
      * exists added. auto.
    + cbn [fst snd]. split; [exact Hf|]. split; [exact Hpool|].
      exists []. now rewrite app_nil_r.
Qed.

Lemma exec_settled (schedule : list Event) (pool : list Task) (w : World)
      (b : bool) :
  isDatabaseAvailable w = Some b ->
  Forall (fun t => probing t = false) pool ->
  isDatabaseAvailable (snd (exec R schedule (pool, w))) = Some b
  /\ Forall (fun t => probing t = false) (fst (exec R schedule (pool, w)))
  /\ exists added,
      requests (snd (exec R schedule (pool, w))) = requests w ++ added
      /\ count is_auth added = 0%nat
      /\ count is_probe_query added = 0%nat.
Proof.
  revert pool w. induction schedule as [|ev rest IH]; intros pool w Hf Hpool.
  - cbn. split; [exact Hf|]. split; [exact Hpool|].
    exists []. now rewrite app_nil_r.
  - destruct (turn_settled ev pool w b Hf Hpool)
      as [Hf1 [Hpool1 [a1 [Hr1 [Ha1 Hp1]]]]].
    cbn [exec fold_left]. fold (exec R rest (turn R ev (pool, w))).
    destruct (turn R ev (pool, w)) as [pool1 w1]. cbn [fst snd] in *.
    destruct (IH pool1 w1 Hf1 Hpool1) as [Hf2 [Hpool2 [a2 [Hr2 [Ha2 Hp2]]]]].
    split; [exact Hf2|]. split; [exact Hpool2|].
    exists (a1 ++ a2). rewrite Hr2, Hr1, app_assoc, !ServiceSpec.count_app.
    split; [reflexivity|]. lia.
Qed.

(** ** During an outage, with every earlier call resolved *)

Lemma replace_nth_same {A} (i : nat) (a : A) (l : list A) :
  nth_error l i = Some a -> replace_nth i a l = l.
Proof.
  revert i. induction l as [|x l IH]; intros [|i] H; try discriminate; cbn.
  - now injection H as ->.
  - now rewrite (IH i H).
Qed.

Lemma replace_nth_app {A} (i : nat) (a : A) (l1 l2 : list A) :
  (List.length l1 <= i)%nat ->
  replace_nth i a (l1 ++ l2) = l1 ++ replace_nth (i - List.length l1) a l2.
Proof.
  revert i. induction l1 as [|x l1 IH]; intros i Hi; cbn.
  - now rewrite Nat.sub_0_r.
  - destruct i as [|i]; [cbn in Hi; lia|]. cbn. rewrite IH; [reflexivity|].
    cbn in Hi. lia.
Qed.

Lemma Forall_replace_nth {A} (P : A -> Prop) (i : nat) (a : A)
      (l : list A) :
  P a -> Forall P l -> Forall P (replace_nth i a l).
Proof.
  intros Ha Hl. revert i. induction Hl as [|x l Hx Hl IH]; intros [|i]; cbn;
    constructor; auto.
Qed.

Lemma turn_outage (ev : Event) (pool started : list Task) (w : World) :
  isDatabaseAvailable w = Some false ->
  Forall (fun t => resolved t = true) pool ->
  Forall (fun t => exists op,
                     t = AwaitCheck op false \/ t = Resolved op (seed op))
         started ->
  exists started',
    turn R ev (pool ++ started, w) = (pool ++ started', w)
    /\ Forall (fun t => exists op,
                          t = AwaitCheck op false
                          \/ t = Resolved op (seed op)) started'.
Proof.
  intros Hf Hpool Hstarted. destruct ev as [op|i]; cbn [turn fst snd].
  - unfold start. rewrite Hf. exists (started ++ [checked op false]).
    rewrite app_assoc. split; [reflexivity|].
    apply Forall_app. split; [exact Hstarted|].
    constructor; [|constructor]. exists op. destruct op; cbn; auto.
  - destruct (nth_error (pool ++ started) i) as [t|] eqn:Hi;
      [|exists started; split; [reflexivity | exact Hstarted]].
    destruct (Nat.lt_ge_cases i (List.length pool)) as [Hlt|Hge].
    + rewrite nth_error_app1 in Hi by exact Hlt.
      assert (Ht : resolved t = true).
      { rewrite Forall_forall in Hpool. eapply Hpool, nth_error_In, Hi. }
      destruct t; try discriminate. cbn [resume].
      exists started. split; [|exact Hstarted].
      rewrite replace_nth_same; [reflexivity|].
      now rewrite nth_error_app1 by exact Hlt.
    + rewrite nth_error_app2 in Hi by exact Hge.
      assert (Ht : exists op, t = AwaitCheck op false
                              \/ t = Resolved op (seed op)).
      { rewrite Forall_forall in Hstarted.
        eapply Hstarted, nth_error_In, Hi. }
      destruct Ht as [op [->| ->]]; cbn [resume];
        rewrite replace_nth_app by exact Hge;
        eexists; (split; [reflexivity|]);
        apply Forall_replace_nth; eauto.
Qed.

Lemma exec_outage (schedule : list Event) (pool started : list Task)
      (w : World) :
  isDatabaseAvailable w = Some false ->
  Forall (fun t => resolved t = true) pool ->
  Forall (fun t => exists op,
                     t = AwaitCheck op false \/ t = Resolved op (seed op))
         started ->
  exists started',
    exec R schedule (pool ++ started, w) = (pool ++ started', w)
    /\ Forall (fun t => exists op,
                          t = AwaitCheck op false
                          \/ t = Resolved op (seed op)) started'.
Proof.
  intros Hf Hpool. revert started.
  induction schedule as [|ev rest IH]; intros started Hstarted.
  - exists started. split; [reflexivity | exact Hstarted].
  - destruct (turn_outage ev pool started w Hf Hpool Hstarted)
      as [s1 [Hturn Hs1]].
    cbn [exec fold_left]. rewrite Hturn. apply (IH s1 Hs1).
Qed.
End Facts.


(** Under any interleaving, once the flag is set and no call is left
    inside [checkDatabaseAvailability], the flag keeps its value and
    neither [auth.me()] nor the probe query is sent again.  If moreover the
    flag is false and every earlier call has resolved, the outage is
    permanent: whatever calls are made and in whatever order they run, the
    world is left exactly as it was (no request, no console line), and every
    call made is waiting to fall back or has resolved with the seed data.
    While a probe started earlier is in flight this is not so: a call made
    before the flag was set to false sets it to true when its own probe
    succeeds. *)
Theorem outage_permanent_once_settled
        (R : Remote) (schedule : list Event) (pool : list Task) (w : World)
        (b : bool) :
  isDatabaseAvailable w = Some b ->
  Forall (fun t => probing t = false) pool ->
  (isDatabaseAvailable (snd (exec R schedule (pool, w))) = Some b
   /\ Forall (fun t => probing t = false) (fst (exec R schedule (pool, w)))
   /\ exists added,
       requests (snd (exec R schedule (pool, w))) = requests w ++ added
       /\ count is_auth added = 0%nat
       /\ count is_probe_query added = 0%nat)
  /\ (b = false ->
      Forall (fun t => resolved t = true) pool ->
      exists started,
        exec R schedule (pool, w) = (pool ++ started, w)
        /\ Forall (fun t => exists op,
                              t = AwaitCheck op false
                              \/ t = Resolved op (seed op)) started)
  /\ (isDatabaseAvailable
        (snd (exec remote_hiccup (firstn 3 overlap) ([], initial_world)))
      = Some false
      /\ isDatabaseAvailable
           (snd (exec remote_hiccup overlap ([], initial_world)))
         = Some true).
Proof.
  intros Hf Hpool. split; [|split; [|split; reflexivity]].
  - now apply exec_settled.
  - intros -> Hres.
    destruct (exec_outage R schedule pool [] w Hf Hres (Forall_nil _))
      as [started [Hrun Hs]].
    rewrite app_nil_r in Hrun. exists started. auto.
Qed.

Lemma outage_permanent_once_settled_witness :
  isDatabaseAvailable unavailable_world = Some false
  /\ Forall (fun t => probing t = false)
            [Resolved (OpGetTrips "alice") (seed (OpGetTrips "alice"))]
  /\ exec remote_up
          [Invoke (OpGetTripEntries "1" "alice");
           Invoke (OpGetPackingItems "1" "alice"); Settle 2; Settle 1]
          ([Resolved (OpGetTrips "alice") (seed (OpGetTrips "alice"))],
           unavailable_world)
     = ([Resolved (OpGetTrips "alice") (seed (OpGetTrips "alice"));
         Resolved (OpGetTripEntries "1" "alice")
                  (seed (OpGetTripEntries "1" "alice"));
         Resolved (OpGetPackingItems "1" "alice")
                  (seed (OpGetPackingItems "1" "alice"))],
        unavailable_world).
Proof.
  assert (Hp : Forall (fun t => probing t = false)
                      [Resolved (OpGetTrips "alice")
                                (seed (OpGetTrips "alice"))])
    by (repeat constructor).
  split; [reflexivity|]. split; [exact Hp|].
  destruct (outage_permanent_once_settled remote_up
              [Invoke (OpGetTripEntries "1" "alice");
               Invoke (OpGetPackingItems "1" "alice"); Settle 2; Settle 1]
              [Resolved (OpGetTrips "alice") (seed (OpGetTrips "alice"))]
              unavailable_world false eq_refl Hp)
    as [_ [Hout _]].
  destruct (Hout eq_refl ltac:(repeat constructor)) as [started [Hrun _]].
  rewrite Hrun. vm_compute in Hrun. injection Hrun as <-. reflexivity.
Defined.

End AsyncSpec.

(** * Properties of the page loaders *)
Module LoaderSpec.
Import Model Database DatabaseNotions DatabaseSpec Page ServiceNotions.
Local Open Scope list_scope.

Section Facts.
Variable R : Remote.

(** Each reader resolves and leaves the flag set; when it leaves the flag
    false, what it returned is the seed data. *)
Lemma getTrips_ok (userId : string) (w : World) :
  exists l w',
    getTrips R userId w = (Ok l, w')
    /\ isDatabaseAvailable w' <> None
    /\ (isDatabaseAvailable w' = Some false -> l = fallback_trips userId).
Proof.
  destruct (check_resolves R w) as [b [w1 [Hc Hf]]].
  unfold getTrips, bind. rewrite Hc. unfold blink_db_trips_list.
  destruct (live_await (TripsList (trips_query userId))
              (fun h => trips_list R h (trips_query userId)) b w1)
    as [w2 [-> [Hf2 _]]].
  rewrite Hf in Hf2.
  destruct b.
  - destruct (trips_list R (requests w1) (trips_query userId)) as [l|];
      eexists; exists w2; (split; [reflexivity|]); split; congruence.
  - eexists; exists w2. split; [reflexivity|]. split; [congruence|].
    reflexivity.
Qed.

Lemma getTripEntries_ok (tripId userId : string) (w : World) :
  exists l w',
    getTripEntries R tripId userId w = (Ok l, w')
    /\ isDatabaseAvailable w' <> None
    /\ (isDatabaseAvailable w' = Some false ->
        l = fallback_tripEntries tripId).
Proof.
  destruct (check_resolves R w) as [b [w1 [Hc Hf]]].
  unfold getTripEntries, bind. rewrite Hc. unfold blink_db_tripEntries_list.
  destruct (live_await (TripEntriesList (tripEntries_query tripId userId))
              (fun h => tripEntries_list R h
                          (tripEntries_query tripId userId)) b w1)
    as [w2 [-> [Hf2 _]]].
  rewrite Hf in Hf2.
  destruct b.
  - destruct (tripEntries_list R (requests w1)
                (tripEntries_query tripId userId)) as [l|];
      eexists; exists w2; (split; [reflexivity|]); split; congruence.
  - eexists; exists w2. split; [reflexivity|]. split; [congruence|].
    reflexivity.
Qed.

Lemma getPackingItems_ok (tripId userId : string) (w : World) :
  exists l w',
    getPackingItems R tripId userId w = (Ok l, w')
    /\ isDatabaseAvailable w' <> None
    /\ (isDatabaseAvailable w' = Some false ->
        l = fallback_packingItems tripId).
Proof.
  destruct (check_resolves R w) as [b [w1 [Hc Hf]]].
  unfold getPackingItems, bind. rewrite Hc.
  unfold blink_db_packingItems_list.
  destruct (live_await (PackingItemsList (packingItems_query tripId userId))
              (fun h => packingItems_list R h
                          (packingItems_query tripId userId)) b w1)
    as [w2 [-> [Hf2 _]]].
  rewrite Hf in Hf2.
  destruct b.
  - destruct (packingItems_list R (requests w1)
                (packingItems_query tripId userId)) as [l|];
      eexists; exists w2; (split; [reflexivity|]); split; congruence.
  - eexists; exists w2. split; [reflexivity|]. split; [congruence|].
    reflexivity.
Qed.
End Facts.


(** [loadTripDetails] never rejects and ends with the loading flag cleared.
    It shows a trip only if the trip's id is the route parameter, and it
    shows entries only beside a trip.  When [auth.me()] rejects, it shows
    the not-found state and asks the service nothing. *)
Theorem loadTripDetails_state (R : Remote) (id : string)
        (s : TripDetailsPage.State) (w : World) :
  completion (TripDetailsPage.loadTripDetails R id) s w = Ok tt
  /\ TripDetailsPage.loading
       (state_after (TripDetailsPage.loadTripDetails R id) s w) = false
  /\ TripDetailsPage.showCreateEntry
       (state_after (TripDetailsPage.loadTripDetails R id) s w)
     = TripDetailsPage.showCreateEntry s
  /\ (forall t,
         TripDetailsPage.trip
           (state_after (TripDetailsPage.loadTripDetails R id) s w) = Some t ->
         trip_id t = id)
  /\ (TripDetailsPage.trip
        (state_after (TripDetailsPage.loadTripDetails R id) s w) = None ->
      TripDetailsPage.entries
        (state_after (TripDetailsPage.loadTripDetails R id) s w) = [])
  /\ (auth_me R (requests w) = None ->
      TripDetailsPage.trip
        (state_after (TripDetailsPage.loadTripDetails R id) s w) = None
      /\ requests (world_after (TripDetailsPage.loadTripDetails R id) s w)
         = requests w ++ [AuthMe]).
Proof.
  unfold completion, state_after, world_after,
    TripDetailsPage.loadTripDetails, htry, hbind, set, call, blink_auth_me,
    await, console_error, record_call.
  destruct (auth_me R (requests w)) as [user|] eqn:Hauth.
  - match goal with
    | |- context [getTrips R ?u ?w0] =>
        destruct (getTrips_ok R u w0) as [trips [w1 [-> _]]]
    end.
    destruct (Array_find (fun t => String.eqb (trip_id t) id) trips)
      as [found|] eqn:Hfind.
    + match goal with
      | |- context [getTripEntries R ?t ?u ?w0] =>
          destruct (getTripEntries_ok R t u w0) as [es [w2 [-> _]]]
      end.
      cbn. repeat split; try discriminate.
      intros t [= <-]. apply find_some in Hfind. now apply String.eqb_eq.
    + cbn. repeat split; discriminate.
  - cbn. repeat split; discriminate.
Qed.



(** [loadPackingList] never rejects and ends with the loading flag cleared.
    It shows a trip only if the trip's id is the route parameter, and items
    only beside a trip; every item it shows has a category that is not empty
    and the quantity 1.  When [auth.me()] rejects nothing is shown and the
    service is asked nothing. *)
Theorem loadPackingList_state (R : Remote) (tripId : string)
        (s : PackingListPage.State) (w : World) :
  completion (PackingListPage.loadPackingList R tripId) s w = Ok tt
  /\ PackingListPage.loading
       (state_after (PackingListPage.loadPackingList R tripId) s w) = false
  /\ (forall t,
         PackingListPage.trip
           (state_after (PackingListPage.loadPackingList R tripId) s w)
         = Some t ->
         trip_id t = tripId)
  /\ (PackingListPage.trip
        (state_after (PackingListPage.loadPackingList R tripId) s w) = None ->
      PackingListPage.items
        (state_after (PackingListPage.loadPackingList R tripId) s w) = [])
  /\ Forall (fun item => PackingList.category item <> ""
                         /\ PackingList.quantity item = 1%Z)
            (PackingListPage.items
               (state_after (PackingListPage.loadPackingList R tripId) s w))
  /\ (auth_me R (requests w) = None ->
      PackingListPage.trip
        (state_after (PackingListPage.loadPackingList R tripId) s w) = None
      /\ requests (world_after (PackingListPage.loadPackingList R tripId) s w)
         = requests w ++ [AuthMe]).
Proof.
  unfold completion, state_after, world_after,
    PackingListPage.loadPackingList, htry, hbind, set, call, blink_auth_me,
    await, console_error, record_call.
  destruct (auth_me R (requests w)) as [user|] eqn:Hauth.
  - match goal with
    | |- context [getTrips R ?u ?w0] =>
        destruct (getTrips_ok R u w0) as [trips [w1 [-> _]]]
    end.
    destruct (Array_find (fun t => String.eqb (trip_id t) tripId) trips)
      as [found|] eqn:Hfind.
    + match goal with
      | |- context [getPackingItems R ?t ?u ?w0] =>
          destruct (getPackingItems_ok R t u w0) as [its [w2 [-> _]]]
      end.
      cbn. repeat split; try discriminate.
      * intros t [= <-]. apply find_some in Hfind. now apply String.eqb_eq.
      * apply Forall_forall. intros item Hin. apply in_map_iff in Hin.
        destruct Hin as [stored [<- _]]. split; [|reflexivity].
        unfold PackingListPage.format_item, or_else. cbn.
        destruct (item_category stored) as [c|]; [|discriminate].
        destruct (String.eqb_spec c ""); [discriminate | assumption].
    + cbn. repeat split; try discriminate. constructor.
  - cbn. repeat split; try discriminate. constructor.
Qed.


End LoaderSpec.

(** * Properties of the packing list's item handlers *)
Module PackingItemsSpec.
Import Model Page PackingList PackingListPage PackingNotions.
Local Open Scope list_scope.

Lemma toggle_twice (itemId : string) (item : PackingItem) :
  (fun item =>
     if String.eqb (id item) itemId
     then mkPackingItem (id item) (itemName item) (category item)
                        (negb (isPacked item)) (quantity item) (notes item)
     else item)
    (if String.eqb (id item) itemId
     then mkPackingItem (id item) (itemName item) (category item)
                        (negb (isPacked item)) (quantity item) (notes item)
     else item)
  = item.
Proof.
  cbv beta. destruct (String.eqb (id item) itemId) eqn:H.
  - cbn [id]. rewrite H. destruct item; cbn. now rewrite negb_involutive.
  - now rewrite H.
Qed.

(** [togglePacked] flips the packed flag of the items whose id is the
    argument, of all of them when several share it, and changes nothing else:
    not the other items, nor the order, nor any other field.  Toggling twice
    restores the state. *)
Theorem togglePacked_involutive (itemId : string) (s : State) (w : World) :
  Forall2 (fun before after =>
             id after = id before
             /\ itemName after = itemName before
             /\ category after = category before
             /\ quantity after = quantity before
             /\ notes after = notes before
             /\ isPacked after
                = if String.eqb (id before) itemId
                  then negb (isPacked before) else isPacked before)
          (items s) (items (state_after (togglePacked itemId) s w))
  /\ state_after (togglePacked itemId)
                 (state_after (togglePacked itemId) s w) w = s
  /\ world_after (togglePacked itemId) s w = w.
Proof.
  unfold state_after, world_after, togglePacked, set, setItems. cbn.
  split; [|split; [|reflexivity]].
  - induction (items s) as [|item l IH]; cbn; constructor; [|exact IH].
    destruct (String.eqb (id item) itemId); cbn; auto 10.
  - destruct s as [t its l n c a b]. cbn. f_equal.
    rewrite map_map. rewrite <- (map_id its) at 2.
    apply map_ext. intros item. apply toggle_twice.
Qed.

(** [removeItem] removes every item whose id is the argument and keeps the
    others in their order; removing again changes no item; and the
    notification is shown whether or not an item was removed. *)
Theorem removeItem_removes (itemId : string) (s : State) (w : World) :
  Forall (fun item => id item <> itemId)
         (items (state_after (removeItem itemId) s w))
  /\ items (state_after (removeItem itemId) s w)
     = filter (fun item => negb (String.eqb (id item) itemId)) (items s)
  /\ (Forall (fun item => id item <> itemId) (items s) ->
      items (state_after (removeItem itemId) s w) = items s)
  /\ items (state_after (removeItem itemId)
                        (state_after (removeItem itemId) s w) w)
     = items (state_after (removeItem itemId) s w)
  /\ ui (world_after (removeItem itemId) s w)
     = ui w ++ [Toast "Item removed"
                      "Item has been removed from your packing list."
                      VDefault].
Proof.
  unfold state_after, world_after, removeItem, hbind, set, call, emit,
    setItems. cbn.
  assert (Hkeep : forall l : list PackingItem,
             Forall (fun item => id item <> itemId) l ->
             filter (fun item => negb (String.eqb (id item) itemId)) l = l).
  { induction 1 as [|item l Hi Hl IH]; cbn; [reflexivity|].
    apply String.eqb_neq in Hi. rewrite Hi. cbn. now rewrite IH. }
  assert (Hgone : Forall (fun item => id item <> itemId)
                    (filter (fun item => negb (String.eqb (id item) itemId))
                            (items s))).
  { apply Forall_forall. intros item Hin. apply filter_In in Hin.
    destruct Hin as [_ Hne]. now apply negb_true_iff, String.eqb_neq in Hne. }
  split; [exact Hgone|]. split; [reflexivity|].
  split; [apply Hkeep|]. split; [now apply Hkeep | reflexivity].
Qed.

Section Host.
Variable trim : string -> string.
Variable toLowerCase : string -> string.

(** [addItem] with a name that is blank after trimming changes nothing and
    shows nothing.  Otherwise it appends exactly one item (unpacked, of the
    selected category, named by the trimmed input), clears the input and
    shows one notification; the existing items and the number of packed
    items are as before. *)
Theorem addItem_appends (now : Z) (s : State) (w : World) :
  (trim (newItemName s) = "" ->
   state_after (addItem trim now) s w = s
   /\ world_after (addItem trim now) s w = w)
  /\ (trim (newItemName s) <> "" ->
      items (state_after (addItem trim now) s w)
      = items s
        ++ [mkPackingItem (JsDate.Number_toString now) (trim (newItemName s))
                          (selectedCategory s) false 1%Z None]
      /\ newItemName (state_after (addItem trim now) s w) = ""
      /\ packed_count (items (state_after (addItem trim now) s w))
         = packed_count (items s)
      /\ ui (world_after (addItem trim now) s w)
         = ui w ++ [Toast "Item added"
                          (trim (newItemName s)
                           ++ " has been added to your packing list.")%string
                          VDefault]).
Proof.
  unfold state_after, world_after, addItem.
  split.
  - intros ->. cbn. split; reflexivity.
  - intros Hne. apply String.eqb_neq in Hne. rewrite Hne.
    unfold hbind, set, call, emit, setItems, setNewItemName. cbn.
    split; [reflexivity|]. split; [reflexivity|]. split; [|reflexivity].
    unfold packed_count. rewrite filter_app, length_app. cbn. lia.
Qed.

Lemma map_indexed_map {A B C} (f : nat -> A -> B) (g : B -> C) (g' : A -> C)
      (k : nat) (l : list A) :
  (forall k a, g (f k a) = g' a) ->
  map g (map_indexed f k l) = map g' l.
Proof.
  intros H. revert k. induction l as [|a l IH]; intros k; cbn;
    [reflexivity|].
  now rewrite H, IH.
Qed.

Lemma map_indexed_Forall {A B} (f : nat -> A -> B) (P : A -> Prop)
      (Q : B -> Prop) (k : nat) (l : list A) :
  (forall k a, P a -> Q (f k a)) ->
  Forall P l -> Forall Q (map_indexed f k l).
Proof.
  intros H Hl. revert k. induction Hl as [|a l Ha Hl IH]; intros k; cbn;
    constructor; auto.
Qed.

(** The items derived from the suggestions: every one is unpacked and
    marked as a suggestion; none has a name whose lower-case form is that of
    an item of the page; and they are, in order, exactly the suggestions of
    which that is true, so that two suggestions of the same name are both
    kept. *)
Theorem newSuggestions_skips_existing
        (now : nat -> Z) (random : nat -> string)
        (items : list PackingItem) (suggestions : list Suggestion) :
  Forall (fun added =>
            isPacked (base added) = false
            /\ isAISuggestion added = true
            /\ forall item,
                In item items ->
                toLowerCase (itemName (base added))
                <> toLowerCase (itemName item))
         (newSuggestions toLowerCase now random items suggestions)
  /\ map (fun added => (itemName (base added), category (base added),
                        quantity (base added), notes (base added),
                        priority added))
         (newSuggestions toLowerCase now random items suggestions)
     = map (fun sg => (s_itemName sg, s_category sg, s_quantity sg,
                       s_notes sg, s_priority sg))
           (filter (fun sg =>
                      negb (existsb
                              (fun item =>
                                 String.eqb (toLowerCase (s_itemName sg))
                                            (toLowerCase (itemName item)))
                              items))
                   suggestions).
Proof.
  unfold newSuggestions.
  assert (Hsame : forall sg,
             existsb (String.eqb (toLowerCase (s_itemName sg)))
                     (map (fun item => toLowerCase (itemName item)) items)
             = existsb (fun item =>
                          String.eqb (toLowerCase (s_itemName sg))
                                     (toLowerCase (itemName item))) items).
  { intros sg. induction items as [|item l IH]; cbn; [reflexivity|].
    now rewrite IH. }
  rewrite (filter_ext _ _ (fun sg => f_equal negb (Hsame sg))).
  split.
  - apply (map_indexed_Forall _
             (fun sg => existsb
                          (fun item =>
                             String.eqb (toLowerCase (s_itemName sg))
                                        (toLowerCase (itemName item)))
                          items = false)).
    + intros k sg Hsg. cbn. split; [reflexivity|]. split; [reflexivity|].
      intros item Hin Heq.
      assert (Hex : existsb
                      (fun item =>
                         String.eqb (toLowerCase (s_itemName sg))
                                    (toLowerCase (itemName item)))
                      items = true).
      { apply existsb_exists. exists item. split; [exact Hin|].
        now apply String.eqb_eq. }
      congruence.
    + apply Forall_forall. intros sg Hin. apply filter_In in Hin.
      destruct Hin as [_ Hn]. now apply negb_true_iff in Hn.
  - apply map_indexed_map. reflexivity.
Qed.
End Host.

(** ** The category tabs *)

Lemma filter_disjoint_app {A} (f g : A -> bool) (l : list A) :
  (forall a, f a = true -> g a = false) ->
  Permutation (filter f l ++ filter g l)
              (filter (fun a => f a || g a) l).
Proof.
  intros H. induction l as [|a l IH]; cbn; [constructor|].
  destruct (f a) eqn:Hf; cbn.
  - rewrite (H a Hf). now constructor.
  - destruct (g a); [|exact IH].
    apply Permutation_sym, Permutation_cons_app, Permutation_sym, IH.
Qed.

Lemma tabs_cover (cats : list string) (items : list PackingItem) :
  NoDup cats ->
  Permutation
    (List.concat (map (fun c => getItemsByCategory items c) cats))
    (filter (fun item => existsb (String.eqb (category item)) cats) items).
Proof.
  induction 1 as [|c cs Hc Hcs IH]; cbn [map List.concat existsb].
  - induction items; cbn; [constructor | assumption].
  - eapply Permutation_trans; [apply Permutation_app_head, IH|].
    apply filter_disjoint_app. intros item Heq.
    apply String.eqb_eq in Heq.
    destruct (existsb (String.eqb (category item)) cs) eqn:Hex;
      [|reflexivity].
    apply existsb_exists in Hex. destruct Hex as [c' [Hin Hc']].
    apply String.eqb_eq in Hc'. congruence.
Qed.

Lemma tabs_concat (cats : list string) (items : list PackingItem) :
  List.concat
    (map snd
       (flat_map (fun c =>
                    if (0 <? List.length (getItemsByCategory items c))%nat
                    then [(c, getItemsByCategory items c)] else []) cats))
  = List.concat (map (fun c => getItemsByCategory items c) cats).
Proof.
  induction cats as [|c cs IH]; cbn [flat_map map List.concat];
    [reflexivity|].
  rewrite map_app, concat_app, IH. f_equal.
  destruct (getItemsByCategory items c); [reflexivity | apply app_nil_r].
Qed.

(** The category tabs: every tab is a known category with at least one
    item, and holds the items of that category in page order; together the
    tabs hold each item of a known category exactly once, and no item of any
    other category (such an item is counted and listed under All Items
    only). *)
Theorem category_tabs_partition (items : list PackingItem) :
  Forall (fun tab =>
            In (fst tab) categories
            /\ snd tab <> []
            /\ snd tab
               = filter (fun item => String.eqb (category item) (fst tab))
                        items)
         (category_tabs items)
  /\ Permutation
       (List.concat (map snd (category_tabs items)))
       (filter (fun item => existsb (String.eqb (category item)) categories)
               items).
Proof.
  split.
  - apply Forall_forall. intros [c its] Hin. unfold category_tabs in Hin.
    apply in_flat_map in Hin. destruct Hin as [c' [Hc' Hin]]. cbv zeta in Hin.
    destruct (getItemsByCategory items c') eqn:Hits; cbn in Hin;
      [destruct Hin|].
    destruct Hin as [[= <- <-]|[]]. cbn [fst snd].
    split; [exact Hc'|]. split; [discriminate | now rewrite <- Hits].
  - unfold category_tabs. cbv zeta. rewrite tabs_concat. apply tabs_cover.
    repeat constructor; cbn; intuition discriminate.
Qed.

End PackingItemsSpec.

(** * Properties of the map links *)
Module UrlSpec.
Import Model Page JsUri TripDetailsPage UriNotions.

Lemma escape_safe (c : ascii) :
  url_safe (hex_digit (N_of_ascii c / 16)) = true
  /\ url_safe (hex_digit (N_of_ascii c mod 16)) = true.
Proof.
  destruct c as [[] [] [] [] [] [] [] []]; split; reflexivity.
Qed.

Lemma escape_decodes (c : ascii) :
  hex_value (hex_digit (N_of_ascii c / 16)) = Some (N_of_ascii c / 16)%N
  /\ hex_value (hex_digit (N_of_ascii c mod 16))
     = Some (N_of_ascii c mod 16)%N
  /\ ascii_of_N (16 * (N_of_ascii c / 16) + N_of_ascii c mod 16) = c.
Proof.
  destruct c as [[] [] [] [] [] [] [] []]; repeat split; reflexivity.
Qed.

Lemma unreserved_not_percent (c : ascii) :
  unreserved c = true -> Ascii.eqb c "%" = false.
Proof.
  destruct (Ascii.eqb_spec c "%") as [->|]; [discriminate | reflexivity].
Qed.

Lemma encode_safe (s : string) :
  all_chars url_safe (encodeURIComponent s) = true.
Proof.
  induction s as [|c s IH]; cbn [encodeURIComponent]; [reflexivity|].
  destruct (unreserved c) eqn:Hc; cbn [all_chars].
  - unfold url_safe at 1. now rewrite Hc, IH.
  - destruct (escape_safe c) as [-> ->]. now rewrite IH.
Qed.

Lemma decode_encode (s : string) :
  percent_decode (encodeURIComponent s) = s.
Proof.
  induction s as [|c s IH]; cbn [encodeURIComponent]; [reflexivity|].
  destruct (unreserved c) eqn:Hc; cbn [percent_decode].
  - now rewrite (unreserved_not_percent c Hc), IH.
  - destruct (escape_decodes c) as [-> [-> ->]].
    cbn [Ascii.eqb Bool.eqb]. now rewrite IH.
Qed.

(** The map link is the fixed search address followed by the escaped query;
    the query is the address when there is one, else the location, else
    empty; whatever these strings contain, the escaped part holds only
    unreserved characters and [%], so that it cannot end the parameter or
    start another, and the query can be read back from it. *)
Theorem getGoogleMapsUrl_query (address location : option string) :
  exists q,
    getGoogleMapsUrl address location
    = "https://www.google.com/maps/search/?api=1&query=" ++ q
    /\ all_chars url_safe q = true
    /\ percent_decode q
       = match address with
         | Some a => if String.eqb a "" then or_else location "" else a
         | None => or_else location ""
         end.
Proof.
  exists (encodeURIComponent (or_else address (or_else location ""))).
  split; [reflexivity|]. split; [apply encode_safe|].
  rewrite decode_encode. reflexivity.
Qed.

(** The directions link is the fixed address with the two escaped
    addresses as its [origin] and [destination]: each holds only unreserved
    characters and [%], and each address can be read back from it. *)
Theorem getDirectionsUrl_parameters (fromAddress toAddress : string) :
  exists origin destination,
    getDirectionsUrl fromAddress toAddress
    = "https://www.google.com/maps/dir/?api=1&origin=" ++ origin
      ++ "&destination=" ++ destination
    /\ all_chars url_safe origin = true
    /\ all_chars url_safe destination = true
    /\ percent_decode origin = fromAddress
    /\ percent_decode destination = toAddress.
Proof.
  exists (encodeURIComponent fromAddress), (encodeURIComponent toAddress).
  split; [reflexivity|].
  rewrite !encode_safe, !decode_encode. repeat split.
Qed.

End UrlSpec.

(** * Properties of the submit handlers beyond the write itself *)
Module SubmitSpec.
Import Model JsDate Form.
Local Open Scope list_scope.
Local Open Scope Z_scope.
Import DialogNotions SubmitNotions.

Ltac run_handler :=
  unfold CreateTripDialog.onSubmit, CreateEntryDialog.onSubmit,
    call_optional, try_catch_finally, try_catch, blink_auth_me,
    blink_db_trips_create, blink_db_tripEntries_create, await, await_write,
    bind, lift, after, emit, console_log, console_error, record_call, ret;
  cbn [requests ui console isDatabaseAvailable fst snd].

(** When [blink.auth.me()] rejects, both submit handlers stop before the
    write: the only request is the one for the user, the notification is the
    destructive error, the form is not reset and the dialog is not closed,
    and the loading flag is set back. *)
Theorem onSubmit_signed_out
        (R : Remote) (en : Entropy)
        (onTripCreated onEntryCreated : option (result unit))
        (tripId : string)
        (tdata : CreateTripDialog.TripFormData)
        (edata : CreateEntryDialog.EntryFormData) (w : World) :
  auth_me R (requests w) = None ->
  CreateTripDialog.onSubmit R en onTripCreated tdata w
  = (Ok tt,
     mkWorld (isDatabaseAvailable w) (requests w ++ [AuthMe])
             (console w ++ [(Error, "Failed to create trip:"%string)])
             (ui w ++ [SetLoading true;
                       Toast "Error" "Failed to create trip. Please try again."
                             VDestructive;
                       SetLoading false]))
  /\ CreateEntryDialog.onSubmit R en tripId onEntryCreated edata w
     = (Ok tt,
        mkWorld (isDatabaseAvailable w) (requests w ++ [AuthMe])
                (console w ++ [(Error, "Failed to create entry:"%string)])
                (ui w ++ [SetLoading true;
                          Toast "Error"
                                "Failed to create entry. Please try again."
                                VDestructive;
                          SetLoading false])).
Proof.
  intros Hauth. split; run_handler; rewrite Hauth;
    cbn [requests ui console isDatabaseAvailable fst snd];
    rewrite <- !app_assoc; reflexivity.
Qed.

Lemma onSubmit_signed_out_witness :
  auth_me remote_signed_out (requests initial_world) = None
  /\ requests (after (CreateTripDialog.onSubmit
                        remote_signed_out sample_entropy None rome_data)
                     initial_world) = [AuthMe].
Proof.
  split; [reflexivity|].
  destruct (onSubmit_signed_out remote_signed_out sample_entropy None None
              "1"%string rome_data colosseum_data initial_world eq_refl)
    as [H _].
  unfold after. rewrite H. reflexivity.
Defined.

Lemma tripData_of_valid (en : Entropy) (user : User)
      (v : CreateTripDialog.TripFormValues)
      (data : CreateTripDialog.TripFormData) :
  CreateTripDialog.tripSchema v = Valid data ->
  exists tripData, CreateTripDialog.tripData_of en user data = Ok tripData.
Proof.
  intros Hv.
  destruct (DialogSpec.tripSchema_valid v data Hv)
    as [s [e [_ [_ [Hs [He _]]]]]].
  unfold CreateTripDialog.tripData_of. rewrite Hs, He.
  destruct (DialogSpec.iso_day_valid s) as [sd ->].
  destruct (DialogSpec.iso_day_valid e) as [ed ->].
  destruct (DialogSpec.toISOString_valid (createdAt_clock en)) as [c ->].
  destruct (DialogSpec.toISOString_valid (updatedAt_clock en)) as [u ->].
  eauto.
Qed.

(** When the parent's [onTripCreated] throws, after a write that
    succeeded, the user is shown both notifications: the success and then the
    destructive error; the trip has been written, the form has been reset
    and the dialog closed. *)
Theorem onSubmit_callback_throws
        (R : Remote) (en : Entropy) (e : exn)
        (v : CreateTripDialog.TripFormValues)
        (data : CreateTripDialog.TripFormData)
        (user : User) (w : World) :
  CreateTripDialog.tripSchema v = Valid data ->
  auth_me R (requests w) = Some user ->
  (forall t, trips_create R (requests w ++ [AuthMe]) t = true) ->
  exists tripData,
    CreateTripDialog.tripData_of en user data = Ok tripData
    /\ CreateTripDialog.onSubmit R en (Some (Throw e)) data w
       = (Ok tt,
          mkWorld (isDatabaseAvailable w)
                  (requests w ++ [AuthMe; TripsCreate tripData])
                  (console w ++ [(Error, "Failed to create trip:"%string)])
                  (ui w ++ [SetLoading true;
                            Toast "Trip created successfully!"
                                  ("Your trip to "
                                   ++ CreateTripDialog.destination data
                                   ++ " has been created.")%string VDefault;
                            FormReset; OnOpenChange false; OnCreated;
                            Toast "Error"
                                  "Failed to create trip. Please try again."
                                  VDestructive;
                            SetLoading false])).
Proof.
  intros Hv Hauth Hwrite.
  destruct (tripData_of_valid en user v data Hv) as [tripData Htd].
  exists tripData. split; [exact Htd|].
  run_handler. rewrite Hauth, Htd.
  cbn [requests ui console isDatabaseAvailable fst snd].
  rewrite Hwrite.
  cbn [requests ui console isDatabaseAvailable fst snd].
  rewrite <- !app_assoc. reflexivity.
Qed.

Lemma onSubmit_callback_throws_witness :
  CreateTripDialog.tripSchema rome_trip = Valid rome_data
  /\ auth_me DatabaseNotions.remote_up (requests initial_world)
     = Some (mkUser "alice")
  /\ exists tripData,
      CreateTripDialog.tripData_of sample_entropy (mkUser "alice") rome_data
      = Ok tripData
      /\ ui (after (CreateTripDialog.onSubmit DatabaseNotions.remote_up
                      sample_entropy (Some (Throw TypeError)) rome_data)
                   initial_world)
         = [SetLoading true;
            Toast "Trip created successfully!"
                  "Your trip to Rome, Italy has been created." VDefault;
            FormReset; OnOpenChange false; OnCreated;
            Toast "Error" "Failed to create trip. Please try again."
                  VDestructive;
            SetLoading false].
Proof.
  split; [reflexivity|]. split; [reflexivity|].
  destruct (onSubmit_callback_throws DatabaseNotions.remote_up sample_entropy
              TypeError rome_trip rome_data (mkUser "alice") initial_world
              eq_refl eq_refl (fun _ => eq_refl))
    as [tripData [Htd Hrun]].
  exists tripData. split; [exact Htd|].
  unfold after. rewrite Hrun. reflexivity.
Defined.

Ltac framed :=
  rewrite <- ?app_assoc; cbn [app];
  match goal with
  | |- exists events, ui ?w ++ _ :: ?l = _ => exists (removelast l)
  end; reflexivity.

Ltac no_write :=
  exists []; split; [reflexivity|]; split; [cbn; lia | reflexivity].

Ltac one_write c :=
  exists [c]; rewrite <- app_assoc;
  split; [reflexivity|]; split; [cbn; lia | reflexivity].

(** Whatever the remote, the clock, the callback and the data (including
    an invalid date), both submit handlers resolve; they change only the
    requests, the console and the interface; they ask for the user first
    and send at most one further request, a write; the loading flag is
    raised first and lowered last. *)
Theorem onSubmit_settles
        (R : Remote) (en : Entropy)
        (onTripCreated onEntryCreated : option (result unit))
        (tripId : string)
        (tdata : CreateTripDialog.TripFormData)
        (edata : CreateEntryDialog.EntryFormData) (w : World) :
  (let '(r, w') := CreateTripDialog.onSubmit R en onTripCreated tdata w in
   r = Ok tt
   /\ isDatabaseAvailable w' = isDatabaseAvailable w
   /\ (exists writes,
          requests w' = requests w ++ AuthMe :: writes
          /\ (List.length writes <= 1)%nat
          /\ forallb is_write writes = true)
   /\ exists events,
       ui w' = ui w ++ [SetLoading true] ++ events ++ [SetLoading false])
  /\ (let '(r, w') :=
        CreateEntryDialog.onSubmit R en tripId onEntryCreated edata w in
      r = Ok tt
      /\ isDatabaseAvailable w' = isDatabaseAvailable w
      /\ (exists writes,
             requests w' = requests w ++ AuthMe :: writes
             /\ (List.length writes <= 1)%nat
             /\ forallb is_write writes = true)
      /\ exists events,
          ui w' = ui w ++ [SetLoading true] ++ events ++ [SetLoading false]).
Proof.
  split; run_handler;
    (destruct (auth_me R (requests w)) as [user|];
     cbn [requests ui console isDatabaseAvailable fst snd];
     [|split; [reflexivity|]; split; [reflexivity|];
       split; [no_write | framed]]).
  - destruct (CreateTripDialog.tripData_of en user tdata) as [tripData|x];
      cbn [requests ui console isDatabaseAvailable fst snd].
    + destruct (trips_create R (requests w ++ [AuthMe]) tripData);
        destruct onTripCreated as [[[]|x]|];
        cbn [requests ui console isDatabaseAvailable fst snd];
        (split; [reflexivity|]); (split; [reflexivity|]);
        (split; [one_write (TripsCreate tripData) | framed]).
    + split; [reflexivity|]. split; [reflexivity|].
      split; [no_write | framed].
  - destruct (CreateEntryDialog.entryData_of en tripId user edata)
      as [entryData|x];
      cbn [requests ui console isDatabaseAvailable fst snd].
    + destruct (tripEntries_create R (requests w ++ [AuthMe]) entryData);
        destruct onEntryCreated as [[[]|x]|];
        cbn [requests ui console isDatabaseAvailable fst snd];
        (split; [reflexivity|]); (split; [reflexivity|]);
        (split; [one_write (TripEntriesCreate entryData) | framed]).
    + split; [reflexivity|]. split; [reflexivity|].
      split; [no_write | framed].
Qed.

Lemma string_min1_nil (path msg s : string) :
  string_min1 path msg s = [] <-> s <> ""%string.
Proof.
  unfold string_min1. destruct s; cbn; split; congruence.
Qed.

(** What the two schemas accept.  The trip schema accepts exactly the
    values with a title and a destination that are not empty and two valid
    dates of which the end is not before the start.  The entry schema
    accepts exactly the values with a title and a category that are not
    empty and a valid date; start and end time are not compared.  In both
    cases the data handed to the handler are the values of the form. *)
Theorem schemas_accept
        (tv : CreateTripDialog.TripFormValues)
        (tdata : CreateTripDialog.TripFormData)
        (ev : CreateEntryDialog.EntryFormValues)
        (edata : CreateEntryDialog.EntryFormData) :
  (CreateTripDialog.tripSchema tv = Valid tdata
   <-> (CreateTripDialog.v_title tv <> ""%string
        /\ CreateTripDialog.v_destination tv <> ""%string
        /\ exists s e,
            CreateTripDialog.v_startDate tv = Some (Some s)
            /\ CreateTripDialog.v_endDate tv = Some (Some e)
            /\ s <= e
            /\ tdata = CreateTripDialog.mkTripFormData
                         (CreateTripDialog.v_title tv)
                         (CreateTripDialog.v_description tv)
                         (CreateTripDialog.v_destination tv)
                         (Some s) (Some e)))
  /\ (CreateEntryDialog.entrySchema ev = Valid edata
      <-> (CreateEntryDialog.v_title ev <> ""%string
           /\ CreateEntryDialog.v_category ev <> ""%string
           /\ exists t,
               CreateEntryDialog.v_date ev = Some (Some t)
               /\ edata = CreateEntryDialog.mkEntryFormData
                            (CreateEntryDialog.v_title ev)
                            (CreateEntryDialog.v_description ev)
                            (CreateEntryDialog.v_location ev)
                            (CreateEntryDialog.v_address ev)
                            (Some t)
                            (CreateEntryDialog.v_startTime ev)
                            (CreateEntryDialog.v_endTime ev)
                            (CreateEntryDialog.v_category ev))).
Proof.
  split.
  - unfold CreateTripDialog.tripSchema. split.
    + destruct (CreateTripDialog.v_startDate tv) as [[s|]|];
        try discriminate;
        destruct (CreateTripDialog.v_endDate tv) as [[e|]|];
        try discriminate.
      cbn [CreateTripDialog.endDate CreateTripDialog.startDate date_ge
             date_le].
      cbv zeta.
      match goal with
      | |- context [match ?l with [] => _ | _ :: _ => _ end] =>
          destruct l eqn:Happ
      end; [|discriminate].
      apply app_eq_nil in Happ. destruct Happ as [Hstr Href].
      apply app_eq_nil in Hstr. destruct Hstr as [Ht Hd].
      apply string_min1_nil in Ht, Hd.
      destruct (Z.leb_spec s e) as [Hle|_]; [|discriminate].
      intros [= <-]. split; [exact Ht|]. split; [exact Hd|].
      exists s, e. auto.
    + intros [Ht [Hd [s [e [-> [-> [Hle ->]]]]]]].
      cbn [CreateTripDialog.endDate CreateTripDialog.startDate date_ge
             date_le].
      cbv zeta.
      rewrite (proj2 (string_min1_nil "title" "Title is required" _) Ht).
      rewrite (proj2 (string_min1_nil "destination"
                        "Destination is required" _) Hd).
      apply Z.leb_le in Hle. rewrite Hle. reflexivity.
  - unfold CreateEntryDialog.entrySchema. cbv zeta. split.
    + destruct (CreateEntryDialog.v_date ev) as [[t|]|]; cbn [z_date];
        [|discriminate..].
      match goal with
      | |- context [match ?l with [] => _ | _ :: _ => _ end] =>
          destruct l eqn:Happ
      end; [|discriminate].
      apply app_eq_nil in Happ. destruct Happ as [Ht Hc].
      cbn [app] in Hc. apply string_min1_nil in Ht, Hc.
      intros [= <-]. split; [exact Ht|]. split; [exact Hc|].
      exists t. auto.
    + intros [Ht [Hc [t [-> ->]]]]. cbn [z_date app].
      rewrite (proj2 (string_min1_nil "title" "Title is required" _) Ht).
      rewrite (proj2 (string_min1_nil "category" "Category is required" _)
                 Hc).
      reflexivity.
Qed.

End SubmitSpec.

(** * Properties of the text parser dialog *)
Module ParserSpec.
Import Model Page Form TextParserDialog.
Local Open Scope list_scope.
Import ParserNotions.

Ltac run_create :=
  unfold handleCreateTrip, world_after, state_after, completion, htry,
    call_optional, hbind, call, set, blink_auth_me, await, bind, lift, emit,
    console_log, console_error, record_call, ret;
  cbn [requests ui console isDatabaseAvailable fst snd].

(** With a parsed trip under review and a signed-in user,
    [handleCreateTrip] announces that the trip has been created, with the
    number of its entries, closes the dialog and clears the text and the
    parsed trip, although the only request it has sent is the one for the
    user: the parsed trip and its entries are stored nowhere. *)
Theorem handleCreateTrip_discards_parsed_trip
        (R : Remote) (onTripCreated : option (result unit))
        (s : State) (w : World) (parsed : ParsedTrip) (user : User) :
  parsedTrip s = Some parsed ->
  auth_me R (requests w) = Some user ->
  requests (world_after (handleCreateTrip R onTripCreated) s w)
  = requests w ++ [AuthMe]
  /\ state_after (handleCreateTrip R onTripCreated) s w
     = mkState "" false None
  /\ exists rest,
      ui (world_after (handleCreateTrip R onTripCreated) s w)
      = ui w
        ++ [Toast "Trip created successfully!"
                  ("Your trip " ++ double_quote ++ pt_title parsed
                   ++ double_quote ++ " has been created with "
                   ++ JsDate.Number_toString
                        (Z.of_nat (List.length (pt_entries parsed)))
                   ++ " entries.")%string
                  VDefault;
            OnOpenChange false]
        ++ rest.
Proof.
  intros Hparsed Hauth. run_create. rewrite Hparsed, Hauth.
  destruct onTripCreated as [[[]|x]|];
    cbn [requests ui console isDatabaseAvailable fst snd];
    (split; [reflexivity|]); (split; [reflexivity|]);
    rewrite <- ?app_assoc; cbn [app];
    match goal with
    | |- exists rest, ui w ++ _ :: _ :: ?l = _ => exists l
    end; reflexivity.
Qed.

Lemma handleCreateTrip_discards_parsed_trip_witness :
  parsedTrip reviewed = Some parsed_lisbon
  /\ auth_me DatabaseNotions.remote_up (requests initial_world)
     = Some (mkUser "alice")
  /\ requests (world_after (handleCreateTrip DatabaseNotions.remote_up None)
                           reviewed initial_world)
     = [AuthMe]
  /\ parsedTrip (state_after (handleCreateTrip DatabaseNotions.remote_up None)
                             reviewed initial_world)
     = None.
Proof.
  split; [reflexivity|]. split; [reflexivity|].
  destruct (handleCreateTrip_discards_parsed_trip DatabaseNotions.remote_up
              None reviewed initial_world parsed_lisbon (mkUser "alice")
              eq_refl eq_refl) as [Hreq [Hstate _]].
  split; [exact Hreq|]. rewrite Hstate. reflexivity.
Defined.

Section Host.
Variable trim : string -> string.
Variable ai_generateObject : string -> option ParsedTrip.

(** Neither handler of the dialog sends a write.  [handleParse] always
    resolves, sends no request and keeps the text: a text that is blank
    after trimming is refused with the destructive notification and the
    state is unchanged, whatever the parser would answer; otherwise the
    loading flag ends down, a parsed object replaces the trip under review,
    and a failure of the parser keeps the trip that was under review and
    shows the destructive notification.  [handleCreateTrip], whatever the
    state, the remote and the callback, adds no request, or the single one
    for the user. *)
Theorem parser_dialog_sends_no_write
        (R : Remote) (onTripCreated : option (result unit))
        (s : State) (w : World) :
  (let s' := state_after (handleParse trim ai_generateObject) s w in
   let w' := world_after (handleParse trim ai_generateObject) s w in
   completion (handleParse trim ai_generateObject) s w = Ok tt
   /\ requests w' = requests w
   /\ text s' = text s
   /\ (trim (text s) = ""%string ->
       s' = s
       /\ ui w' = ui w
                  ++ [Toast "Error"
                            "Please enter some travel information to parse."
                            VDestructive])
   /\ (trim (text s) <> ""%string ->
       loading s' = false
       /\ match ai_generateObject (text s) with
          | Some object => parsedTrip s' = Some object /\ ui w' = ui w
          | None =>
              parsedTrip s' = parsedTrip s
              /\ ui w' = ui w
                         ++ [Toast "Error"
                                   "Failed to parse travel information. Please try again."
                                   VDestructive]
          end))
  /\ (requests (world_after (handleCreateTrip R onTripCreated) s w)
      = requests w
      \/ requests (world_after (handleCreateTrip R onTripCreated) s w)
         = requests w ++ [AuthMe]).
Proof.
  split.
  - unfold handleParse, world_after, state_after, completion, htry,
      hbind, call, set, lift, emit, console_error.
    destruct (String.eqb_spec (trim (text s)) "") as [Hblank|Hfull].
    + cbn. repeat split; try reflexivity; intros; congruence.
    + destruct (ai_generateObject (text s)) as [object|]; cbn;
        repeat split; try reflexivity; intros; congruence.
  - run_create.
    destruct (parsedTrip s) as [parsed|]; [|now left].
    destruct (auth_me R (requests w)) as [user|];
      [destruct onTripCreated as [[[]|x]|]|];
      cbn [requests ui console isDatabaseAvailable fst snd]; now right.
Qed.
End Host.

End ParserSpec.

(** * Properties of the timeline and the list view as a whole *)
Module ViewSpec.
Import Model JsDate JsArray JsObject TripDetails TripDetailsPage.
Import GroupingNotions TimelineNotions ViewNotions.
Local Open Scope list_scope.

Lemma concat_perm {A B} (f g : A -> list B) (l : list A) :
  (forall x, In x l -> Permutation (f x) (g x)) ->
  Permutation (List.concat (map f l)) (List.concat (map g l)).
Proof.
  induction l as [|x l IH]; intros H; cbn; [constructor|].
  apply Permutation_app; [apply H; now left|].
  apply IH. intros y Hy. apply H. now right.
Qed.

Lemma leb_neq_ltb (a b : string) :
  String.leb a b = true -> a <> b -> String.ltb a b = true.
Proof.
  unfold String.leb, String.ltb.
  destruct (String.compare a b) eqn:Hc; try congruence.
  apply String.compare_eq_iff in Hc. congruence.
Qed.

Lemma sorted_NoDup_strict (l : list string) :
  StronglySorted (fun a b => String.leb a b = true) l -> NoDup l ->
  StronglySorted (fun a b => String.ltb a b = true) l.
Proof.
  induction 1 as [|x l Hs IH Hx]; intros Hnd; constructor;
    inversion Hnd as [|? ? Hnotin Hnd']; subst.
  - now apply IH.
  - rewrite Forall_forall in *. intros y Hy.
    apply leb_neq_ltb; [now apply Hx|]. intros ->. contradiction.
Qed.

Lemma sort_strings_sorted (l : list string) :
  StronglySorted (fun a b => String.leb a b = true) (sort_strings l).
Proof.
  unfold sort_strings.
  apply (SortSpec.sort_sorted _ (fun _ => True)).
  - intros x y _ _. unfold String.leb.
    destruct (String.compare x y); cbn; split; congruence.
  - intros x y _ _. apply String.leb_total.
  - intros x y z. apply SortSpec.leb_trans.
  - apply Forall_forall. auto.
Qed.

Lemma compare_refl (a : string) : String.compare a a = Eq.
Proof. now apply OrderedTypeEx.String_as_OT.cmp_eq. Qed.

Lemma compare_lt_trans (a b c : string) :
  String.compare a b = Lt -> String.compare b c = Lt ->
  String.compare a c = Lt.
Proof.
  intros Hab Hbc.
  apply OrderedTypeEx.String_as_OT.cmp_lt in Hab, Hbc.
  pose proof (OrderedTypeEx.String_as_OT.lt_trans _ _ _ Hab Hbc) as Hac.
  now apply OrderedTypeEx.String_as_OT.cmp_lt in Hac.
Qed.

Lemma date_time_le_trans (x y z : TripEntry) :
  date_time_le x y -> date_time_le y z -> date_time_le x z.
Proof.
  unfold date_time_le.
  destruct (String.compare (entry_date x) (entry_date y)) eqn:Hxy;
    [| |contradiction];
    (destruct (String.compare (entry_date y) (entry_date z)) eqn:Hyz;
     [| |contradiction]).
  - apply String.compare_eq_iff in Hxy, Hyz. rewrite Hxy, Hyz, compare_refl.
    apply SortSpec.leb_trans.
  - apply String.compare_eq_iff in Hxy. rewrite Hxy, Hyz. auto.
  - apply String.compare_eq_iff in Hyz. rewrite <- Hyz, Hxy. auto.
  - rewrite (compare_lt_trans _ _ _ Hxy Hyz). auto.
Qed.

Lemma date_time_le_total (x y : TripEntry) :
  date_time_le x y \/ date_time_le y x.
Proof.
  unfold date_time_le.
  rewrite (String.compare_antisym (entry_date y) (entry_date x)).
  destruct (String.compare (entry_date x) (entry_date y)) eqn:Hxy; cbn;
    [apply String.leb_total | now left | now right].
Qed.

(** ** Stability: the elements of a class closed under ties keep their
    order *)
Section Stable.
Context {A : Type}.
Variable comparefn : A -> A -> Z.
Variable p : A -> bool.

Lemma insert_filter (x : A) (l : list A) :
  (forall y, In y l -> p x = true -> p y = true ->
             (comparefn x y <=? 0)%Z = true) ->
  filter p (insert comparefn x l) = filter p (x :: l).
Proof.
  induction l as [|y l IH]; intros Hties; [reflexivity|].
  cbn [insert]. destruct (comparefn x y <=? 0)%Z eqn:Hc; [reflexivity|].
  assert (IH' : filter p (insert comparefn x l) = filter p (x :: l)).
  { apply IH. intros z Hz. apply Hties. now right. }
  cbn [filter] in *. rewrite IH'.
  destruct (p x) eqn:Hx, (p y) eqn:Hy; try reflexivity.
  rewrite (Hties y (or_introl eq_refl) eq_refl Hy) in Hc. discriminate.
Qed.

Lemma sort_stable (l : list A) :
  (forall x y, In x l -> In y l -> p x = true -> p y = true ->
               (comparefn x y <=? 0)%Z = true) ->
  filter p (sort comparefn l) = filter p l.
Proof.
  induction l as [|x l IH]; intros Hties; [reflexivity|].
  cbn [sort fold_right]. fold (sort comparefn l).
  rewrite insert_filter.
  - cbn [filter]. rewrite IH; [reflexivity|].
    intros a b Ha Hb. apply Hties; now right.
  - intros y Hy. apply Hties; [now left|]. right.
    eapply Permutation_in; [apply Permutation_sym, SortSpec.sort_perm|].
    exact Hy.
Qed.
End Stable.

Section Host.
Variable localeCompare : string -> string -> Z.

Lemma timeline_tabulate (entries : list TripEntry) (ks sub : list string) :
  (forall k, In k sub -> In k ks) ->
  flat_map (fun date =>
              match own date (tabulate (fun k => on_date k entries) ks) with
              | Some group => [(date, timeline_group localeCompare group)]
              | None => []
              end) sub
  = map (fun d => (d, timeline_group localeCompare (on_date d entries))) sub.
Proof.
  induction sub as [|k sub IH]; intros Hsub; cbn [flat_map map];
    [reflexivity|].
  rewrite (GroupingSpec.own_tabulate_in _ ks k) by (apply Hsub; now left).
  cbn [app]. f_equal. apply IH. intros k' Hk'. apply Hsub. now right.
Qed.

(** The timeline of the page, from the entries to the cards: for entries
    whose dates are plain keys, grouping succeeds and the timeline built
    from the groups has one heading per distinct date, the headings in
    strictly ascending code-unit order (which for [YYYY-MM-DD] is the order
    of the calendar); the cards under a heading are the entries of that
    date; and every entry is a card exactly once.  None of this depends on
    the host's collation. *)
Theorem timeline_of_entries (entries : list TripEntry) :
  Forall (fun e => plain_key (entry_date e) = true) entries ->
  exists groups,
    groupEntriesByDate entries = Ok groups
    /\ let shown := timeline localeCompare groups in
       StronglySorted (fun a b => String.ltb a b = true) (map fst shown)
       /\ (forall d, In d (map fst shown) <-> In d (map entry_date entries))
       /\ (forall d cards, In (d, cards) shown ->
                           Permutation (on_date d entries) cards)
       /\ Permutation (List.concat (map snd shown)) entries.
Proof.
  intros Hplain.
  assert (Hproto : Forall (fun e => inherited (entry_date e) = false) entries).
  { eapply Forall_impl; [|exact Hplain]. cbn. intros e He.
    apply andb_true_iff in He. now apply negb_true_iff. }
  set (ks := first_occurrences (map entry_date entries)).
  assert (Hkeys : Object_keys (grouped entries) = ks).
  { rewrite GroupingSpec.Object_keys_plain;
      [apply GroupingSpec.map_fst_tabulate|].
    apply Forall_forall. intros [k g] Hin. cbn [fst].
    apply in_map_iff in Hin. destruct Hin as [k' [Hk' Hin]].
    injection Hk' as -> _.
    apply GroupingSpec.in_first_occurrences, in_map_iff in Hin.
    destruct Hin as [e [<- He]].
    rewrite Forall_forall in Hplain. specialize (Hplain e He).
    apply andb_true_iff in Hplain.
    destruct (array_index (entry_date e));
      [now destruct Hplain | reflexivity]. }
  exists (grouped entries).
  split; [now apply GroupingSpec.groupEntriesByDate_grouped|].
  cbv zeta. unfold timeline. rewrite Hkeys.
  pose proof (SortSpec.sort_perm (fun a b => sign (String.compare a b)) ks)
    as Hperm.
  fold (sort_strings ks) in Hperm.
  change (grouped entries) with (tabulate (fun k => on_date k entries) ks).
  rewrite (timeline_tabulate entries ks (sort_strings ks))
    by (intros k Hk; eapply Permutation_in;
        [apply Permutation_sym, Hperm | exact Hk]).
  rewrite !map_map. cbn [fst snd]. rewrite map_id.
  assert (Hnd : NoDup (sort_strings ks)).
  { eapply Permutation_NoDup; [exact Hperm|].
    apply GroupingSpec.NoDup_first_occurrences. }
  split; [|split; [|split]].
  - apply sorted_NoDup_strict; [apply sort_strings_sorted | exact Hnd].
  - intros d. rewrite <- (GroupingSpec.in_first_occurrences
                            (map entry_date entries) d).
    fold ks. split; intros H.
    + eapply Permutation_in; [apply Permutation_sym, Hperm | exact H].
    + eapply Permutation_in; [exact Hperm | exact H].
  - intros d cards Hin. apply in_map_iff in Hin.
    destruct Hin as [d' [Heq _]]. injection Heq as -> <-.
    apply SortSpec.sort_perm.
  - eapply Permutation_trans.
    + apply (concat_perm _ (fun d => on_date d entries)).
      intros d _. apply Permutation_sym, SortSpec.sort_perm.
    + apply GroupingSpec.groups_cover; [exact Hnd|].
      intros e He. eapply Permutation_in; [exact Hperm|].
      apply GroupingSpec.in_first_occurrences, in_map, He.
Qed.

(** On the strings the entries carry, the host's collation orders as the
    code units do. *)
Variable known : string -> Prop.
Hypothesis localeCompare_known :
  forall a b, known a -> known b ->
              (localeCompare a b ?= 0)%Z = String.compare a b.

Lemma by_date_then_startTime_le (x y : TripEntry) :
  known (entry_date x) -> known (entry_date y) ->
  known (or_empty (entry_startTime x)) ->
  known (or_empty (entry_startTime y)) ->
  (by_date_then_startTime localeCompare x y <=? 0)%Z = true
  <-> date_time_le x y.
Proof.
  intros Hdx Hdy Htx Hty. unfold by_date_then_startTime, date_time_le.
  cbv zeta.
  pose proof (localeCompare_known _ _ Hdx Hdy) as Hd.
  pose proof (localeCompare_known _ _ Htx Hty) as Ht.
  unfold Z.leb, Z.eqb in *.
  destruct (localeCompare (entry_date x) (entry_date y)) eqn:Hdc;
    cbn in Hd; rewrite <- Hd; cbn.
  - unfold String.leb. rewrite <- Ht.
    destruct (localeCompare (or_empty (entry_startTime x))
                            (or_empty (entry_startTime y)));
      cbn; split; congruence.
  - split; [discriminate | contradiction].
  - split; auto.
Qed.

(** The list view shows every entry exactly once, ascending by date and,
    within a date, by start time (a missing one first); entries of the
    same date and start time keep the order in which they were loaded. *)
Theorem list_view_sorted (entries : list TripEntry) :
  Forall (fun e => known (entry_date e)
                   /\ known (or_empty (entry_startTime e))) entries ->
  Permutation entries (list_view localeCompare entries)
  /\ StronglySorted date_time_le (list_view localeCompare entries)
  /\ forall d t,
      filter (same_slot d t) (list_view localeCompare entries)
      = filter (same_slot d t) entries.
Proof.
  intros Hknown. unfold list_view.
  split; [apply SortSpec.sort_perm|]. split.
  - apply (SortSpec.sort_sorted _
             (fun e => known (entry_date e)
                       /\ known (or_empty (entry_startTime e))));
      [| | |exact Hknown].
    + intros x y [Hdx Htx] [Hdy Hty]. now apply by_date_then_startTime_le.
    + intros x y _ _. apply date_time_le_total.
    + apply date_time_le_trans.
  - intros d t. apply sort_stable. intros x y Hx Hy Hpx Hpy.
    rewrite Forall_forall in Hknown.
    destruct (Hknown x Hx) as [Hdx Htx]. destruct (Hknown y Hy) as [Hdy Hty].
    apply by_date_then_startTime_le; try assumption.
    unfold same_slot in Hpx, Hpy.
    apply andb_true_iff in Hpx, Hpy.
    destruct Hpx as [Hxd Hxt], Hpy as [Hyd Hyt].
    apply String.eqb_eq in Hxd, Hxt, Hyd, Hyt.
    unfold date_time_le. rewrite Hxd, Hyd, Hxt, Hyt, compare_refl.
    unfold String.leb. now rewrite compare_refl.
Qed.

(** Under one date heading of the timeline, and among the cards of the
    selected date of the calendar, the entries with the same start time keep
    the order of the group: sorting never reorders a tie. *)
Theorem cards_ties_keep_order
        (group : list TripEntry) (entries : list CalendarView.TripEntry)
        (dateString t : string) :
  known t ->
  filter (same_time t) (timeline_group localeCompare group)
  = filter (same_time t) group
  /\ filter (fun e => String.eqb (or_empty (CalendarView.startTime e)) t)
            (CalendarView.selected_date_cards localeCompare entries
                                              dateString)
     = filter (fun e => String.eqb (or_empty (CalendarView.startTime e)) t)
              (CalendarView.getEntriesForDate entries dateString).
Proof.
  intros Ht.
  assert (Htie : (localeCompare t t <=? 0)%Z = true).
  { unfold Z.leb. now rewrite (localeCompare_known t t Ht Ht), compare_refl. }
  split.
  - unfold timeline_group. apply sort_stable. intros x y _ _ Hx Hy.
    unfold same_time in Hx, Hy. apply String.eqb_eq in Hx, Hy.
    unfold by_startTime. now rewrite Hx, Hy.
  - unfold CalendarView.selected_date_cards. apply sort_stable.
    intros x y _ _ Hx Hy. apply String.eqb_eq in Hx, Hy.
    unfold CalendarView.by_startTime. now rewrite Hx, Hy.
Qed.

End Host.

Lemma timeline_of_entries_witness :
  Forall (fun e => plain_key (entry_date e) = true) Database.mockTripEntries
  /\ exists groups,
      groupEntriesByDate Database.mockTripEntries = Ok groups
      /\ map fst (timeline code_unit_collation groups)
         = ["2024-03-15"; "2024-03-16"]%string.
Proof.
  assert (H : Forall (fun e => plain_key (entry_date e) = true)
                     Database.mockTripEntries)
    by (repeat constructor).
  split; [exact H|].
  destruct (timeline_of_entries code_unit_collation
              Database.mockTripEntries H) as [groups [Hg _]].
  exists groups. split; [exact Hg|].
  vm_compute in Hg. injection Hg as <-. reflexivity.
Defined.

Lemma list_view_sorted_witness :
  Forall (fun e : TripEntry => True /\ True) (rev Database.mockTripEntries)
  /\ map entry_id (list_view code_unit_collation
                             (rev Database.mockTripEntries))
     = ["1"; "2"; "3"]%string
  /\ StronglySorted date_time_le
       (list_view code_unit_collation (rev Database.mockTripEntries)).
Proof.
  assert (H : Forall (fun e : TripEntry => True /\ True)
                     (rev Database.mockTripEntries))
    by (repeat constructor).
  split; [exact H|]. split; [reflexivity|].
  exact (proj1 (proj2
           (list_view_sorted code_unit_collation (fun _ => True)
              (fun a b _ _ => TimelineSpec.code_unit_collation_agrees a b)
              (rev Database.mockTripEntries) H))).
Defined.

Lemma cards_ties_keep_order_witness :
  filter (same_time "10:00")
         (timeline_group code_unit_collation
            [card "museum" (Some "10:00"); card "stroll" None;
             card "temple" (Some "10:00")])
  = [card "museum" (Some "10:00"); card "temple" (Some "10:00")].
Proof.
  exact (proj1
           (cards_ties_keep_order code_unit_collation (fun _ => True)
              (fun a b _ _ => TimelineSpec.code_unit_collation_agrees a b)
              [card "museum" (Some "10:00"); card "stroll" None;
               card "temple" (Some "10:00")]
              [] "2024-03-16"%string "10:00"%string I)).
Defined.

End ViewSpec.

(** * Properties of the dates the dialogs write and the pages read *)
Module DateSpec.
Import Model JsDate Form.
Import DateNotions DialogNotions.
Local Open Scope Z_scope.

Ltac dlia := Z.div_mod_to_equations; lia.

(** ** Day numbers and civil dates *)

Lemma leap_day (doe : Z) :
  0 <= doe < 146097 ->
  let yoe := (doe - doe / 1460 + doe / 36524 - doe / 146096) / 365 in
  let doy := doe - (365 * yoe + yoe / 4 - yoe / 100) in
  doy = 365 ->
  (yoe + 1) mod 4 = 0 /\ ((yoe + 1) mod 100 <> 0 \/ yoe = 399).
Proof. cbv zeta. intros Hdoe Hdoy. dlia. Qed.

Lemma month_length (doy : Z) :
  0 <= doy <= 365 ->
  let mp := (5 * doy + 2) / 153 in
  let d := doy - (153 * mp + 2) / 5 + 1 in
  (mp = 0 \/ mp = 2 \/ mp = 4 \/ mp = 5 \/ mp = 7 \/ mp = 9 \/ mp = 10 ->
   d <= 31)
  /\ (mp = 1 \/ mp = 3 \/ mp = 6 \/ mp = 8 -> d <= 30)
  /\ (mp = 11 -> d <= 29 /\ (doy <> 365 -> d <= 28)).
Proof. cbv zeta. intros H. dlia. Qed.

(** [civil_from_days] gives a month and a day that exist, and
    [days_from_civil] maps them back to the day number. *)
Lemma civil_from_days_valid (z : Z) :
  let '(y, m, d) := civil_from_days z in
  1 <= m <= 12 /\ 1 <= d <= days_in_month y m /\ days_from_civil y m d = z.
Proof.
  unfold civil_from_days. cbv zeta.
  set (z' := z + 719468).
  set (era := z' / 146097).
  set (doe := z' - era * 146097).
  assert (Hdoe : 0 <= doe < 146097) by (subst doe era; dlia).
  pose proof (leap_day doe Hdoe) as Hleap. cbv zeta in Hleap.
  set (yoe := (doe - doe / 1460 + doe / 36524 - doe / 146096) / 365) in *.
  set (doy := doe - (365 * yoe + yoe / 4 - yoe / 100)) in *.
  assert (Hyoe : 0 <= yoe <= 399) by (subst yoe; dlia).
  assert (Hdoy : 0 <= doy <= 365) by (subst doy yoe; dlia).
  pose proof (month_length doy Hdoy) as Hlen. cbv zeta in Hlen.
  set (mp := (5 * doy + 2) / 153) in *.
  assert (Hmp : 0 <= mp <= 11) by (subst mp; dlia).
  set (d := doy - (153 * mp + 2) / 5 + 1) in *.
  assert (Hd : 1 <= d <= 31) by (subst d mp; dlia).
  set (m := if mp <? 10 then mp + 3 else mp - 9).
  assert (Hm : 1 <= m <= 12 /\ (if 2 <? m then m - 3 else m + 9) = mp
               /\ ((m <=? 2) = negb (mp <? 10))
               /\ (mp < 10 -> m = mp + 3) /\ (10 <= mp -> m = mp - 9)).
  { subst m. destruct (Z.ltb_spec mp 10).
    - destruct (Z.ltb_spec 2 (mp + 3)); [|lia].
      destruct (Z.leb_spec (mp + 3) 2); [lia|]. cbn. lia.
    - destruct (Z.ltb_spec 2 (mp - 9)); [lia|].
      destruct (Z.leb_spec (mp - 9) 2); [|lia]. cbn. lia. }
  destruct Hm as [Hm [Hmp' [Hle [Hm1 Hm2]]]].
  set (y := if m <=? 2 then yoe + era * 400 + 1 else yoe + era * 400).
  assert (Hy : (if m <=? 2 then y - 1 else y) = yoe + era * 400).
  { subst y. destruct (m <=? 2); lia. }
  split; [exact Hm|]. split.
  - split; [lia|].
    destruct Hlen as [H31 [H30 H28]].
    unfold days_in_month.
    destruct (Z.eqb_spec m 2) as [Hfeb|Hnfeb].
    + assert (Hmp11 : mp = 11) by lia.
      destruct (H28 Hmp11) as [H29 Hshort].
      assert (Hy' : y = yoe + era * 400 + 1).
      { subst y. rewrite Hfeb. reflexivity. }
      destruct (is_leap y) eqn:Hl; [exact H29|].
      apply Hshort. intros Hlast. destruct (Hleap Hlast) as [H4 H100].
      unfold is_leap in Hl.
      apply orb_false_iff in Hl. destruct Hl as [Hl4 Hl400].
      apply Z.eqb_neq in Hl400.
      apply andb_false_iff in Hl4. destruct Hl4 as [Hl4|Hl100].
      * apply Z.eqb_neq in Hl4. rewrite Hy' in Hl4. dlia.
      * apply negb_false_iff, Z.eqb_eq in Hl100.
        rewrite Hy' in Hl100, Hl400. dlia.
    + destruct ((m =? 4) || (m =? 6) || (m =? 9) || (m =? 11)) eqn:H;
        [|exact (proj2 Hd)].
      apply H30.
      repeat (apply orb_true_iff in H; destruct H as [H|H]);
        apply Z.eqb_eq in H; lia.
  - unfold days_from_civil. cbv zeta. rewrite Hy, Hmp'.
    assert (He : (yoe + era * 400) / 400 = era) by dlia.
    rewrite He.
    replace (yoe + era * 400 - era * 400) with yoe by lia.
    subst d.
    replace ((153 * mp + 2) / 5 + (doy - (153 * mp + 2) / 5 + 1) - 1)
      with doy by lia.
    subst doy doe z'. lia.
Qed.

(** The years of the days between 0000-01-01 and 9999-12-31. *)
Lemma civil_from_days_year (z : Z) :
  -719528 <= z < 2932897 ->
  let '(y, m, d) := civil_from_days z in 0 <= y <= 9999.
Proof.
  intros Hz. pose proof (civil_from_days_valid z) as Hv.
  destruct (civil_from_days z) as [[y m] d].
  destruct Hv as [Hm [Hd Hback]].
  assert (Hd31 : d <= 31).
  { destruct Hd as [_ Hd]. unfold days_in_month in Hd.
    destruct (m =? 2); [destruct (is_leap y); lia|].
    destruct ((m =? 4) || (m =? 6) || (m =? 9) || (m =? 11)); lia. }
  unfold days_from_civil in Hback. cbv zeta in Hback.
  destruct (Z.leb_spec m 2); destruct (Z.ltb_spec 2 m); try lia; dlia.
Qed.

(** ** Decimal digits *)

Lemma number_of_digits (u : Decimal.uint) (acc : positive) :
  number_of (Zpos acc) (NilEmpty.string_of_uint u)
  = Some (Zpos (Pos.of_uint_acc u acc)).
Proof.
  revert acc.
  induction u; intros acc;
    cbn [NilEmpty.string_of_uint number_of Pos.of_uint_acc];
    [reflexivity|..];
    match goal with
    | |- context [digit_of ?c] =>
        let v := eval vm_compute in (digit_of c) in
        change (digit_of c) with v
    end; cbv iota; rewrite <- IHu; f_equal; lia.
Qed.

Lemma number_of_uint (u : Decimal.uint) :
  number_of 0 (NilEmpty.string_of_uint u) = Some (Z.of_N (Pos.of_uint u)).
Proof.
  induction u; cbn [NilEmpty.string_of_uint number_of Pos.of_uint];
    [reflexivity|..];
    match goal with
    | |- context [digit_of ?c] =>
        let v := eval vm_compute in (digit_of c) in
        change (digit_of c) with v
    end; cbv iota; [exact IHu|..]; apply number_of_digits.
Qed.

Lemma length_uint (u : Decimal.uint) :
  String.length (NilEmpty.string_of_uint u) = Decimal.nb_digits u.
Proof. induction u; cbn; congruence. Qed.

Lemma before_T_uint (u : Decimal.uint) (r : string) :
  before_T (NilEmpty.string_of_uint u ++ r)
  = (NilEmpty.string_of_uint u ++ before_T r)%string.
Proof. induction u; cbn; congruence. Qed.

Lemma of_uint_acc_bound (u : Decimal.uint) (acc : positive) :
  Zpos acc * 10 ^ Z.of_nat (Decimal.nb_digits u)
  <= Zpos (Pos.of_uint_acc u acc).
Proof.
  revert acc. induction u; intros acc;
    cbn [Decimal.nb_digits Pos.of_uint_acc];
    [rewrite Z.pow_0_r; lia|..];
    rewrite Nat2Z.inj_succ, Z.pow_succ_r by lia;
    (eapply Z.le_trans; [|apply IHu]);
    pose proof (Z.pow_nonneg 10 (Z.of_nat (Decimal.nb_digits u)) ltac:(lia));
    nia.
Qed.

(** A normal form is [0] or starts with a digit that is not zero. *)
Lemma normal_head (u : Decimal.uint) :
  Decimal.unorm u = u ->
  u = Decimal.D0 Decimal.Nil
  \/ 10 ^ (Z.of_nat (Decimal.nb_digits u) - 1) <= Z.of_N (Pos.of_uint u).
Proof.
  intros Hn. destruct u;
    try (right; cbn [Decimal.nb_digits Pos.of_uint];
         rewrite Nat2Z.inj_succ;
         replace (Z.succ (Z.of_nat (Decimal.nb_digits u)) - 1)
           with (Z.of_nat (Decimal.nb_digits u)) by lia;
         cbn [Z.of_N];
         match goal with
         | |- _ <= Zpos (Pos.of_uint_acc _ ?k) =>
             pose proof (of_uint_acc_bound u k);
             pose proof (Z.pow_nonneg 10 (Z.of_nat (Decimal.nb_digits u))
                           ltac:(lia))
         end; nia).
  - exfalso. now apply (DecimalFacts.unorm_nonnil Decimal.Nil).
  - destruct u; try (left; reflexivity);
      exfalso;
      match type of Hn with
      | Decimal.unorm (Decimal.D0 ?l) = _ =>
          assert (Hl : l <> Decimal.Nil) by discriminate;
          pose proof (DecimalFacts.nb_digits_unorm l Hl) as Hb;
          rewrite DecimalFacts.unorm_D0 in Hn; rewrite Hn in Hb;
          cbn in Hb; lia
      end.
Qed.

(** The decimal form of a natural number: digits that read back as the
    number, with no more digits than the number needs. *)
Lemma decimal_spec (n : Z) :
  0 <= n ->
  exists u,
    decimal n = NilEmpty.string_of_uint u
    /\ number_of 0 (decimal n) = Some n
    /\ (Decimal.nb_digits u = 1%nat
        \/ 10 ^ (Z.of_nat (Decimal.nb_digits u) - 1) <= n).
Proof.
  intros Hn. unfold decimal.
  set (u := N.to_uint (Z.to_N n)).
  assert (Hof : Pos.of_uint u = Z.to_N n) by apply DecimalN.Unsigned.of_to.
  assert (Hnorm : Decimal.unorm u = u).
  { pose proof (DecimalN.Unsigned.to_of u) as H. unfold N.of_uint in H.
    rewrite Hof in H. now symmetry. }
  assert (Hnil : u <> Decimal.Nil).
  { rewrite <- Hnorm. apply DecimalFacts.unorm_nonnil. }
  exists u.
  assert (Hs : NilZero.string_of_uint u = NilEmpty.string_of_uint u).
  { destruct u; [contradiction|reflexivity..]. }
  rewrite Hs. split; [reflexivity|]. split.
  - rewrite number_of_uint, Hof. f_equal. lia.
  - destruct (normal_head u Hnorm) as [Hz|Hb].
    + left. now rewrite Hz.
    + right. rewrite Hof in Hb. lia.
Qed.

Lemma number_of_zeros (k : nat) (s : string) :
  number_of 0 (zeros k ++ s) = number_of 0 s.
Proof. induction k; cbn; [reflexivity | exact IHk]. Qed.

Lemma length_zeros (k : nat) : String.length (zeros k) = k.
Proof. induction k; cbn; congruence. Qed.

Lemma before_T_zeros (k : nat) (r : string) :
  before_T (zeros k ++ r) = (zeros k ++ before_T r)%string.
Proof. induction k; cbn; congruence. Qed.

Lemma length_append (a b : string) :
  String.length (a ++ b) = (String.length a + String.length b)%nat.
Proof. induction a; cbn; congruence. Qed.

Lemma append_empty (a : string) : (a ++ "")%string = a.
Proof. induction a; cbn; congruence. Qed.

Lemma append_assoc (a b c : string) :
  ((a ++ b) ++ c = a ++ (b ++ c))%string.
Proof. induction a; cbn; congruence. Qed.

(** [pad] on a number that fits: exactly [width] digits, which read back as
    the number and hold no ['T']. *)
Lemma pad_spec (width : nat) (n : Z) :
  0 <= n < 10 ^ Z.of_nat width -> (0 < width)%nat ->
  String.length (pad width n) = width
  /\ number_of 0 (pad width n) = Some n
  /\ forall r,
      before_T (pad width n ++ r) = (pad width n ++ before_T r)%string.
Proof.
  intros [H0 Hlt] Hw. unfold pad. cbv zeta.
  destruct (decimal_spec n H0) as [u [Hu [Hnum Hlen]]].
  assert (Hfit : (Decimal.nb_digits u <= width)%nat).
  { destruct Hlen as [Hone|Hbig]; [lia|].
    destruct (Nat.le_gt_cases (Decimal.nb_digits u) width) as [|Hgt];
      [assumption|].
    exfalso.
    assert (10 ^ Z.of_nat width <= 10 ^ (Z.of_nat (Decimal.nb_digits u) - 1))
      by (apply Z.pow_le_mono_r; lia).
    lia. }
  rewrite number_of_zeros, length_append, length_zeros, Hu, length_uint.
  split; [lia|]. split; [now rewrite <- Hu|].
  intros r. now rewrite append_assoc, before_T_zeros, before_T_uint,
              append_assoc.
Qed.

(** ** Writing a day and reading it back *)

Lemma parse_parts (Y M D : string) (y m d : Z) :
  String.length Y = 4%nat -> String.length M = 2%nat ->
  String.length D = 2%nat ->
  number_of 0 Y = Some y -> number_of 0 M = Some m ->
  number_of 0 D = Some d ->
  parse_iso_date (Y ++ "-" ++ M ++ "-" ++ D)
  = if (1 <=? m) && (m <=? 12) && (1 <=? d) && (d <=? days_in_month y m)
    then Some (days_from_civil y m d * msPerDay)
    else None.
Proof.
  intros HY HM HD Hy Hm Hd.
  destruct Y as [|y0 [|y1 [|y2 [|y3 [|]]]]]; try discriminate.
  destruct M as [|m0 [|m1 [|]]]; try discriminate.
  destruct D as [|d0 [|d1 [|]]]; try discriminate.
  unfold parse_iso_date.
  cbn [append String.length substring Nat.eqb].
  change (String.eqb "-" "-") with true. cbn [andb].
  now rewrite Hy, Hm, Hd.
Qed.

Lemma iso_day_digits (t : Z) :
  four_digit_year t ->
  exists y m d,
    civil_from_days (t / msPerDay) = (y, m, d)
    /\ iso_day (Some t) = Ok (pad 4 y ++ "-" ++ pad 2 m ++ "-" ++ pad 2 d)
    /\ 0 <= y <= 9999.
Proof.
  intros Ht. unfold four_digit_year in Ht.
  assert (Hz : -719528 <= t / msPerDay < 2932897)
    by (unfold msPerDay; dlia).
  pose proof (civil_from_days_year _ Hz) as Hy.
  pose proof (civil_from_days_valid (t / msPerDay)) as Hv.
  unfold iso_day, toISOString. cbv zeta.
  destruct (civil_from_days (t / msPerDay)) as [[y m] d].
  destruct Hv as [Hm [Hd _]].
  assert (Hd31 : d <= 31).
  { destruct Hd as [_ Hd]. unfold days_in_month in Hd.
    destruct (m =? 2); [destruct (is_leap y); lia|].
    destruct ((m =? 4) || (m =? 6) || (m =? 9) || (m =? 11)); lia. }
  exists y, m, d. split; [reflexivity|]. split; [|exact Hy].
  destruct (Z.leb_spec 0 y); [|lia]. destruct (Z.leb_spec y 9999); [|lia].
  cbn [andb]. f_equal.
  destruct (pad_spec 4 y ltac:(cbn; lia) ltac:(lia)) as [_ [_ HTy]].
  destruct (pad_spec 2 m ltac:(cbn; lia) ltac:(lia)) as [_ [_ HTm]].
  destruct (pad_spec 2 d ltac:(cbn; lia) ltac:(lia)) as [_ [_ HTd]].
  rewrite HTy. f_equal. cbn [append before_T].
  change (Ascii.eqb "-" "T") with false. cbv iota. f_equal.
  rewrite HTm. f_equal. cbn [append before_T].
  change (Ascii.eqb "-" "T") with false. cbv iota. f_equal.
  rewrite HTd. cbn [append before_T].
  change (Ascii.eqb "T" "T") with true. cbv iota. apply append_empty.
Qed.

(** The day a dialog writes reads back, by the date-only form alone, as the
    midnight (UTC) that starts the day of the instant that was picked. *)
Theorem written_day_reads_back (t : Z) :
  four_digit_year t ->
  exists day,
    iso_day (Some t) = Ok day
    /\ String.length day = 10%nat
    /\ parse_iso_date day = Some (start_of_day t)
    /\ forall host_parse, new_Date host_parse day = Some (start_of_day t).
Proof.
  intros Ht.
  destruct (iso_day_digits t Ht) as [y [m [d [Hc [Hday Hy]]]]].
  pose proof (civil_from_days_valid (t / msPerDay)) as Hv.
  rewrite Hc in Hv. destruct Hv as [Hm [Hd Hback]].
  assert (Hd31 : d <= 31).
  { destruct Hd as [_ Hd']. unfold days_in_month in Hd'.
    destruct (m =? 2); [destruct (is_leap y); lia|].
    destruct ((m =? 4) || (m =? 6) || (m =? 9) || (m =? 11)); lia. }
  destruct (pad_spec 4 y ltac:(cbn; lia) ltac:(lia)) as [HLy [HNy _]].
  destruct (pad_spec 2 m ltac:(cbn; lia) ltac:(lia)) as [HLm [HNm _]].
  destruct (pad_spec 2 d ltac:(cbn; lia) ltac:(lia)) as [HLd [HNd _]].
  assert (Hparse : parse_iso_date (pad 4 y ++ "-" ++ pad 2 m ++ "-" ++ pad 2 d)
                   = Some (start_of_day t)).
  { rewrite (parse_parts _ _ _ y m d HLy HLm HLd HNy HNm HNd).
    destruct (Z.leb_spec 1 m); [|lia]. destruct (Z.leb_spec m 12); [|lia].
    destruct (Z.leb_spec 1 d); [|lia].
    destruct (Z.leb_spec d (days_in_month y m)); [|lia].
    cbn [andb]. unfold start_of_day. now rewrite Hback. }
  eexists. split; [exact Hday|]. split.
  - rewrite !length_append, HLy, HLm, HLd. reflexivity.
  - split; [exact Hparse|].
    intros host_parse. unfold new_Date. now rewrite Hparse.
Qed.

Lemma written_day_reads_back_witness :
  four_digit_year 1718112600000
  /\ exists day,
      iso_day (Some 1718112600000) = Ok day
      /\ parse_iso_date day = Some 1718064000000.
Proof.
  assert (H : four_digit_year 1718112600000)
    by (unfold four_digit_year; lia).
  split; [exact H|].
  destruct (written_day_reads_back 1718112600000 H)
    as [day [Hday [_ [Hparse _]]]].
  exists day. split; [exact Hday | exact Hparse].
Defined.

(** A trip created by the dialog, read by the dashboard: the stored dates
    are read without the host's fallback parser, and the status is
    ["upcoming"] before the midnight (UTC) that starts the day of the picked
    start instant, ["active"] from then up to and including the midnight
    (UTC) that starts the day of the picked end instant, and ["completed"]
    after it. *)
Theorem created_trip_status
        (en : Entropy) (user : User)
        (v : CreateTripDialog.TripFormValues)
        (data : CreateTripDialog.TripFormData)
        (s e : Z) (host_parse : string -> JsDate) (clock : Z) :
  CreateTripDialog.tripSchema v = Valid data ->
  CreateTripDialog.v_startDate v = Some (Some s) ->
  CreateTripDialog.v_endDate v = Some (Some e) ->
  four_digit_year s -> four_digit_year e ->
  exists trip,
    CreateTripDialog.tripData_of en user data = Ok trip
    /\ trip_userId trip = user_id user
    /\ parse_iso_date (trip_startDate trip) = Some (start_of_day s)
    /\ parse_iso_date (trip_endDate trip) = Some (start_of_day e)
    /\ Dashboard.getTripStatus host_parse clock
         (trip_startDate trip) (trip_endDate trip)
       = if clock <? start_of_day s then "upcoming"%string
         else if clock <=? start_of_day e then "active"%string
         else "completed"%string.
Proof.
  intros Hv Hs He Hsy Hey.
  destruct (DialogSpec.tripSchema_valid v data Hv)
    as [s' [e' [Hs' [He' [Hds [Hde _]]]]]].
  rewrite Hs in Hs'. rewrite He in He'.
  injection Hs' as <-. injection He' as <-.
  destruct (written_day_reads_back s Hsy) as [sd [Hsd [_ [Hps _]]]].
  destruct (written_day_reads_back e Hey) as [ed [Hed [_ [Hpe _]]]].
  destruct (DialogSpec.toISOString_valid (createdAt_clock en)) as [c Hc].
  destruct (DialogSpec.toISOString_valid (updatedAt_clock en)) as [u Hu].
  unfold CreateTripDialog.tripData_of.
  rewrite Hds, Hde, Hsd, Hed, Hc, Hu.
  eexists. split; [reflexivity|]. cbn [trip_userId trip_startDate trip_endDate].
  split; [reflexivity|]. split; [exact Hps|]. split; [exact Hpe|].
  now apply DashboardSpec.getTripStatus_iso.
Qed.

Lemma created_trip_status_witness :
  CreateTripDialog.tripSchema rome_trip = Valid rome_data
  /\ four_digit_year 1717977600000 /\ four_digit_year 1718409600000
  /\ exists trip,
      CreateTripDialog.tripData_of sample_entropy (mkUser "alice") rome_data
      = Ok trip
      /\ Dashboard.getTripStatus (fun _ => None) 1718000000000
           (trip_startDate trip) (trip_endDate trip) = "active"%string.
Proof.
  assert (Hs : four_digit_year 1717977600000)
    by (unfold four_digit_year; lia).
  assert (He : four_digit_year 1718409600000)
    by (unfold four_digit_year; lia).
  split; [reflexivity|]. split; [exact Hs|]. split; [exact He|].
  destruct (created_trip_status sample_entropy (mkUser "alice")
              rome_trip rome_data 1717977600000 1718409600000
              (fun _ => None) 1718000000000
              eq_refl eq_refl eq_refl Hs He)
    as [trip [Htrip [_ [_ [_ Hstatus]]]]].
  exists trip. split; [exact Htrip | exact Hstatus].
Defined.

(** Entries created by the dialog can always be grouped: their dates have
    the date-only form, which is neither an array index nor a name found on
    [Object.prototype], so [groupEntriesByDate] does not throw and its keys
    are the distinct dates in order of first occurrence. *)
Theorem created_entries_group (entries : list TripEntry) :
  Forall (fun entry =>
            exists en tripId user data t,
              CreateEntryDialog.date data = Some t
              /\ four_digit_year t
              /\ CreateEntryDialog.entryData_of en tripId user data
                 = Ok entry) entries ->
  TripDetails.groupEntriesByDate entries
  = Ok (GroupingNotions.grouped entries)
  /\ JsObject.Object_keys (GroupingNotions.grouped entries)
     = GroupingNotions.first_occurrences (map entry_date entries).
Proof.
  intros Hcreated.
  assert (Hday : Forall (fun entry =>
                           String.length (entry_date entry) = 10%nat
                           /\ parse_iso_date (entry_date entry) <> None)
                        entries).
  { eapply Forall_impl; [|exact Hcreated]. cbv beta.
    intros entry [en [tripId [user [data [t [Hd [Ht Hentry]]]]]]].
    destruct (written_day_reads_back t Ht) as [day [Hiso [Hlen [Hp _]]]].
    destruct (DialogSpec.toISOString_valid (createdAt_clock en)) as [c Hc].
    destruct (DialogSpec.toISOString_valid (updatedAt_clock en)) as [u Hu].
    unfold CreateEntryDialog.entryData_of in Hentry.
    rewrite Hd, Hiso, Hc, Hu in Hentry. injection Hentry as <-.
    cbn [entry_date]. split; [exact Hlen | congruence]. }
  split.
  - apply GroupingSpec.groupEntriesByDate_grouped.
    eapply Forall_impl; [|exact Hday]. cbv beta. intros entry [Hlen _].
    destruct (JsObject.inherited (entry_date entry)) eqn:Hi; [|reflexivity].
    now apply GroupingSpec.inherited_length in Hi.
  - rewrite GroupingSpec.Object_keys_plain;
      [apply GroupingSpec.map_fst_tabulate|].
    apply Forall_forall. intros [k g] Hin. cbn [fst].
    apply in_map_iff in Hin. destruct Hin as [k' [Hk' Hin]].
    injection Hk' as -> _.
    apply GroupingSpec.in_first_occurrences, in_map_iff in Hin.
    destruct Hin as [entry [<- Hentry]].
    rewrite Forall_forall in Hday. destruct (Hday entry Hentry) as [_ Hp].
    unfold parse_iso_date in Hp.
    destruct (String.length (entry_date entry) =? 10)%nat; [|now cbn in Hp].
    destruct (String.eqb (substring 4 1 (entry_date entry)) "-") eqn:Hdash;
      [|now cbn in Hp].
    apply String.eqb_eq in Hdash.
    destruct (entry_date entry) as [|c0 [|c1 [|c2 [|c3 [|c4 rest]]]]];
      try discriminate.
    cbn in Hdash. destruct rest; injection Hdash as ->;
      unfold JsObject.array_index;
      now rewrite GroupingSpec.number_of_dash.
Qed.

Lemma created_entries_group_witness :
  (exists entry,
      CreateEntryDialog.entryData_of sample_entropy "1" (mkUser "alice")
                                     colosseum_data = Ok entry
      /\ TripDetails.groupEntriesByDate [entry]
         = Ok (GroupingNotions.grouped [entry])).
Proof.
  eexists. split; [reflexivity|].
  apply created_entries_group.
  constructor; [|constructor].
  exists sample_entropy, "1"%string, (mkUser "alice"), colosseum_data,
    1718064000000.
  split; [reflexivity|]. split; [unfold four_digit_year; lia | reflexivity].
Defined.

End DateSpec.
